(** * Span metrics: compiling UPQL metric definitions to ClickHouse fragments

    A shallow embedding of [pkg/metrics/span_metric.go] (the value, attribute
    and WHERE compilers and the materialized-view builder) and of the token
    lexer of the UPQL [ast] package, followed by the properties established
    about them.

    Conventions.
    - A Go [string] and a Go [[]byte] buffer are both a [string] (a sequence
      of 8-bit characters); a nil [[]byte] result that the code tests with
      [== nil] is an [option string].
    - A Go [int] is a [Z].  The only arithmetic on them is [+ 1] and [- 1] on
      offsets bounded by the length of a string or by the number of calls
      made, so the 64-bit wrap-around is out of reach and is not written out.
    - A function returning [(T, error)] returns a [result T]. *)

From Stdlib Require Import ZArith List String Ascii Bool Lia Sorted.
Import ListNotations.

Open Scope list_scope.
Open Scope string_scope.
Open Scope Z_scope.

(** ** Errors and results *)

(** One constructor per [fmt.Errorf] site of the two source files, carrying
    the values the message is formatted from; [ErrCollaborator] stands for an
    error handed back by a collaborator (the store, the quoted-literal
    reader). *)
Inductive error : Type :=
| ErrCantParseMetricValue (value : string)
| ErrUnsupportedMetricValueAST (goType : string)
| ErrUnsupportedSpanMetricExpr (goType : string)
| ErrCantParseMetricWhere (where_ : string)
| ErrCantFilterByAggColumns (where_ : string)
| ErrUnsupportedInstrument (instrument : string)
| ErrCollaborator (msg : string)
| PanicIndexOutOfRange.

(** [PanicIndexOutOfRange] is not a returned error but a Go run-time panic;
    it sits in the same type so that a result has two cases. *)
Inductive result (A : Type) : Type :=
| Ok (a : A)
| Err (e : error).
Arguments Ok {A} a.
Arguments Err {A} e.

(** ** Go string primitives *)

Definition len (s : string) : Z := Z.of_nat (String.length s).

(** [s[i]], with the zero byte where Go would panic. *)
Definition byteAt (s : string) (i : Z) : ascii :=
  if i <? 0 then zero
  else match String.get (Z.to_nat i) s with
       | Some c => c
       | None => zero
       end.

(** [s[lo:hi]]; the callers below only slice within bounds. *)
Definition slice (s : string) (lo hi : Z) : string :=
  String.substring (Z.to_nat lo) (Z.to_nat (hi - lo)) s.

Module strings.

(** [strings.HasPrefix(s, prefix)]: byte-wise comparison. *)
Definition HasPrefix (s prefix : string) : bool := String.prefix prefix s.

(** [strings.ReplaceAll(s, old, new)] for a non-empty [old]: the
    non-overlapping occurrences of [old], found left to right, are replaced
    by [new].  [skip] counts the bytes of a matched occurrence still to be
    dropped.  (With an empty [old] Go inserts [new] around every rune; the
    source never does that and the case is not modelled.) *)
Fixpoint replaceFrom (old new s : string) (skip : nat) : string :=
  match s with
  | EmptyString => EmptyString
  | String c s' =>
      match skip with
      | S k => replaceFrom old new s' k
      | O =>
          if String.prefix old s
          then new ++ replaceFrom old new s' (String.length old - 1)
          else String c (replaceFrom old new s' O)
      end
  end.

Definition ReplaceAll (s old new : string) : string :=
  replaceFrom old new s O.

End strings.

(** ** The byte cursor under the token lexer *)

Module bunlex.

(** Modelled from the spec: package [bunlex] (the byte cursor that the
    token lexer drives) is not under src/.  It is a position [i] in the
    source [s]; the method names are the ones the lexer calls.  Section 4.1
    of the specification says what the two scanners do: the number scanner
    "consumes digits and an optional fractional part", the quoted-value
    reader "consumes until the matching unescaped closing quote" and fails
    "if input ends first", yielding "the unescaped text (quotes
    stripped)". *)
Record Lexer : Type := { s : string; i : Z }.

Definition Reset (src : string) : Lexer := {| s := src; i := 0 |}.
Definition Valid (l : Lexer) : bool := i l <? len (s l).
Definition Pos (l : Lexer) : Z := i l.
Definition PeekByte (l : Lexer) : ascii :=
  if Valid l then byteAt (s l) (i l) else zero.
Definition Advance (l : Lexer) : Lexer := {| s := s l; i := i l + 1 |}.
Definition Rewind (l : Lexer) : Lexer := {| s := s l; i := i l - 1 |}.
Definition NextByte (l : Lexer) : ascii * Lexer := (PeekByte l, Advance l).

(** The number of bytes still to read: the bound of every scanning loop. *)
Definition remaining (l : Lexer) : nat := Z.to_nat (len (s l) - i l).

Definition between (lo hi c : ascii) : bool :=
  ((nat_of_ascii lo <=? nat_of_ascii c)%nat
   && (nat_of_ascii c <=? nat_of_ascii hi)%nat)%bool.

Definition IsWhitespace (c : ascii) : bool :=
  ((c =? " ")%char || (c =? "009")%char
   || (c =? "010")%char || (c =? "013")%char)%bool.
Definition IsDigit (c : ascii) : bool := between "0" "9" c.
Definition IsAlpha (c : ascii) : bool :=
  (between "a" "z" c || between "A" "Z" c)%bool.
Definition IsAlnum (c : ascii) : bool := (IsAlpha c || IsDigit c)%bool.

(** The run of digits at the cursor; [fuel] bounds the loop and
    [remaining l] is always enough. *)
Fixpoint digits (fuel : nat) (l : Lexer) : Lexer :=
  match fuel with
  | O => l
  | S fuel' =>
      if (Valid l && IsDigit (PeekByte l))%bool
      then digits fuel' (Advance l)
      else l
  end.

Definition Number (l : Lexer) : string * Lexer :=
  let start := i l in
  let l := digits (remaining l) l in
  let l :=
    if (Valid l && (PeekByte l =? ".")%char)%bool
    then digits (remaining (Advance l)) (Advance l)
    else l in
  (slice (s l) start (i l), l).

(** The bytes up to the closing [quote]; a backslash makes the next byte
    literal.  The cursor is just past the opening quote on entry and just
    past the closing one on success. *)
Fixpoint unquoted (fuel : nat) (quote : ascii) (escaped : bool)
    (acc : string) (l : Lexer) : result string * Lexer :=
  match fuel with
  | O => (Err (ErrCollaborator "unterminated literal"), l)
  | S fuel' =>
      if negb (Valid l)
      then (Err (ErrCollaborator "unterminated literal"), l)
      else
        let c := PeekByte l in
        let l := Advance l in
        if escaped then unquoted fuel' quote false (acc ++ String c "") l
        else if (c =? "092")%char then unquoted fuel' quote true acc l
        else if (c =? quote)%char then (Ok acc, l)
        else unquoted fuel' quote false (acc ++ String c "") l
  end.

Definition ReadUnquoted (quote : ascii) (l : Lexer)
  : result string * Lexer :=
  unquoted (remaining l) quote false "" l.

End bunlex.

(** ** The UPQL expression AST, its token lexer, and the tracing AST *)

Module ast.

(** Modelled from the spec: the node types of [upql/ast] are declared in a
    file that is not under src/.  Section 3 of the specification gives the
    closed set met by the compiler: [Name{function, attribute}],
    [Number{text}], [ParenExpr{inner}], [BinaryExpr{left, operator, right}];
    the field names are those the source reads ([expr.Func], [expr.Name],
    [expr.Text], [expr.Expr], [expr.LHS], [expr.Op], [expr.RHS]).
    [OtherExpr] is any further node kind, with the Go type name that [%T]
    prints. *)
Inductive Expr : Type :=
| Name (Func Name : string)
| Number (Text : string)
| ParenExpr (Expr : Expr)
| BinaryExpr (LHS : Expr) (Op : string) (RHS : Expr)
| OtherExpr (goType : string).

(** Modelled from the spec: [Selector{expr}], read by the source as
    [sel.Expr.Expr] (a named expression inside the selector). *)
Record NamedExpr : Type := { Expr_ : Expr; Alias : string }.
Record Selector : Type := { SelExpr : NamedExpr }.

(** The dynamic type of [part.AST]: a [*ast.Selector] or anything else. *)
Inductive Node : Type :=
| SelectorNode (sel : Selector)
| OtherNode (goType : string).

Record QueryPart : Type := { AST : Node }.

(** *** Tokens and the lexer (the second source file, package [ast]) *)

Inductive TokenID : Type :=
| EOF_TOKEN
| BYTE_TOKEN
| IDENT_TOKEN
| VALUE_TOKEN
| NUMBER_TOKEN.

Record Token : Type := { ID : TokenID; Text : string; Start : Z }.

Definition eofToken : Token := {| ID := EOF_TOKEN; Text := ""; Start := 0 |}.

Record lexer : Type :=
  { s : string;
    lex : bunlex.Lexer;
    ignoreSpaces : bool;
    tokens : list Token;
    pos : Z }.

Definition setLex (l : lexer) (lx : bunlex.Lexer) : lexer :=
  {| s := s l; lex := lx; ignoreSpaces := ignoreSpaces l;
     tokens := tokens l; pos := pos l |}.

Definition Reset (src : string) (l : lexer) : lexer :=
  {| s := src; lex := bunlex.Reset src; ignoreSpaces := false;
     tokens := []; pos := 0 |}.

Definition newLexer (src : string) : lexer :=
  Reset src {| s := ""; lex := bunlex.Reset ""; ignoreSpaces := false;
               tokens := []; pos := 0 |}.

Definition IgnoreSpaces (l : lexer) : lexer :=
  {| s := s l; lex := lex l; ignoreSpaces := true;
     tokens := tokens l; pos := pos l |}.

Definition Pos (l : lexer) : Z := pos l.

Definition ResetPos (p : Z) (l : lexer) : lexer :=
  {| s := s l; lex := lex l; ignoreSpaces := ignoreSpaces l;
     tokens := tokens l; pos := p |}.

Definition isIdentChar (c : ascii) : bool :=
  (bunlex.IsAlnum c || (c =? "_")%char || (c =? ".")%char)%bool.

(** [l.token]: append to the cache and return the appended token. *)
Definition token (id : TokenID) (text : string) (start : Z) (l : lexer)
  : Token * lexer :=
  let tok := {| ID := id; Text := text; Start := start |} in
  (tok, {| s := s l; lex := lex l; ignoreSpaces := ignoreSpaces l;
           tokens := tokens l ++ [tok]; pos := pos l |}).

Definition charToken (id : TokenID) (l : lexer) : Token * lexer :=
  let p := bunlex.Pos (lex l) in
  token id (slice (s l) (p - 1) p) (p - 1) l.

Definition quotedValue (end_ : ascii) (l : lexer) : result Token * lexer :=
  let start := bunlex.Pos (lex l) - 1 in
  match bunlex.ReadUnquoted end_ (lex l) with
  | (Ok str, lx) =>
      let (tok, l') := token VALUE_TOKEN str start (setLex l lx) in
      (Ok tok, l')
  | (Err e, lx) => (Err e, setLex l lx)
  end.

(** Go evaluates the calls among the arguments of [l.token(...)] from left
    to right: [l.lex.Number()] runs first and [l.lex.Pos()] is read after
    it. *)
Definition number (l : lexer) : Token * lexer :=
  let (text, lx) := bunlex.Number (lex l) in
  let l := setLex l lx in
  token NUMBER_TOKEN text (bunlex.Pos (lex l)) l.

(** The loop of [ident]: advance while the next byte is an identifier
    byte. *)
Fixpoint identBytes (fuel : nat) (lx : bunlex.Lexer) : bunlex.Lexer :=
  match fuel with
  | O => lx
  | S fuel' =>
      if bunlex.Valid lx
      then if isIdentChar (bunlex.PeekByte lx)
           then identBytes fuel' (bunlex.Advance lx)
           else lx
      else lx
  end.

Definition ident (start : Z) (l : lexer) : result Token * lexer :=
  let l := setLex l (identBytes (bunlex.remaining (lex l)) (lex l)) in
  let str := slice (s l) start (bunlex.Pos (lex l)) in
  let (tok, l') := token IDENT_TOKEN str start l in
  (Ok tok, l').

(** [readToken] calls itself after a skipped whitespace byte; every call
    consumes a byte first, so the bytes left to read bound the depth and
    with none left the cursor is not valid and the answer is [eofToken]. *)
Fixpoint readTokenFrom (fuel : nat) (l : lexer) : result Token * lexer :=
  match fuel with
  | O => (Ok eofToken, l)
  | S fuel' =>
      if negb (bunlex.Valid (lex l)) then (Ok eofToken, l)
      else
        let (c, lx) := bunlex.NextByte (lex l) in
        let l := setLex l lx in
        if ((c =? "'")%char || (c =? "034")%char)%bool
        then quotedValue c l
        else if ((c =? "(")%char || (c =? ")")%char || (c =? ",")%char)%bool
        then let (tok, l') := charToken BYTE_TOKEN l in (Ok tok, l')
        else if (c =? "_")%char then ident (bunlex.Pos (lex l) - 1) l
        else if (c =? "$")%char then ident (bunlex.Pos (lex l) - 1) l
        else if (ignoreSpaces l && bunlex.IsWhitespace c)%bool
        then readTokenFrom fuel' l
        else if bunlex.IsDigit c
        then let (tok, l') := number (setLex l (bunlex.Rewind (lex l))) in
             (Ok tok, l')
        else if bunlex.IsAlpha c then ident (bunlex.Pos (lex l) - 1) l
        else let (tok, l') := charToken BYTE_TOKEN l in (Ok tok, l')
  end.

Definition readToken (l : lexer) : result Token * lexer :=
  readTokenFrom (bunlex.remaining (lex l)) l.

(** [&l.tokens[l.pos]] panics on a negative index. *)
Definition PeekToken (l : lexer) : result Token * lexer :=
  if pos l <? Z.of_nat (List.length (tokens l))
  then
    if pos l <? 0 then (Err PanicIndexOutOfRange, l)
    else match nth_error (tokens l) (Z.to_nat (pos l)) with
         | Some tok => (Ok tok, l)
         | None => (Err PanicIndexOutOfRange, l)
         end
  else readToken l.

Definition NextToken (l : lexer) : result Token * lexer :=
  match PeekToken l with
  | (Ok tok, l') => (Ok tok, ResetPos (pos l' + 1) l')
  | (Err e, l') => (Err e, l')
  end.

Definition isIdent (str : string) : bool :=
  forallb isIdentChar (list_ascii_of_string str).

End ast.

Module tracingupql.

(** Modelled from the spec: [tracingupql.Name], [Cond] and [Where] are
    declared outside src/.  Section 3: a condition is
    [{left, operator, right, separator: {logical_op, negate}}] and a
    [Where] is an ordered sequence of conditions.  The source reads
    [cond.Left], [cond.Sep.Op] (appended as text) and [cond.Sep.Negate],
    and builds [Name{FuncName, AttrKey}]. *)
Record Name : Type := { FuncName : string; AttrKey : string }.
Record CondSep : Type := { SepOp : string; Negate : bool }.
Record Cond : Type :=
  { Sep : CondSep; Left : Name; Op : string; Right : string }.
Record Where : Type := { Conds : list Cond }.

Inductive Node : Type :=
| WhereNode (w : Where)
| OtherNode (goType : string).

Record QueryPart : Type := { AST : Node }.

End tracingupql.

(** ** The ClickHouse query builder and the collaborators *)

Module ch.

(** Modelled from the spec: the [go-clickhouse] query builder is an external
    package.  A builder value records what has been called on it, which is
    the [ViewDefinition] of section 6 of the specification (view name,
    select columns, group-by entries, filter); [Exec] hands the statement to
    the store. *)
Inductive Arg : Type :=
| ArgString (v : string)
| ArgSafe (v : string)
| ArgIn (vs : list string).

Record QueryWithArgs : Type := { Query : string; Args : list Arg }.

Record DropViewQuery : Type :=
  { DropIfExists : bool; DropView : string; DropOnCluster : string }.

Record CreateViewQuery : Type :=
  { IsMaterialized : bool;
    ViewName : string;
    Cluster : string;
    To : string;
    Columns : list QueryWithArgs;
    Tables : list string;
    Group : list string;
    Wheres : list string }.

Inductive Stmt : Type :=
| DropViewStmt (q : DropViewQuery)
| CreateViewStmt (q : CreateViewQuery).

Definition NewCreateView : CreateViewQuery :=
  {| IsMaterialized := false; ViewName := ""; Cluster := ""; To := "";
     Columns := []; Tables := []; Group := []; Wheres := [] |}.

Definition Materialized (q : CreateViewQuery) : CreateViewQuery :=
  {| IsMaterialized := true; ViewName := ViewName q; Cluster := Cluster q;
     To := To q; Columns := Columns q; Tables := Tables q;
     Group := Group q; Wheres := Wheres q |}.

Definition View (name : string) (q : CreateViewQuery) : CreateViewQuery :=
  {| IsMaterialized := IsMaterialized q; ViewName := name;
     Cluster := Cluster q; To := To q; Columns := Columns q;
     Tables := Tables q; Group := Group q; Wheres := Wheres q |}.

Definition OnCluster (c : string) (q : CreateViewQuery) : CreateViewQuery :=
  {| IsMaterialized := IsMaterialized q; ViewName := ViewName q;
     Cluster := c; To := To q; Columns := Columns q;
     Tables := Tables q; Group := Group q; Wheres := Wheres q |}.

Definition ToExpr (e : string) (q : CreateViewQuery) : CreateViewQuery :=
  {| IsMaterialized := IsMaterialized q; ViewName := ViewName q;
     Cluster := Cluster q; To := e; Columns := Columns q;
     Tables := Tables q; Group := Group q; Wheres := Wheres q |}.

Definition ColumnExpr (query : string) (args : list Arg)
    (q : CreateViewQuery) : CreateViewQuery :=
  {| IsMaterialized := IsMaterialized q; ViewName := ViewName q;
     Cluster := Cluster q; To := To q;
     Columns := Columns q ++ [{| Query := query; Args := args |}];
     Tables := Tables q; Group := Group q; Wheres := Wheres q |}.

Definition TableExpr (e : string) (q : CreateViewQuery) : CreateViewQuery :=
  {| IsMaterialized := IsMaterialized q; ViewName := ViewName q;
     Cluster := Cluster q; To := To q; Columns := Columns q;
     Tables := Tables q ++ [e]; Group := Group q; Wheres := Wheres q |}.

Definition GroupExpr (e : string) (q : CreateViewQuery) : CreateViewQuery :=
  {| IsMaterialized := IsMaterialized q; ViewName := ViewName q;
     Cluster := Cluster q; To := To q; Columns := Columns q;
     Tables := Tables q; Group := Group q ++ [e]; Wheres := Wheres q |}.

Definition Where (e : string) (q : CreateViewQuery) : CreateViewQuery :=
  {| IsMaterialized := IsMaterialized q; ViewName := ViewName q;
     Cluster := Cluster q; To := To q; Columns := Columns q;
     Tables := Tables q; Group := Group q; Wheres := Wheres q ++ [e] |}.

End ch.

(** The collaborators of the compiler, none of which is under src/: the two
    parsers, the column helpers of package [tracing], the string quoting of
    [chschema], the instrument names, the configuration and the store.  They
    are parameters of everything below. *)
Record Env : Type :=
  { (** [upql.Parse] *)
    upqlParse : string -> list ast.QueryPart;
    (** [tracingupql.Parse] *)
    tracingupqlParse : string -> list tracingupql.QueryPart;
    (** the text [tracing.AppendCHColumn] appends for a name and a bucket
        width *)
    CHColumn : tracingupql.Name -> Z -> string;
    (** the text [tracing.AppendCHAttrExpr] appends for an attribute *)
    CHAttrExpr : string -> string;
    (** the text [chschema.AppendString] appends for a string *)
    CHString : string -> string;
    (** [tracing.CompileCond]; [None] is the nil slice *)
    CompileCond : tracingupql.Cond -> Z -> option string;
    (** [tracing.IsAggColumn] *)
    IsAggColumn : tracingupql.Name -> bool;
    (** the instrument names of package [metrics] *)
    GaugeInstrument : string;
    AdditiveInstrument : string;
    CounterInstrument : string;
    HistogramInstrument : string;
    (** [conf.CHSchema.Cluster] *)
    CHSchemaCluster : string;
    (** what the store answers to [Exec]; [None] is a nil error *)
    Exec : ch.Stmt -> option error }.

Module tracing.

(** Modelled from the spec: the helpers of package [tracing] are not under
    src/.  Section 6 gives them as [resolve_column(function, attribute,
    bucket_minutes) -> SQL text] and [resolve_attribute(attribute) -> SQL
    text]; as Go [Append*] functions they return the buffer extended by
    that text. *)
Definition AppendCHColumn (env : Env) (b : string)
    (name : tracingupql.Name) (minutes : Z) : string :=
  b ++ CHColumn env name minutes.

Definition AppendCHAttrExpr (env : Env) (b : string) (attr : string)
  : string :=
  b ++ CHAttrExpr env attr.

End tracing.

Module chschema.

(** Modelled from the spec: [chschema.AppendString] is external; it extends
    the buffer by the quoted form of the string. *)
Definition AppendString (env : Env) (b : string) (str : string) : string :=
  b ++ CHString env str.

End chschema.

(** ** Package [metrics]: [span_metric.go] *)

Module bunconf.

(** Modelled from the spec: [bunconf.SpanMetric] is declared outside src/;
    these are the fields the source reads, the metric definition of
    section 3. *)
Record SpanMetric : Type :=
  { Name : string;
    Description : string;
    Unit : string;
    Instrument : string;
    Value : string;
    Attrs : list string;
    Annotations : list string;
    Where : string }.

End bunconf.

Module metrics.

Definition spanMetricMinutes : Z := 1.

Fixpoint appendSpanMetricExpr (env : Env) (b : string) (expr : ast.Expr)
  : result string :=
  match expr with
  | ast.Name func name =>
      let b :=
        tracing.AppendCHColumn env b
          {| tracingupql.FuncName := func; tracingupql.AttrKey := name |}
          spanMetricMinutes in
      Ok b
  | ast.Number text =>
      let b := b ++ text in
      Ok b
  | ast.ParenExpr inner =>
      let b := b ++ "(" in
      match appendSpanMetricExpr env b inner with
      | Err err => Err err
      | Ok b =>
          let b := b ++ ")" in
          Ok b
      end
  | ast.BinaryExpr lhs op rhs =>
      match appendSpanMetricExpr env b lhs with
      | Err err => Err err
      | Ok b =>
          let b := b ++ " " in
          let b := b ++ op in
          let b := b ++ " " in
          match appendSpanMetricExpr env b rhs with
          | Err err => Err err
          | Ok b => Ok b
          end
      end
  | ast.OtherExpr goType => Err (ErrUnsupportedSpanMetricExpr goType)
  end.

(** The Go type name that [%T] prints for [part.AST]. *)
Definition typeName (n : ast.Node) : string :=
  match n with
  | ast.SelectorNode _ => "*ast.Selector"
  | ast.OtherNode goType => goType
  end.

Definition compileSpanMetricValue (env : Env) (value : string)
  : result string :=
  match upqlParse env value with
  | [part] =>
      match ast.AST part with
      | ast.SelectorNode sel =>
          appendSpanMetricExpr env "" (ast.Expr_ (ast.SelExpr sel))
      | other => Err (ErrUnsupportedMetricValueAST (typeName other))
      end
  | _ => Err (ErrCantParseMetricValue value)
  end.

(** The loop of [compileSpanMetricAttrs], from index [i] on. *)
Fixpoint attrsFrom (env : Env) (b : string) (i : nat) (attrs : list string)
  : string :=
  match attrs with
  | [] => b
  | attr :: rest =>
      let b := if (0 <? i)%nat then b ++ ", " else b in
      let b := tracing.AppendCHAttrExpr env b attr in
      attrsFrom env b (S i) rest
  end.

Definition compileSpanMetricAttrs (env : Env) (attrs : list string)
  : string :=
  attrsFrom env "" O attrs.

(** The loop of [compileSpanMetricAnnotations], from index [i] on. *)
Fixpoint annotationsFrom (env : Env) (b : string) (i : nat)
    (attrs : list string) : string :=
  match attrs with
  | [] => b
  | attr :: rest =>
      let b := if (0 <? i)%nat then b ++ ", " else b in
      let b := chschema.AppendString env b attr in
      let b := b ++ ", toString(any(" in
      let b := tracing.AppendCHAttrExpr env b attr in
      let b := b ++ "))" in
      annotationsFrom env b (S i) rest
  end.

Definition compileSpanMetricAnnotations (env : Env) (attrs : list string)
  : string :=
  annotationsFrom env "" O attrs.

(** The loop of [compileSpanMetricWhere] over [ast.Conds], with the buffer
    [b] built so far; [where_] is the text quoted by the error. *)
Fixpoint whereConds (env : Env) (where_ : string) (b : string)
    (conds : list tracingupql.Cond) : result string :=
  match conds with
  | [] => Ok b
  | cond :: rest =>
      match CompileCond env cond spanMetricMinutes with
      | None => whereConds env where_ b rest
      | Some bb =>
          if IsAggColumn env (tracingupql.Left cond)
          then Err (ErrCantFilterByAggColumns where_)
          else
            let b :=
              if 0 <? len b
              then (b ++ tracingupql.SepOp (tracingupql.Sep cond)) ++ " "
              else b in
            let b :=
              if tracingupql.Negate (tracingupql.Sep cond)
              then b ++ "NOT "
              else b in
            let b := b ++ bb in
            whereConds env where_ b rest
      end
  end.

Definition compileSpanMetricWhere (env : Env) (where_ : string)
  : result string :=
  let where_ :=
    if negb (strings.HasPrefix where_ "where ")
    then "where " ++ where_
    else where_ in
  match tracingupqlParse env where_ with
  | [part] =>
      match tracingupql.AST part with
      | tracingupql.WhereNode ast =>
          whereConds env where_ "" (tracingupql.Conds ast)
      | _ => Err (ErrCantParseMetricWhere where_)
      end
  | _ => Err (ErrCantParseMetricWhere where_)
  end.

(** The instrument switch of [createMatView]; [None] is the default
    branch. *)
Definition instrumentColumns (env : Env) (instrument valueExpr : string)
    (q : ch.CreateViewQuery) : option ch.CreateViewQuery :=
  if (instrument =? GaugeInstrument env)%string
  then Some (ch.ColumnExpr "? AS value" [ch.ArgSafe valueExpr] q)
  else if (instrument =? AdditiveInstrument env)%string
  then Some (ch.ColumnExpr "? AS value" [ch.ArgSafe valueExpr] q)
  else if (instrument =? CounterInstrument env)%string
  then Some (ch.ColumnExpr "? AS sum" [ch.ArgSafe valueExpr] q)
  else if (instrument =? HistogramInstrument env)%string
  then Some
         (ch.ColumnExpr
            "quantilesBFloat16State(0.5)(toFloat32(?)) AS histogram"
            [ch.ArgSafe valueExpr]
            (ch.ColumnExpr "sum(?) AS sum" [ch.ArgSafe valueExpr]
               (ch.ColumnExpr "count() AS count" [] q)))
  else None.

(** The query of [createMatView] as it stands before the optional parts:
    the chain of builder calls of lines 84-94. *)
Definition baseQuery (env : Env) (viewName : string)
    (metric : bunconf.SpanMetric) : ch.CreateViewQuery :=
  ch.GroupExpr "s.project_id, toStartOfMinute(s.time)"
    (ch.TableExpr "spans_index AS s"
       (ch.ColumnExpr "? AS instrument"
          [ch.ArgString (bunconf.Instrument metric)]
          (ch.ColumnExpr "toStartOfMinute(s.time) AS time" []
             (ch.ColumnExpr "? AS metric"
                [ch.ArgString (bunconf.Name metric)]
                (ch.ColumnExpr "s.project_id" []
                   (ch.ToExpr "measure_minutes"
                      (ch.OnCluster (CHSchemaCluster env)
                         (ch.View viewName
                            (ch.Materialized ch.NewCreateView))))))))).

Definition withAttrs (env : Env) (metric : bunconf.SpanMetric)
    (q : ch.CreateViewQuery) : ch.CreateViewQuery :=
  if (0 <? List.length (bunconf.Attrs metric))%nat
  then
    let attrsExpr := compileSpanMetricAttrs env (bunconf.Attrs metric) in
    ch.GroupExpr attrsExpr
      (ch.ColumnExpr "[?] AS attr_values" [ch.ArgSafe attrsExpr]
         (ch.ColumnExpr "[?] AS attr_keys"
            [ch.ArgIn (bunconf.Attrs metric)]
            (ch.ColumnExpr
               "xxHash64(arrayStringConcat([?], '-')) AS attrs_hash"
               [ch.ArgSafe attrsExpr] q)))
  else q.

Definition withAnnotations (env : Env) (metric : bunconf.SpanMetric)
    (q : ch.CreateViewQuery) : ch.CreateViewQuery :=
  if (0 <? List.length (bunconf.Annotations metric))%nat
  then
    let expr :=
      compileSpanMetricAnnotations env (bunconf.Annotations metric) in
    ch.ColumnExpr "toJSONString(map(?)) AS annotations" [ch.ArgSafe expr] q
  else q.

Definition withWhere (env : Env) (metric : bunconf.SpanMetric)
    (q : ch.CreateViewQuery) : result ch.CreateViewQuery :=
  if negb (bunconf.Where metric =? "")%string
  then
    match compileSpanMetricWhere env (bunconf.Where metric) with
    | Err err => Err err
    | Ok whereExpr =>
        if negb (whereExpr =? "")%string
        then Ok (ch.Where whereExpr q)
        else Ok q
    end
  else Ok q.

(** Line 69. *)
Definition viewNameOf (metric : bunconf.SpanMetric) : string :=
  ("metrics_" ++ strings.ReplaceAll (bunconf.Name metric) "." "_")
  ++ "_mv".

(** Lines 71-75: the statement of [NewDropView().IfExists().View(viewName)
    .OnCluster(...)]. *)
Definition dropViewStmt (env : Env) (viewName : string) : ch.Stmt :=
  ch.DropViewStmt
    {| ch.DropIfExists := true; ch.DropView := viewName;
       ch.DropOnCluster := CHSchemaCluster env |}.

(** [createMatView] returns the statements it has handed to the store, in
    order, and its error ([None] is nil). *)
Definition createMatView (env : Env) (metric : bunconf.SpanMetric)
  : list ch.Stmt * option error :=
  let viewName := viewNameOf metric in
  let drop := dropViewStmt env viewName in
  match Exec env drop with
  | Some err => ([drop], Some err)
  | None =>
      match compileSpanMetricValue env (bunconf.Value metric) with
      | Err err => ([drop], Some err)
      | Ok valueExpr =>
          let q := baseQuery env viewName metric in
          let q := withAttrs env metric q in
          let q := withAnnotations env metric q in
          match withWhere env metric q with
          | Err err => ([drop], Some err)
          | Ok q =>
              match
                instrumentColumns env (bunconf.Instrument metric)
                  valueExpr q
              with
              | None =>
                  ([drop],
                   Some (ErrUnsupportedInstrument
                           (bunconf.Instrument metric)))
              | Some q =>
                  let create := ch.CreateViewStmt q in
                  ([drop; create], Exec env create)
              end
          end
      end
  end.

End metrics.

(** ** Notions used by the statements *)

(** The two ways in which a metric value is rejected before its expression
    is compiled: not exactly one top-level part, or a part that is not a
    selector. *)
Definition MalformedMetricValue (e : error) : Prop :=
  match e with
  | ErrCantParseMetricValue _ => True
  | ErrUnsupportedMetricValueAST _ => True
  | _ => False
  end.

(** The rejection of an aggregate column in a filter. *)
Definition AggregateInFilter (e : error) : Prop :=
  match e with
  | ErrCantFilterByAggColumns _ => True
  | _ => False
  end.

(** A string with every byte replaced by its image. *)
Fixpoint mapBytes (f : ascii -> ascii) (str : string) : string :=
  match str with
  | EmptyString => EmptyString
  | String c rest => String (f c) (mapBytes f rest)
  end.

Definition dotToUnderscore (c : ascii) : ascii :=
  if (c =? ".")%char then "_"%char else c.

(** ["NOT "] or nothing, by the negation mark of a condition. *)
Definition notText (cond : tracingupql.Cond) : string :=
  if tracingupql.Negate (tracingupql.Sep cond) then "NOT " else "".

(** The conditions that survive the nil test of the loop, each with its
    compiled fragment. *)
Fixpoint survivors (env : Env) (conds : list tracingupql.Cond)
  : list (tracingupql.Cond * string) :=
  match conds with
  | [] => []
  | cond :: rest =>
      match CompileCond env cond metrics.spanMetricMinutes with
      | None => survivors env rest
      | Some bb => (cond, bb) :: survivors env rest
      end
  end.

(** What a condition met with a non-empty buffer adds to it. *)
Definition laterText (p : tracingupql.Cond * string) : string :=
  (tracingupql.SepOp (tracingupql.Sep (fst p)) ++ " " ++ notText (fst p)
   ++ snd p)%string.

Fixpoint joinLater (l : list (tracingupql.Cond * string)) : string :=
  match l with
  | [] => ""
  | p :: rest => (laterText p ++ joinLater rest)%string
  end.

(** The fragment of a list of surviving conditions. *)
Definition foldText (l : list (tracingupql.Cond * string)) : string :=
  match l with
  | [] => ""
  | p :: rest => (notText (fst p) ++ snd p ++ joinLater rest)%string
  end.

(** The filter text handed to the parser. *)
Definition whereText (w : string) : string :=
  if strings.HasPrefix w "where " then w else ("where " ++ w)%string.

(** [str] ends with [suffix]. *)
Definition endsWith (str suffix : string) : bool :=
  ((String.length suffix <=? String.length str)%nat
   && (String.substring (String.length str - String.length suffix)
         (String.length suffix) str =? suffix)%string)%bool.

(** The value-bearing columns of a view: those aliased [count], [sum],
    [histogram] or [value]. *)
Definition valueAliases : list string :=
  ["count"; "sum"; "histogram"; "value"]%string.

Definition valueBearing (col : ch.QueryWithArgs) : bool :=
  existsb (fun alias => endsWith (ch.Query col) (" AS " ++ alias))
    valueAliases.

Definition valueColumns (q : ch.CreateViewQuery) : list ch.QueryWithArgs :=
  filter valueBearing (ch.Columns q).

(** The query of [createMatView] when it reaches the instrument switch. *)
Definition beforeInstrument (env : Env) (metric : bunconf.SpanMetric)
  : result ch.CreateViewQuery :=
  metrics.withWhere env metric
    (metrics.withAnnotations env metric
       (metrics.withAttrs env metric
          (metrics.baseQuery env (metrics.viewNameOf metric) metric))).

Definition column (query : string) (args : list ch.Arg) : ch.QueryWithArgs :=
  {| ch.Query := query; ch.Args := args |}.

(** Concrete collaborators for the examples: columns and attributes resolve
    to their own name (identity resolution), a condition compiles to
    [left op right], nothing is an aggregate column, both parsers find
    nothing, and the store accepts everything. *)
Module Examples.

Definition identityEnv : Env :=
  {| upqlParse := fun _ => [];
     tracingupqlParse := fun _ => [];
     CHColumn := fun name _ => tracingupql.AttrKey name;
     CHAttrExpr := fun attr => attr;
     CHString := fun str => ("'" ++ str) ++ "'";
     CompileCond := fun cond _ =>
       Some (((tracingupql.AttrKey (tracingupql.Left cond) ++ " ")
              ++ tracingupql.Op cond ++ " ") ++ tracingupql.Right cond);
     IsAggColumn := fun _ => false;
     GaugeInstrument := "gauge";
     AdditiveInstrument := "additive";
     CounterInstrument := "counter";
     HistogramInstrument := "histogram";
     CHSchemaCluster := "";
     Exec := fun _ => None |}.

(** [identityEnv] with a value parser that answers [parts]. *)
Definition withUpqlParse (parts : list ast.QueryPart) (env : Env) : Env :=
  {| upqlParse := fun _ => parts;
     tracingupqlParse := tracingupqlParse env;
     CHColumn := CHColumn env; CHAttrExpr := CHAttrExpr env;
     CHString := CHString env; CompileCond := CompileCond env;
     IsAggColumn := IsAggColumn env;
     GaugeInstrument := GaugeInstrument env;
     AdditiveInstrument := AdditiveInstrument env;
     CounterInstrument := CounterInstrument env;
     HistogramInstrument := HistogramInstrument env;
     CHSchemaCluster := CHSchemaCluster env; Exec := Exec env |}.

(** [env] with a filter parser that answers one [Where] of [conds]. *)
Definition withConds (conds : list tracingupql.Cond) (env : Env) : Env :=
  {| upqlParse := upqlParse env;
     tracingupqlParse := fun _ =>
       [{| tracingupql.AST :=
             tracingupql.WhereNode {| tracingupql.Conds := conds |} |}];
     CHColumn := CHColumn env; CHAttrExpr := CHAttrExpr env;
     CHString := CHString env; CompileCond := CompileCond env;
     IsAggColumn := IsAggColumn env;
     GaugeInstrument := GaugeInstrument env;
     AdditiveInstrument := AdditiveInstrument env;
     CounterInstrument := CounterInstrument env;
     HistogramInstrument := HistogramInstrument env;
     CHSchemaCluster := CHSchemaCluster env; Exec := Exec env |}.

(** [env] where the columns named [agg] are aggregate columns and the
    conditions with operator [exists] compile to the nil fragment. *)
Definition withAgg (agg : string) (env : Env) : Env :=
  {| upqlParse := upqlParse env;
     tracingupqlParse := tracingupqlParse env;
     CHColumn := CHColumn env; CHAttrExpr := CHAttrExpr env;
     CHString := CHString env;
     CompileCond := fun cond minutes =>
       if (tracingupql.Op cond =? "exists")%string then None
       else CompileCond env cond minutes;
     IsAggColumn := fun name => (tracingupql.AttrKey name =? agg)%string;
     GaugeInstrument := GaugeInstrument env;
     AdditiveInstrument := AdditiveInstrument env;
     CounterInstrument := CounterInstrument env;
     HistogramInstrument := HistogramInstrument env;
     CHSchemaCluster := CHSchemaCluster env; Exec := Exec env |}.

Definition cond (left op right sepOp : string) (negate : bool)
  : tracingupql.Cond :=
  {| tracingupql.Sep :=
       {| tracingupql.SepOp := sepOp; tracingupql.Negate := negate |};
     tracingupql.Left :=
       {| tracingupql.FuncName := ""; tracingupql.AttrKey := left |};
     tracingupql.Op := op;
     tracingupql.Right := right |}.

Definition selector (e : ast.Expr) : ast.QueryPart :=
  {| ast.AST :=
       ast.SelectorNode
         {| ast.SelExpr := {| ast.Expr_ := e; ast.Alias := "" |} |} |}.

Definition metric (name instrument : string) : bunconf.SpanMetric :=
  {| bunconf.Name := name; bunconf.Description := ""; bunconf.Unit := "";
     bunconf.Instrument := instrument; bunconf.Value := "duration";
     bunconf.Attrs := []; bunconf.Annotations := [];
     bunconf.Where := "" |}.

End Examples.

(** ** Package [metrics]: the callers of [createMatView] *)

Module spanmetrics.

(** Modelled from the spec: [Metric] (the record given to [UpsertMetric])
    and the project list of the configuration are declared outside src/;
    these are the fields the source writes and reads. *)
Record Metric : Type :=
  { ProjectID : Z;
    Name : string;
    Description : string;
    Unit : string;
    Instrument : string }.

Record Project : Type := { ID : Z }.

(** [app.Config()], as far as the source reads it. *)
Record Config : Type :=
  { MetricsFromSpans : list bunconf.SpanMetric;
    Projects : list Project }.

(** The calls made to the store, in order. *)
Inductive Call : Type :=
| UpsertCall (m : Metric)
| StmtCall (stmt : ch.Stmt).

(** The errors of the three callers: the two [fmt.Errorf] messages without
    a cause, and the three wrappers with [%w]. *)
Inductive initError : Type :=
| ErrMetricNameEmpty
| ErrMetricInstrumentEmpty
| ErrCreateSpanMetricFailed (name : string) (cause : initError)
| ErrCreateSpanMetricMetaFailed (cause : error)
| ErrCreateMatViewFailed (cause : error).

Section Store.

(** [UpsertMetric], a collaborator: what the store answers ([None] is a nil
    error). *)
Variable UpsertMetric : Metric -> option error.
Variable env : Env.
Variable conf : Config.

(** The loop of [createSpanMetricMeta] over the projects. *)
Fixpoint upsertProjects (projects : list Project)
    (metric : bunconf.SpanMetric) : list Call * option error :=
  match projects with
  | [] => ([], None)
  | project :: rest =>
      let m :=
        {| ProjectID := ID project;
           Name := bunconf.Name metric;
           Description := bunconf.Description metric;
           Unit := bunconf.Unit metric;
           Instrument := bunconf.Instrument metric |} in
      match UpsertMetric m with
      | Some err => ([UpsertCall m], Some err)
      | None =>
          let (calls, res) := upsertProjects rest metric in
          (UpsertCall m :: calls, res)
      end
  end.

Definition createSpanMetricMeta (metric : bunconf.SpanMetric)
  : list Call * option error :=
  upsertProjects (Projects conf) metric.

Definition createSpanMetric (metric : bunconf.SpanMetric)
  : list Call * option initError :=
  if (bunconf.Instrument metric =? "")%string
  then ([], Some ErrMetricInstrumentEmpty)
  else
    match createSpanMetricMeta metric with
    | (calls, Some err) => (calls, Some (ErrCreateSpanMetricMetaFailed err))
    | (calls, None) =>
        match metrics.createMatView env metric with
        | (stmts, Some err) =>
            ((calls ++ map StmtCall stmts)%list,
             Some (ErrCreateMatViewFailed err))
        | (stmts, None) => ((calls ++ map StmtCall stmts)%list, None)
        end
    end.

(** The loop of [initSpanMetrics] over [conf.MetricsFromSpans]. *)
Fixpoint initMetrics (ms : list bunconf.SpanMetric)
  : list Call * option initError :=
  match ms with
  | [] => ([], None)
  | metric :: rest =>
      if (bunconf.Name metric =? "")%string
      then ([], Some ErrMetricNameEmpty)
      else
        match createSpanMetric metric with
        | (calls, Some err) =>
            (calls,
             Some (ErrCreateSpanMetricFailed (bunconf.Name metric) err))
        | (calls, None) =>
            let (calls', res) := initMetrics rest in
            ((calls ++ calls')%list, res)
        end
  end.

Definition initSpanMetrics : list Call * option initError :=
  initMetrics (MetricsFromSpans conf).

End Store.

End spanmetrics.

(** ** Notions used by the statements on the lexer *)

(** The lexer and its byte cursor read the same source, and the cursor is
    within it: what [newLexer] sets up and every operation keeps. *)
Definition wellFormed (l : ast.lexer) : Prop :=
  bunlex.s (ast.lex l) = ast.s l
  /\ 0 <= bunlex.i (ast.lex l) <= len (ast.s l).

(** [tok] was lexed from the bytes of [src] that begin at offset [first],
    the cursor being at [after] once it is read.  The text of a number, an
    identifier or a byte token is the bytes from [first] on; a quoted value
    begins with its opening quote. *)
Definition lexedAt (src : string) (first : Z) (tok : ast.Token) (after : Z)
  : Prop :=
  match ast.ID tok with
  | ast.EOF_TOKEN => False
  | ast.NUMBER_TOKEN =>
      ast.Start tok = first + len (ast.Text tok)
      /\ ast.Text tok = slice src first (first + len (ast.Text tok))
      /\ after = first + len (ast.Text tok)
      /\ 0 < len (ast.Text tok)
      /\ bunlex.IsDigit (byteAt src first) = true
  | ast.IDENT_TOKEN =>
      ast.Start tok = first
      /\ ast.Text tok = slice src first (first + len (ast.Text tok))
      /\ after = first + len (ast.Text tok)
      /\ 0 < len (ast.Text tok)
  | ast.BYTE_TOKEN =>
      ast.Start tok = first
      /\ ast.Text tok = slice src first (first + len (ast.Text tok))
      /\ after = first + len (ast.Text tok)
      /\ len (ast.Text tok) = 1
  | ast.VALUE_TOKEN =>
      ast.Start tok = first
      /\ (byteAt src first = "'"%char \/ byteAt src first = "034"%char)
      /\ first < after
  end.

(** The read that took the lexer to [l1], just past the byte at [first],
    ended in [l'] with [tok] lexed from [first] and appended to the cache. *)
Definition appended (l1 : ast.lexer) (first : Z) (tok : ast.Token)
    (l' : ast.lexer) : Prop :=
  lexedAt (ast.s l1) first tok (bunlex.i (ast.lex l'))
  /\ ast.tokens l' = (ast.tokens l1 ++ [tok])%list
  /\ wellFormed l'
  /\ ast.s l' = ast.s l1.

(** [tok] was lexed from some offset of [src]. *)
Definition producedFrom (src : string) (tok : ast.Token) : Prop :=
  exists first after,
    0 <= first < len src /\ lexedAt src first tok after.

(** Sequences of operations on a token stream. *)
Module TokenStream.

Inductive op : Type :=
| OpPeekToken
| OpNextToken
| OpPos
| OpResetPos (p : Z).

(** A stream in use: the lexer, the positions that [Pos] has returned so
    far, and the number of [NextToken] calls that returned the
    end-of-input token. *)
Record session : Type :=
  { stream : ast.lexer; observed : list Z; eofs : Z }.

Definition start (src : string) (ignore : bool) : session :=
  {| stream :=
       if ignore then ast.IgnoreSpaces (ast.newLexer src)
       else ast.newLexer src;
     observed := [];
     eofs := 0 |}.

Definition isEOF (r : result ast.Token) : bool :=
  match r with
  | Ok tok =>
      match ast.ID tok with
      | ast.EOF_TOKEN => true
      | _ => false
      end
  | Err _ => false
  end.

(** One operation; [None] when [ResetPos] is given a position that [Pos]
    has not returned before. *)
Definition step (o : op) (ss : session) : option session :=
  match o with
  | OpPeekToken =>
      Some {| stream := snd (ast.PeekToken (stream ss));
              observed := observed ss; eofs := eofs ss |}
  | OpNextToken =>
      let (r, l') := ast.NextToken (stream ss) in
      Some {| stream := l'; observed := observed ss;
              eofs := if isEOF r then eofs ss + 1 else eofs ss |}
  | OpPos =>
      Some {| stream := stream ss;
              observed := ast.Pos (stream ss) :: observed ss;
              eofs := eofs ss |}
  | OpResetPos p =>
      if existsb (Z.eqb p) (observed ss)
      then Some {| stream := ast.ResetPos p (stream ss);
                   observed := observed ss; eofs := eofs ss |}
      else None
  end.

Fixpoint run (ops : list op) (ss : session) : option session :=
  match ops with
  | [] => Some ss
  | o :: rest =>
      match step o ss with
      | None => None
      | Some ss' => run rest ss'
      end
  end.

(** [len(tokens)]. *)
Definition cached (ss : session) : Z :=
  Z.of_nat (List.length (ast.tokens (stream ss))).

(** A position within the cache extended by the end-of-input reads. *)
Definition inBounds (ss : session) (p : Z) : Prop :=
  0 <= p <= cached ss + eofs ss.

Definition invariant (ss : session) : Prop :=
  inBounds ss (ast.pos (stream ss))
  /\ Forall (inBounds ss) (observed ss)
  /\ 0 <= eofs ss.

End TokenStream.

(** ** Notions used by the further properties *)

(** The Go type name of the first node, from left to right, that the
    expression compiler does not support. *)
Fixpoint firstUnsupported (e : ast.Expr) : option string :=
  match e with
  | ast.Name _ _ => None
  | ast.Number _ => None
  | ast.ParenExpr inner => firstUnsupported inner
  | ast.BinaryExpr lhs _ rhs =>
      match firstUnsupported lhs with
      | Some goType => Some goType
      | None => firstUnsupported rhs
      end
  | ast.OtherExpr goType => Some goType
  end.

(** The text of an expression, by recursion on it. *)
Fixpoint exprText (env : Env) (e : ast.Expr) : string :=
  match e with
  | ast.Name func name =>
      CHColumn env
        {| tracingupql.FuncName := func; tracingupql.AttrKey := name |}
        metrics.spanMetricMinutes
  | ast.Number text => text
  | ast.ParenExpr inner => ("(" ++ exprText env inner ++ ")")%string
  | ast.BinaryExpr lhs op rhs =>
      (exprText env lhs ++ " " ++ op ++ " " ++ exprText env rhs)%string
  | ast.OtherExpr _ => ""%string
  end.

(** One entry of the annotations map: the quoted key, then the string of
    any value of the attribute. *)
Definition annotationText (env : Env) (attr : string) : string :=
  (CHString env attr ++ ", toString(any(" ++ CHAttrExpr env attr ++ "))")%string.

(** A condition survives the nil test of the filter loop. *)
Definition survives (env : Env) (cond : tracingupql.Cond) : bool :=
  match CompileCond env cond metrics.spanMetricMinutes with
  | Some _ => true
  | None => false
  end.

(** The four columns every view starts with. *)
Definition baseColumns (metric : bunconf.SpanMetric)
  : list ch.QueryWithArgs :=
  [column "s.project_id" [];
   column "? AS metric" [ch.ArgString (bunconf.Name metric)];
   column "toStartOfMinute(s.time) AS time" [];
   column "? AS instrument" [ch.ArgString (bunconf.Instrument metric)]].

(** The three columns of a metric with attributes, none without. *)
Definition attrColumns (env : Env) (metric : bunconf.SpanMetric)
  : list ch.QueryWithArgs :=
  match bunconf.Attrs metric with
  | [] => []
  | attrs =>
      let attrsExpr := String.concat ", " (map (CHAttrExpr env) attrs) in
      [column "xxHash64(arrayStringConcat([?], '-')) AS attrs_hash"
         [ch.ArgSafe attrsExpr];
       column "[?] AS attr_keys" [ch.ArgIn attrs];
       column "[?] AS attr_values" [ch.ArgSafe attrsExpr]]
  end.

(** The column of a metric with annotations, none without. *)
Definition annotationColumns (env : Env) (metric : bunconf.SpanMetric)
  : list ch.QueryWithArgs :=
  match bunconf.Annotations metric with
  | [] => []
  | attrs =>
      [column "toJSONString(map(?)) AS annotations"
         [ch.ArgSafe (String.concat ", " (map (annotationText env) attrs))]]
  end.

(** The group-by entries of a view. *)
Definition groupEntries (env : Env) (metric : bunconf.SpanMetric)
  : list string :=
  "s.project_id, toStartOfMinute(s.time)"%string
  :: match bunconf.Attrs metric with
     | [] => []
     | attrs => [String.concat ", " (map (CHAttrExpr env) attrs)]
     end.

(** The record that [createSpanMetricMeta] upserts for a project. *)
Definition metricFor (metric : bunconf.SpanMetric)
    (project : spanmetrics.Project) : spanmetrics.Metric :=
  {| spanmetrics.ProjectID := spanmetrics.ID project;
     spanmetrics.Name := bunconf.Name metric;
     spanmetrics.Description := bunconf.Description metric;
     spanmetrics.Unit := bunconf.Unit metric;
     spanmetrics.Instrument := bunconf.Instrument metric |}.

(** What [initSpanMetrics] does for one metric: its calls and its error. *)
Definition initOne (UpsertMetric : spanmetrics.Metric -> option error)
    (env : Env) (conf : spanmetrics.Config) (metric : bunconf.SpanMetric)
  : list spanmetrics.Call * option spanmetrics.initError :=
  if (bunconf.Name metric =? "")%string
  then ([], Some spanmetrics.ErrMetricNameEmpty)
  else
    match spanmetrics.createSpanMetric UpsertMetric env conf metric with
    | (calls, Some err) =>
        (calls,
         Some (spanmetrics.ErrCreateSpanMetricFailed
                 (bunconf.Name metric) err))
    | (calls, None) => (calls, None)
    end.

(** The upsert of the metadata of [metric] for [project] succeeds. *)
Definition upsertOk (UpsertMetric : spanmetrics.Metric -> option error)
    (metric : bunconf.SpanMetric) (project : spanmetrics.Project) : Prop :=
  UpsertMetric (metricFor metric project) = None.

Definition upsertCall (metric : bunconf.SpanMetric)
    (project : spanmetrics.Project) : spanmetrics.Call :=
  spanmetrics.UpsertCall (metricFor metric project).

(** [initSpanMetrics] gets through [metric] without an error. *)
Definition initOk (UpsertMetric : spanmetrics.Metric -> option error)
    (env : Env) (conf : spanmetrics.Config) (metric : bunconf.SpanMetric)
  : Prop :=
  snd (initOne UpsertMetric env conf metric) = None.

(** The byte cursor is at the end of the input and the position of the
    stream is past the cache. *)
Definition atEnd (l : ast.lexer) : Prop :=
  bunlex.Valid (ast.lex l) = false
  /\ Z.of_nat (List.length (ast.tokens l)) <= ast.pos l.

(** [n] calls of [NextToken], with the tokens they return. *)
Fixpoint nextTokens (n : nat) (l : ast.lexer)
  : list (result ast.Token) * ast.lexer :=
  match n with
  | O => ([], l)
  | S n' =>
      let (r, l1) := ast.NextToken l in
      let (rs, l2) := nextTokens n' l1 in
      (r :: rs, l2)
  end.

(** The first byte of an identifier token: a letter, ['_'] or ['$']. *)
Definition identStart (c : ascii) : bool :=
  (bunlex.IsAlpha c || (c =? "_")%char || (c =? "$")%char)%bool.

(** Some surviving condition is on an aggregate column. *)
Definition aggSurvivor (env : Env) (conds : list tracingupql.Cond) : bool :=
  existsb (fun p => IsAggColumn env (tracingupql.Left (fst p)))
    (survivors env conds).

(** The parser found exactly one part for the filter, a [Where]. *)
Definition parsedWhere (env : Env) (w : string)
  : option tracingupql.Where :=
  match tracingupqlParse env (whereText w) with
  | [part] =>
      match tracingupql.AST part with
      | tracingupql.WhereNode wh => Some wh
      | tracingupql.OtherNode _ => None
      end
  | _ => None
  end.

(** Two queries that differ at most in their columns and filters. *)
Definition sameFrame (q q' : ch.CreateViewQuery) : Prop :=
  ch.IsMaterialized q' = ch.IsMaterialized q
  /\ ch.ViewName q' = ch.ViewName q
  /\ ch.Cluster q' = ch.Cluster q
  /\ ch.To q' = ch.To q
  /\ ch.Tables q' = ch.Tables q
  /\ ch.Group q' = ch.Group q.

(** The byte [c] occurs in [str]. *)
Fixpoint hasByte (c : ascii) (str : string) : bool :=
  match str with
  | EmptyString => false
  | String d rest => ((d =? c)%char || hasByte c rest)%bool
  end.

(** A quote byte, which opens a quoted value. *)
Definition isQuote (c : ascii) : bool :=
  ((c =? "'")%char || (c =? "034")%char)%bool.

(** * Properties *)

(** ** Strings *)

Lemma append_nil_r (a : string) : (a ++ "")%string = a.
Proof. induction a as [|c a IH]; simpl; [reflexivity | now rewrite IH]. Qed.

Lemma append_assoc (a b c : string) :
  ((a ++ b) ++ c)%string = (a ++ (b ++ c))%string.
Proof. induction a as [|x a IH]; simpl; [reflexivity | now rewrite IH]. Qed.

Lemma length_append (a b : string) :
  String.length (a ++ b) = (String.length a + String.length b)%nat.
Proof. induction a as [|x a IH]; simpl; [reflexivity | now rewrite IH]. Qed.

Lemma append_inv_head (a b c : string) :
  (a ++ b)%string = (a ++ c)%string -> b = c.
Proof.
  induction a as [|x a IH]; simpl; intros H; [exact H|].
  injection H as H. now apply IH.
Qed.

Lemma len_nonneg (a : string) : 0 <= len a.
Proof. unfold len. lia. Qed.

Lemma len_append (a b : string) : len (a ++ b) = len a + len b.
Proof. unfold len. rewrite length_append. lia. Qed.

Lemma len_pos_iff (a : string) : (0 <? len a) = true <-> a <> "".
Proof.
  unfold len. destruct a as [|c a]; simpl.
  - split; [discriminate | congruence].
  - split; [discriminate | intros _; apply Z.ltb_lt; lia].
Qed.

Lemma prefix_append (p rest : string) : String.prefix p (p ++ rest) = true.
Proof.
  induction p as [|c p IH]; simpl.
  - now destruct rest.
  - destruct (ascii_dec c c) as [_|N]; [exact IH | congruence].
Qed.

Lemma prefix_split (p str : string) :
  String.prefix p str = true -> exists rest, str = (p ++ rest)%string.
Proof.
  revert str. induction p as [|c p IH]; intros str H.
  - exists str. reflexivity.
  - destruct str as [|d str]; simpl in H; [discriminate|].
    destruct (ascii_dec c d) as [->|N]; [|discriminate].
    destruct (IH _ H) as [rest ->]. exists rest. reflexivity.
Qed.

Lemma HasPrefix_iff (str p : string) :
  strings.HasPrefix str p = true <-> exists rest, str = (p ++ rest)%string.
Proof.
  unfold strings.HasPrefix. split.
  - apply prefix_split.
  - intros [rest ->]. apply prefix_append.
Qed.

Lemma ReplaceAll_dot (str : string) :
  strings.ReplaceAll str "." "_" = mapBytes dotToUnderscore str.
Proof.
  unfold strings.ReplaceAll.
  induction str as [|c str IH]; [reflexivity|].
  cbn [strings.replaceFrom mapBytes]. unfold dotToUnderscore at 1.
  cbn [String.prefix String.length Nat.sub].
  destruct (ascii_dec "." c) as [<-|N].
  - cbn. rewrite IH. now destruct str.
  - destruct (Ascii.eqb_spec c "."); [congruence|]. now rewrite IH.
Qed.

(** ** The expression compiler *)

(** The compiler only ever appends to the buffer it is given. *)
Lemma appendSpanMetricExpr_buffer (env : Env) (e : ast.Expr) (b : string) :
  metrics.appendSpanMetricExpr env b e =
  match metrics.appendSpanMetricExpr env "" e with
  | Ok text => Ok (b ++ text)%string
  | Err err => Err err
  end.
Proof.
  revert b.
  induction e as [f n|t|e IH|l IHl op r IHr|ty]; intros b; cbn.
  - reflexivity.
  - reflexivity.
  - rewrite IH. rewrite (IH "("%string).
    destruct (metrics.appendSpanMetricExpr env "" e) as [t|err];
      [|reflexivity].
    f_equal. cbn. now rewrite !append_assoc.
  - rewrite IHl.
    destruct (metrics.appendSpanMetricExpr env "" l) as [tl|err];
      [|reflexivity].
    cbn. rewrite IHr. rewrite (IHr (((tl ++ " ") ++ op) ++ " ")%string).
    destruct (metrics.appendSpanMetricExpr env "" r) as [tr|err];
      [|reflexivity].
    f_equal. now rewrite !append_assoc.
  - reflexivity.
Qed.

(** The only error of the expression compiler is the unsupported node. *)
Lemma appendSpanMetricExpr_error (env : Env) (e : ast.Expr) (b : string)
    (err : error) :
  metrics.appendSpanMetricExpr env b e = Err err ->
  exists goType, err = ErrUnsupportedSpanMetricExpr goType.
Proof.
  revert b. induction e as [f n|t|e IH|l IHl op r IHr|ty]; intros b; cbn.
  - discriminate.
  - discriminate.
  - destruct (metrics.appendSpanMetricExpr env (b ++ "(") e) eqn:E.
    + discriminate.
    + intros [= <-]. eapply IH, E.
  - destruct (metrics.appendSpanMetricExpr env b l) as [bl|el] eqn:El.
    + destruct (metrics.appendSpanMetricExpr env _ r) eqn:Er.
      * discriminate.
      * intros [= <-]. eapply IHr, Er.
    + intros [= <-]. eapply IHl, El.
  - intros [= <-]. now exists ty.
Qed.

(** C7.  A [Number] node is emitted verbatim: whatever the buffer, the text
    of the node is appended to it unchanged, so compiling it on its own
    yields exactly its text; [Number{text: "3.14"}] yields ["3.14"]. *)
Theorem C7_number_verbatim :
  (forall (env : Env) (b text : string),
      metrics.appendSpanMetricExpr env b (ast.Number text)
      = Ok (b ++ text)%string)
  /\ (forall (env : Env) (text : string),
      metrics.appendSpanMetricExpr env "" (ast.Number text) = Ok text)
  /\ (forall env : Env,
      metrics.appendSpanMetricExpr env "" (ast.Number "3.14") = Ok "3.14"%string).
Proof.
  repeat split; intros; reflexivity.
Qed.

(** C8.  A [ParenExpr] compiles to ["("], the compiled inner expression,
    then [")"]; a [BinaryExpr] compiles to the compiled left operand, a
    space, the operator text as it is, a space, and the compiled right
    operand; either fails exactly when an operand does, with that operand's
    error.  Under identity column resolution [ParenExpr{BinaryExpr{Name a,
    "+", Name b}}] compiles to ["(a + b)"]. *)
Theorem C8_paren_and_binary :
  (forall (env : Env) (b : string) (inner : ast.Expr),
      metrics.appendSpanMetricExpr env b (ast.ParenExpr inner) =
      match metrics.appendSpanMetricExpr env "" inner with
      | Ok text => Ok (b ++ "(" ++ text ++ ")")%string
      | Err err => Err err
      end)
  /\ (forall (env : Env) (b : string) (lhs rhs : ast.Expr) (op : string),
      metrics.appendSpanMetricExpr env b (ast.BinaryExpr lhs op rhs) =
      match metrics.appendSpanMetricExpr env "" lhs with
      | Err err => Err err
      | Ok ltext =>
          match metrics.appendSpanMetricExpr env "" rhs with
          | Err err => Err err
          | Ok rtext => Ok (b ++ ltext ++ " " ++ op ++ " " ++ rtext)%string
          end
      end)
  /\ metrics.appendSpanMetricExpr Examples.identityEnv ""
       (ast.ParenExpr
          (ast.BinaryExpr (ast.Name "" "a") "+" (ast.Name "" "b")))
     = Ok "(a + b)"%string.
Proof.
  split; [|split].
  - intros env b inner. cbn.
    rewrite appendSpanMetricExpr_buffer.
    destruct (metrics.appendSpanMetricExpr env "" inner); [|reflexivity].
    now rewrite !append_assoc.
  - intros env b lhs rhs op. cbn.
    rewrite appendSpanMetricExpr_buffer.
    destruct (metrics.appendSpanMetricExpr env "" lhs); [|reflexivity].
    rewrite appendSpanMetricExpr_buffer.
    destruct (metrics.appendSpanMetricExpr env "" rhs); [|reflexivity].
    now rewrite !append_assoc.
  - reflexivity.
Qed.

(** ** The metric value *)

(** C6.  Compiling a metric value fails with a malformed-value error when
    the parser yields no part or more than one, and when the single part is
    not a selector; the inner expression is compiled only when exactly one
    selector was parsed, and then the result is that of the expression
    compiler on the selector's expression. *)
Theorem C6_malformed_metric_value (env : Env) (value : string) :
  ((List.length (upqlParse env value) <> 1%nat
    \/ (exists part goType,
          upqlParse env value = [part]
          /\ ast.AST part = ast.OtherNode goType)) ->
   exists err,
     metrics.compileSpanMetricValue env value = Err err
     /\ MalformedMetricValue err)
  /\ (forall part sel,
        upqlParse env value = [part] ->
        ast.AST part = ast.SelectorNode sel ->
        metrics.compileSpanMetricValue env value
        = metrics.appendSpanMetricExpr env "" (ast.Expr_ (ast.SelExpr sel)))
  /\ ((forall err,
         metrics.compileSpanMetricValue env value = Err err ->
         ~ MalformedMetricValue err) ->
      exists part sel,
        upqlParse env value = [part]
        /\ ast.AST part = ast.SelectorNode sel).
Proof.
  unfold metrics.compileSpanMetricValue.
  split; [|split].
  - intros [Hlen | (part & goType & Hp & Ha)].
    + destruct (upqlParse env value) as [|p [|p' ps]].
      * eexists; split; [reflexivity | exact I].
      * exfalso. apply Hlen. reflexivity.
      * eexists; split; [reflexivity | exact I].
    + rewrite Hp, Ha. eexists; split; [reflexivity | exact I].
  - intros part sel Hp Ha. rewrite Hp, Ha. reflexivity.
  - intros Hok.
    destruct (upqlParse env value) as [|p [|p' ps]].
    + exfalso. exact (Hok _ eq_refl I).
    + destruct (ast.AST p) as [sel|goType] eqn:Ha.
      * exists p, sel. split; [reflexivity | exact Ha].
      * exfalso. exact (Hok _ eq_refl I).
    + exfalso. exact (Hok _ eq_refl I).
Qed.

Lemma C6_malformed_metric_value_witness :
  (exists err,
      metrics.compileSpanMetricValue Examples.identityEnv "p50(" = Err err
      /\ MalformedMetricValue err)
  /\ metrics.compileSpanMetricValue
       (Examples.withUpqlParse [Examples.selector (ast.Number "1")]
          Examples.identityEnv) "1"
     = Ok "1"%string.
Proof.
  split.
  - apply (proj1 (C6_malformed_metric_value Examples.identityEnv "p50(")).
    left. simpl. lia.
  - apply (proj1 (proj2 (C6_malformed_metric_value
             (Examples.withUpqlParse [Examples.selector (ast.Number "1")]
                Examples.identityEnv) "1"))
             (Examples.selector (ast.Number "1"))
             {| ast.SelExpr :=
                  {| ast.Expr_ := ast.Number "1"; ast.Alias := "" |} |});
      reflexivity.
Defined.

(** ** The filter *)

Lemma append_same_length (a b c d : string) :
  (a ++ b)%string = (c ++ d)%string ->
  String.length a = String.length c -> a = c.
Proof.
  revert c. induction a as [|x a IH]; intros [|y c] H L;
    simpl in *; try discriminate; [reflexivity|].
  injection H as -> H. injection L as L. f_equal. now apply IH.
Qed.

(** [compileSpanMetricWhere] with the normalized text named. *)
Lemma compileSpanMetricWhere_unfold (env : Env) (w : string) :
  metrics.compileSpanMetricWhere env w =
  match tracingupqlParse env (whereText w) with
  | [part] =>
      match tracingupql.AST part with
      | tracingupql.WhereNode ast =>
          metrics.whereConds env (whereText w) "" (tracingupql.Conds ast)
      | tracingupql.OtherNode _ =>
          Err (ErrCantParseMetricWhere (whereText w))
      end
  | _ => Err (ErrCantParseMetricWhere (whereText w))
  end.
Proof.
  unfold metrics.compileSpanMetricWhere, whereText.
  destruct (strings.HasPrefix w "where "); cbn [negb];
    destruct (tracingupqlParse env _) as [|p [|p' ps]]; try reflexivity;
    destruct (tracingupql.AST p); reflexivity.
Qed.

(** C9.  The prefix test is byte-wise and exact: the text handed to the
    parser (and quoted by the errors) is the filter itself when it begins
    with the six bytes ["where "], and ["where "] followed by the filter
    otherwise; any other six leading bytes, such as ["WHERE "], are prefixed
    again. *)
Theorem C9_where_prefix_normalization :
  (forall (env : Env) (w : string),
      metrics.compileSpanMetricWhere env w =
      match tracingupqlParse env (whereText w) with
      | [part] =>
          match tracingupql.AST part with
          | tracingupql.WhereNode ast =>
              metrics.whereConds env (whereText w) ""
                (tracingupql.Conds ast)
          | tracingupql.OtherNode _ =>
              Err (ErrCantParseMetricWhere (whereText w))
          end
      | _ => Err (ErrCantParseMetricWhere (whereText w))
      end)
  /\ (forall rest : string,
      whereText ("where " ++ rest) = ("where " ++ rest)%string)
  /\ (forall w : string,
      (forall rest : string, w <> ("where " ++ rest)%string) ->
      whereText w = ("where " ++ w)%string)
  /\ (forall p rest : string,
      String.length p = 6%nat -> p <> "where "%string ->
      whereText (p ++ rest) = ("where " ++ p ++ rest)%string)
  /\ (forall rest : string,
      whereText ("WHERE " ++ rest) = ("where WHERE " ++ rest)%string).
Proof.
  assert (Hno : forall w : string,
             (forall rest : string, w <> ("where " ++ rest)%string) ->
             whereText w = ("where " ++ w)%string).
  { intros w H. unfold whereText.
    destruct (strings.HasPrefix w "where ") eqn:E; [|reflexivity].
    apply HasPrefix_iff in E. destruct E as [rest ->].
    exfalso. exact (H rest eq_refl). }
  split; [|split; [|split; [|split]]].
  - exact compileSpanMetricWhere_unfold.
  - intros rest. unfold whereText.
    now rewrite (proj2 (HasPrefix_iff ("where " ++ rest) "where "))
      by (now exists rest).
  - exact Hno.
  - intros p rest L N. apply Hno. intros r H. apply N.
    apply (append_same_length _ _ _ _ H). exact L.
  - intros rest. reflexivity.
Qed.

Lemma C9_where_prefix_normalization_witness :
  whereText "status = 'ERROR'" = "where status = 'ERROR'"%string
  /\ whereText ("Where " ++ "x = 1") = "where Where x = 1"%string.
Proof.
  split.
  - apply (proj1 (proj2 (proj2 C9_where_prefix_normalization))).
    intros rest H. discriminate H.
  - apply (proj1 (proj2 (proj2 (proj2 C9_where_prefix_normalization)))
             "Where " "x = 1").
    + reflexivity.
    + discriminate.
Defined.

(** *** The fold over the conditions *)

Lemma whereConds_skip (env : Env) (w b : string) (cond : tracingupql.Cond)
    (rest : list tracingupql.Cond) :
  CompileCond env cond metrics.spanMetricMinutes = None ->
  metrics.whereConds env w b (cond :: rest) = metrics.whereConds env w b rest.
Proof. intros H. cbn. now rewrite H. Qed.

Lemma whereConds_first (env : Env) (w : string) (cond : tracingupql.Cond)
    (bb : string) (rest : list tracingupql.Cond) :
  CompileCond env cond metrics.spanMetricMinutes = Some bb ->
  IsAggColumn env (tracingupql.Left cond) = false ->
  metrics.whereConds env w "" (cond :: rest)
  = metrics.whereConds env w (notText cond ++ bb) rest.
Proof.
  intros Hc Ha. cbn. rewrite Hc, Ha. unfold notText.
  now destruct (tracingupql.Negate (tracingupql.Sep cond)).
Qed.

Lemma whereConds_later (env : Env) (w b : string) (cond : tracingupql.Cond)
    (bb : string) (rest : list tracingupql.Cond) :
  b <> ""%string ->
  CompileCond env cond metrics.spanMetricMinutes = Some bb ->
  IsAggColumn env (tracingupql.Left cond) = false ->
  metrics.whereConds env w b (cond :: rest)
  = metrics.whereConds env w (b ++ laterText (cond, bb)) rest.
Proof.
  intros Hb Hc Ha. cbn [metrics.whereConds]. rewrite Hc, Ha.
  rewrite (proj2 (len_pos_iff b) Hb). unfold laterText, notText. cbn [fst snd].
  destruct (tracingupql.Negate (tracingupql.Sep cond));
    f_equal; now rewrite ?append_assoc.
Qed.

Lemma append_not_empty (a b : string) : a <> ""%string -> (a ++ b)%string <> ""%string.
Proof. destruct a; [congruence | discriminate]. Qed.

Lemma append_not_empty_r (a b : string) :
  b <> ""%string -> (a ++ b)%string <> ""%string.
Proof. destruct a; [now cbn | discriminate]. Qed.

Lemma whereConds_join (env : Env) (w : string)
    (conds : list tracingupql.Cond) (b : string) :
  b <> ""%string ->
  Forall (fun p => IsAggColumn env (tracingupql.Left (fst p)) = false)
    (survivors env conds) ->
  metrics.whereConds env w b conds
  = Ok (b ++ joinLater (survivors env conds))%string.
Proof.
  revert b. induction conds as [|cond rest IH]; intros b Hb Hall.
  - cbn. now rewrite append_nil_r.
  - cbn [survivors] in *.
    destruct (CompileCond env cond metrics.spanMetricMinutes) as [bb|] eqn:Hc.
    + inversion Hall as [|p ps Ha Hrest]; subst. cbn [fst] in Ha.
      rewrite (whereConds_later env w b cond bb rest Hb Hc Ha).
      rewrite IH; [|now apply append_not_empty|exact Hrest].
      cbn [joinLater]. now rewrite append_assoc.
    + rewrite (whereConds_skip env w b cond rest Hc). now apply IH.
Qed.

(** C1 (as amended).  For the list of the example the fragment is
    ["x = 1"], the operator text of the second condition, a space,
    ["NOT y = 2"]: it is ["x = 1 OR NOT y = 2"] when that text is [" OR"]
    with its own leading space, the loop putting no space before it.  Of the
    first surviving condition only the operator text is ignored.  A
    condition with a nil fragment leaves the buffer as it is; the first
    surviving condition puts into the empty buffer ["NOT "] when its
    separator marks negation, then its fragment; a surviving condition met
    with a non-empty buffer extends it by its operator text, one space,
    ["NOT "] when its separator marks negation, then its fragment.  So a
    list whose surviving conditions are not on aggregate columns and have
    non-empty fragments compiles to the first one's fragment (after
    ["NOT "] if negated) followed by those extensions in order. *)
Theorem C1_where_fold :
  (forall op1 op2 : string,
      metrics.compileSpanMetricWhere
        (Examples.withConds
           [Examples.cond "x" "=" "1" op1 false;
            Examples.cond "y" "=" "2" op2 true] Examples.identityEnv)
        "x = 1 OR NOT y = 2"
      = Ok ("x = 1" ++ op2 ++ " NOT y = 2")%string)
  /\ metrics.compileSpanMetricWhere
       (Examples.withConds
          [Examples.cond "x" "=" "1" " AND" false;
           Examples.cond "y" "=" "2" " OR" true] Examples.identityEnv)
       "x = 1 OR NOT y = 2"
     = Ok "x = 1 OR NOT y = 2"%string
  /\ (forall (env : Env) (w b : string) (cond : tracingupql.Cond)
        (rest : list tracingupql.Cond),
      CompileCond env cond metrics.spanMetricMinutes = None ->
      metrics.whereConds env w b (cond :: rest)
      = metrics.whereConds env w b rest)
  /\ (forall (env : Env) (w : string) (cond : tracingupql.Cond)
        (bb : string) (rest : list tracingupql.Cond),
      CompileCond env cond metrics.spanMetricMinutes = Some bb ->
      IsAggColumn env (tracingupql.Left cond) = false ->
      metrics.whereConds env w "" (cond :: rest)
      = metrics.whereConds env w (notText cond ++ bb) rest)
  /\ (forall (env : Env) (w b : string) (cond : tracingupql.Cond)
        (bb : string) (rest : list tracingupql.Cond),
      b <> ""%string ->
      CompileCond env cond metrics.spanMetricMinutes = Some bb ->
      IsAggColumn env (tracingupql.Left cond) = false ->
      metrics.whereConds env w b (cond :: rest)
      = metrics.whereConds env w
          (b ++ tracingupql.SepOp (tracingupql.Sep cond) ++ " "
             ++ notText cond ++ bb) rest)
  /\ (forall (env : Env) (w : string) (conds : list tracingupql.Cond),
      Forall (fun p => IsAggColumn env (tracingupql.Left (fst p)) = false
                       /\ snd p <> ""%string) (survivors env conds) ->
      metrics.whereConds env w "" conds
      = Ok (foldText (survivors env conds))).
Proof.
  split; [|split; [|split; [|split; [|split]]]].
  - intros op1 op2. cbn. now rewrite !append_assoc.
  - reflexivity.
  - exact whereConds_skip.
  - exact whereConds_first.
  - exact whereConds_later.
  - intros env w conds. induction conds as [|cond rest IH]; intros Hall.
    + reflexivity.
    + cbn [survivors] in *.
      destruct (CompileCond env cond metrics.spanMetricMinutes)
        as [bb|] eqn:Hc.
      * inversion Hall as [|p ps [Ha Hbb] Hrest]; subst. cbn [fst snd] in *.
        rewrite (whereConds_first env w cond bb rest Hc Ha).
        rewrite whereConds_join.
        -- cbn [foldText fst snd]. now rewrite append_assoc.
        -- now apply append_not_empty_r.
        -- eapply Forall_impl; [|exact Hrest]. now intros p [H _].
      * rewrite (whereConds_skip env w "" cond rest Hc). now apply IH.
Qed.

Lemma C1_where_fold_witness :
  metrics.whereConds Examples.identityEnv "where a = 1 AND b = 2" ""
    [Examples.cond "a" "=" "1" " AND" true;
     Examples.cond "b" "=" "2" " AND" false]
  = Ok "NOT a = 1 AND b = 2"%string.
Proof.
  apply (proj2 (proj2 (proj2 (proj2 (proj2 C1_where_fold))))
           Examples.identityEnv "where a = 1 AND b = 2"
           [Examples.cond "a" "=" "1" " AND" true;
            Examples.cond "b" "=" "2" " AND" false]).
  simpl. repeat constructor; discriminate.
Defined.

(** C1 as stated fails twice.  With the operator text ["OR"] the list of
    the claim compiles to ["x = 1OR NOT y = 2"]: no space is put before the
    operator.  And the separator of the first surviving condition is not
    ignored: with its negation mark set the fragment starts with ["NOT "]. *)
Lemma C1_where_fold_counterexample :
  metrics.compileSpanMetricWhere
    (Examples.withConds
       [Examples.cond "x" "=" "1" "AND" false;
        Examples.cond "y" "=" "2" "OR" true] Examples.identityEnv)
    "x = 1 OR NOT y = 2"
  = Ok "x = 1OR NOT y = 2"%string
  /\ Ok "x = 1OR NOT y = 2"%string <> Ok "x = 1 OR NOT y = 2"%string
  /\ metrics.compileSpanMetricWhere
       (Examples.withConds
          [Examples.cond "x" "=" "1" " AND" true;
           Examples.cond "y" "=" "2" " OR" true] Examples.identityEnv)
       "x = 1 OR NOT y = 2"
     = Ok "NOT x = 1 OR NOT y = 2"%string
  /\ metrics.compileSpanMetricWhere
       (Examples.withConds
          [Examples.cond "x" "=" "1" " AND" true;
           Examples.cond "y" "=" "2" " OR" true] Examples.identityEnv)
       "x = 1 OR NOT y = 2"
     <> metrics.compileSpanMetricWhere
          (Examples.withConds
             [Examples.cond "x" "=" "1" " AND" false;
              Examples.cond "y" "=" "2" " OR" true] Examples.identityEnv)
          "x = 1 OR NOT y = 2".
Proof.
  repeat split; try reflexivity; discriminate.
Qed.

(** *** Aggregate columns *)

Lemma whereConds_agg (env : Env) (w : string)
    (before : list tracingupql.Cond) (cond : tracingupql.Cond) (bb : string)
    (after : list tracingupql.Cond) (b : string) :
  CompileCond env cond metrics.spanMetricMinutes = Some bb ->
  IsAggColumn env (tracingupql.Left cond) = true ->
  metrics.whereConds env w b (before ++ cond :: after)
  = Err (ErrCantFilterByAggColumns w).
Proof.
  intros Hc Ha. revert b.
  induction before as [|c0 before IH]; intros b; cbn.
  - now rewrite Hc, Ha.
  - destruct (CompileCond env c0 metrics.spanMetricMinutes); [|apply IH].
    destruct (IsAggColumn env (tracingupql.Left c0)); [reflexivity | apply IH].
Qed.

(** C2 (as amended).  If a condition whose compiled fragment is not nil has
    a left-hand side classified as an aggregate column, compiling the filter
    fails with the aggregate-in-filter error, wherever the condition stands
    in the list and whatever that fragment is: for the loop from any buffer,
    and for [compileSpanMetricWhere] when the parser yields the one [Where]
    holding the list. *)
Theorem C2_aggregate_rejected (env : Env) (w : string)
    (before : list tracingupql.Cond) (cond : tracingupql.Cond) (bb : string)
    (after : list tracingupql.Cond) :
  CompileCond env cond metrics.spanMetricMinutes = Some bb ->
  IsAggColumn env (tracingupql.Left cond) = true ->
  (forall b : string,
      metrics.whereConds env w b (before ++ cond :: after)
      = Err (ErrCantFilterByAggColumns w))
  /\ (forall part : tracingupql.QueryPart,
      tracingupqlParse env (whereText w) = [part] ->
      tracingupql.AST part
      = tracingupql.WhereNode
          {| tracingupql.Conds := before ++ cond :: after |} ->
      exists err,
        metrics.compileSpanMetricWhere env w = Err err
        /\ AggregateInFilter err
        /\ err = ErrCantFilterByAggColumns (whereText w)).
Proof.
  intros Hc Ha. split.
  - intros b. now apply whereConds_agg with (bb := bb).
  - intros part Hp Hast.
    exists (ErrCantFilterByAggColumns (whereText w)).
    split; [|split; [exact I | reflexivity]].
    rewrite compileSpanMetricWhere_unfold, Hp, Hast.
    cbn [tracingupql.Conds]. now apply whereConds_agg with (bb := bb).
Qed.

Lemma C2_aggregate_rejected_witness :
  metrics.whereConds (Examples.withAgg "count" Examples.identityEnv)
    "where a = 1 AND count > 5" ""
    ([Examples.cond "a" "=" "1" " AND" false]
     ++ Examples.cond "count" ">" "5" " AND" false :: [])
  = Err (ErrCantFilterByAggColumns "where a = 1 AND count > 5").
Proof.
  apply (proj1 (C2_aggregate_rejected
                  (Examples.withAgg "count" Examples.identityEnv)
                  "where a = 1 AND count > 5"
                  [Examples.cond "a" "=" "1" " AND" false]
                  (Examples.cond "count" ">" "5" " AND" false)
                  "count > 5" [] eq_refl eq_refl)).
Defined.

(** C2 as stated fails: a condition on an aggregate column whose compiled
    fragment is nil is skipped before the classifier is consulted, and the
    filter compiles. *)
Lemma C2_aggregate_rejected_counterexample :
  let env :=
    Examples.withConds
      [Examples.cond "count" "exists" "" " AND" false;
       Examples.cond "a" "=" "1" " AND" false]
      (Examples.withAgg "count" Examples.identityEnv) in
  IsAggColumn env
    (tracingupql.Left (Examples.cond "count" "exists" "" " AND" false))
  = true
  /\ CompileCond env (Examples.cond "count" "exists" "" " AND" false)
       metrics.spanMetricMinutes = None
  /\ metrics.compileSpanMetricWhere env "count exists AND a = 1"
     = Ok "a = 1"%string.
Proof.
  repeat split.
Qed.

(** ** The materialized view *)

Lemma withAttrs_ViewName (env : Env) (metric : bunconf.SpanMetric)
    (q : ch.CreateViewQuery) :
  ch.ViewName (metrics.withAttrs env metric q) = ch.ViewName q.
Proof. unfold metrics.withAttrs. now destruct (_ <? _)%nat. Qed.

Lemma withAnnotations_ViewName (env : Env) (metric : bunconf.SpanMetric)
    (q : ch.CreateViewQuery) :
  ch.ViewName (metrics.withAnnotations env metric q) = ch.ViewName q.
Proof. unfold metrics.withAnnotations. now destruct (_ <? _)%nat. Qed.

Lemma withWhere_ViewName (env : Env) (metric : bunconf.SpanMetric)
    (q q' : ch.CreateViewQuery) :
  metrics.withWhere env metric q = Ok q' -> ch.ViewName q' = ch.ViewName q.
Proof.
  unfold metrics.withWhere.
  destruct (negb _); [|now intros [= <-]].
  destruct (metrics.compileSpanMetricWhere env _); [|discriminate].
  destruct (negb _); now intros [= <-].
Qed.

Lemma instrumentColumns_ViewName (env : Env) (instrument valueExpr : string)
    (q q' : ch.CreateViewQuery) :
  metrics.instrumentColumns env instrument valueExpr q = Some q' ->
  ch.ViewName q' = ch.ViewName q.
Proof.
  unfold metrics.instrumentColumns.
  repeat (destruct (_ =? _)%string; [now intros [= <-]|]).
  discriminate.
Qed.

(** C4 (as amended).  When [createMatView] succeeds it has dropped and
    created one view, both under the name made of ["metrics_"], the metric
    name with every ['.'] replaced by ['_'], and ["_mv"]; the metric
    ["http.requests"] gives the view ["metrics_http_requests_mv"]. *)
Theorem C4_view_name (env : Env) (metric : bunconf.SpanMetric) :
  snd (metrics.createMatView env metric) = None ->
  let name :=
    ("metrics_" ++ mapBytes dotToUnderscore (bunconf.Name metric) ++ "_mv")%string in
  exists q,
    fst (metrics.createMatView env metric)
    = [metrics.dropViewStmt env name; ch.CreateViewStmt q]
    /\ ch.ViewName q = name.
Proof.
  intros Hok name.
  assert (Hname : metrics.viewNameOf metric = name).
  { unfold metrics.viewNameOf, name. rewrite ReplaceAll_dot.
    now rewrite append_assoc. }
  revert Hok. unfold metrics.createMatView. rewrite Hname.
  destruct (Exec env (metrics.dropViewStmt env name)); [discriminate|].
  destruct (metrics.compileSpanMetricValue env _) as [valueExpr|];
    [|discriminate].
  destruct (metrics.withWhere env metric _) as [q1|] eqn:Hw; [|discriminate].
  destruct (metrics.instrumentColumns env _ valueExpr q1) as [q2|] eqn:Hi;
    [|discriminate].
  cbn [fst snd]. intros _. exists q2. split; [reflexivity|].
  rewrite (instrumentColumns_ViewName _ _ _ _ _ Hi).
  rewrite (withWhere_ViewName _ _ _ _ Hw).
  now rewrite withAnnotations_ViewName, withAttrs_ViewName.
Qed.

Lemma C4_view_name_witness :
  exists q,
    fst (metrics.createMatView
           (Examples.withUpqlParse [Examples.selector (ast.Name "" "duration")]
              Examples.identityEnv)
           (Examples.metric "http.requests" "counter"))
    = [metrics.dropViewStmt
         (Examples.withUpqlParse [Examples.selector (ast.Name "" "duration")]
            Examples.identityEnv)
         "metrics_http_requests_mv";
       ch.CreateViewStmt q]
    /\ ch.ViewName q = "metrics_http_requests_mv"%string.
Proof.
  apply (C4_view_name
           (Examples.withUpqlParse [Examples.selector (ast.Name "" "duration")]
              Examples.identityEnv)
           (Examples.metric "http.requests" "counter")).
  reflexivity.
Defined.

(** C4 as stated fails: the view of the metric ["http.requests"] is named
    ["metrics_http_requests_mv"], not ["http_requests_mv"]. *)
Lemma C4_view_name_counterexample :
  let env :=
    Examples.withUpqlParse [Examples.selector (ast.Name "" "duration")]
      Examples.identityEnv in
  let metric := Examples.metric "http.requests" "counter" in
  snd (metrics.createMatView env metric) = None
  /\ (forall q,
        In (ch.CreateViewStmt q) (fst (metrics.createMatView env metric)) ->
        ch.ViewName q = "metrics_http_requests_mv"%string
        /\ ch.ViewName q <> "http_requests_mv"%string)
  /\ (exists q,
        In (ch.CreateViewStmt q) (fst (metrics.createMatView env metric))).
Proof.
  cbv zeta. split; [reflexivity|]. split.
  - intros q [H|[H|[]]]; [discriminate H|].
    injection H as <-. split; [reflexivity | discriminate].
  - eexists. right. left. reflexivity.
Qed.

Lemma withWhere_Columns (env : Env) (metric : bunconf.SpanMetric)
    (q q' : ch.CreateViewQuery) :
  metrics.withWhere env metric q = Ok q' -> ch.Columns q' = ch.Columns q.
Proof.
  unfold metrics.withWhere.
  destruct (negb _); [|now intros [= <-]].
  destruct (metrics.compileSpanMetricWhere env _); [|discriminate].
  destruct (negb _); now intros [= <-].
Qed.

(** No column put in before the instrument switch is value-bearing. *)
Lemma beforeInstrument_valueColumns (env : Env) (metric : bunconf.SpanMetric)
    (q0 : ch.CreateViewQuery) :
  beforeInstrument env metric = Ok q0 -> valueColumns q0 = [].
Proof.
  unfold beforeInstrument, valueColumns. intros H.
  rewrite (withWhere_Columns _ _ _ _ H).
  unfold metrics.withAnnotations, metrics.withAttrs.
  destruct (0 <? List.length (bunconf.Annotations metric))%nat;
    destruct (0 <? List.length (bunconf.Attrs metric))%nat;
    reflexivity.
Qed.

(** C5.  When [createMatView] reaches the instrument switch (the old view
    dropped, the value compiled to [valueExpr], the query built so far
    being [q0]), the statement it creates has the columns of [q0] followed
    by: for a histogram the three columns [count], [sum] and [histogram];
    for a counter the column [sum]; for a gauge or an additive instrument
    the column [value]; these are all its value-bearing columns.  For any
    other instrument name it fails with the unsupported-instrument error and
    creates no view. *)
Theorem C5_instrument_columns (env : Env) (metric : bunconf.SpanMetric)
    (valueExpr : string) (q0 : ch.CreateViewQuery) :
  NoDup [GaugeInstrument env; AdditiveInstrument env;
         CounterInstrument env; HistogramInstrument env] ->
  Exec env (metrics.dropViewStmt env (metrics.viewNameOf metric)) = None ->
  metrics.compileSpanMetricValue env (bunconf.Value metric) = Ok valueExpr ->
  beforeInstrument env metric = Ok q0 ->
  let instrument := bunconf.Instrument metric in
  let drop := metrics.dropViewStmt env (metrics.viewNameOf metric) in
  let creates (cols : list ch.QueryWithArgs) :=
    exists q,
      metrics.createMatView env metric
      = ([drop; ch.CreateViewStmt q], Exec env (ch.CreateViewStmt q))
      /\ ch.Columns q = (ch.Columns q0 ++ cols)%list
      /\ valueColumns q = cols in
  (instrument = HistogramInstrument env ->
   creates
     [column "count() AS count" [];
      column "sum(?) AS sum" [ch.ArgSafe valueExpr];
      column "quantilesBFloat16State(0.5)(toFloat32(?)) AS histogram"
        [ch.ArgSafe valueExpr]])
  /\ (instrument = CounterInstrument env ->
      creates [column "? AS sum" [ch.ArgSafe valueExpr]])
  /\ (instrument = GaugeInstrument env
      \/ instrument = AdditiveInstrument env ->
      creates [column "? AS value" [ch.ArgSafe valueExpr]])
  /\ (~ In instrument
          [GaugeInstrument env; AdditiveInstrument env;
           CounterInstrument env; HistogramInstrument env] ->
      metrics.createMatView env metric
      = ([drop], Some (ErrUnsupportedInstrument instrument))).
Proof.
  intros Hnd Hdrop Hval Hq0 instrument drop creates.
  pose proof (beforeInstrument_valueColumns env metric q0 Hq0) as Hnone.
  assert (Hrun :
    metrics.createMatView env metric =
    match metrics.instrumentColumns env instrument valueExpr q0 with
    | None => ([drop], Some (ErrUnsupportedInstrument instrument))
    | Some q => ([drop; ch.CreateViewStmt q], Exec env (ch.CreateViewStmt q))
    end).
  { subst drop. unfold metrics.createMatView. cbv zeta. rewrite Hdrop, Hval.
    unfold beforeInstrument in Hq0. now rewrite Hq0. }
  assert (Hcols : forall q cols,
    metrics.instrumentColumns env instrument valueExpr q0 = Some q ->
    ch.Columns q = (ch.Columns q0 ++ cols)%list ->
    filter valueBearing cols = cols ->
    creates cols).
  { intros q cols Hi Hc Hf. exists q. rewrite Hrun, Hi.
    split; [reflexivity|]. split; [exact Hc|].
    unfold valueColumns in *. now rewrite Hc, filter_app, Hnone, Hf. }
  inversion Hnd as [|g l1 Hg Hnd1]; subst.
  inversion Hnd1 as [|a l2 Ha Hnd2]; subst.
  inversion Hnd2 as [|c l3 Hc _]; subst.
  cbn [In] in Hg, Ha, Hc.
  unfold metrics.instrumentColumns in Hrun, Hcols.
  split; [|split; [|split]].
  - intros E. rewrite E in *.
    destruct (String.eqb_spec (HistogramInstrument env) (GaugeInstrument env))
      as [E1|_]; [exfalso; apply Hg; auto|].
    destruct (String.eqb_spec (HistogramInstrument env)
                (AdditiveInstrument env)) as [E1|_];
      [exfalso; apply Ha; auto|].
    destruct (String.eqb_spec (HistogramInstrument env)
                (CounterInstrument env)) as [E1|_];
      [exfalso; apply Hc; auto|].
    rewrite String.eqb_refl in Hcols.
    eapply Hcols; [reflexivity| |reflexivity].
    cbn. now rewrite <- !app_assoc.
  - intros E. rewrite E in *.
    destruct (String.eqb_spec (CounterInstrument env) (GaugeInstrument env))
      as [E1|_]; [exfalso; apply Hg; auto|].
    destruct (String.eqb_spec (CounterInstrument env)
                (AdditiveInstrument env)) as [E1|_];
      [exfalso; apply Ha; auto|].
    rewrite String.eqb_refl in Hcols.
    eapply Hcols; reflexivity.
  - intros [E|E]; rewrite E in *.
    + rewrite String.eqb_refl in Hcols. eapply Hcols; reflexivity.
    + destruct (String.eqb_spec (AdditiveInstrument env)
                  (GaugeInstrument env)) as [E1|_];
        [exfalso; apply Hg; auto|].
      rewrite String.eqb_refl in Hcols. eapply Hcols; reflexivity.
  - intros Hnot. cbn [In] in Hnot. rewrite Hrun.
    destruct (String.eqb_spec instrument (GaugeInstrument env));
      [exfalso; apply Hnot; auto|].
    destruct (String.eqb_spec instrument (AdditiveInstrument env));
      [exfalso; apply Hnot; auto|].
    destruct (String.eqb_spec instrument (CounterInstrument env));
      [exfalso; apply Hnot; auto|].
    destruct (String.eqb_spec instrument (HistogramInstrument env));
      [exfalso; apply Hnot; auto 6|].
    reflexivity.
Qed.

Lemma C5_instrument_columns_witness :
  let env :=
    Examples.withUpqlParse [Examples.selector (ast.Name "" "duration")]
      Examples.identityEnv in
  let histogram := Examples.metric "http.requests" "histogram" in
  let bogus := Examples.metric "http.requests" "bogus" in
  (exists q,
      metrics.createMatView env histogram
      = ([metrics.dropViewStmt env (metrics.viewNameOf histogram);
          ch.CreateViewStmt q], Exec env (ch.CreateViewStmt q))
      /\ ch.Columns q
         = (ch.Columns
              (metrics.baseQuery env (metrics.viewNameOf histogram) histogram)
            ++ [column "count() AS count" [];
                column "sum(?) AS sum" [ch.ArgSafe "duration"];
                column
                  "quantilesBFloat16State(0.5)(toFloat32(?)) AS histogram"
                  [ch.ArgSafe "duration"]])%list
      /\ valueColumns q
         = [column "count() AS count" [];
            column "sum(?) AS sum" [ch.ArgSafe "duration"];
            column "quantilesBFloat16State(0.5)(toFloat32(?)) AS histogram"
              [ch.ArgSafe "duration"]])
  /\ metrics.createMatView env bogus
     = ([metrics.dropViewStmt env (metrics.viewNameOf bogus)],
        Some (ErrUnsupportedInstrument "bogus")).
Proof.
  cbv zeta.
  assert (Hnd : NoDup ["gauge"; "additive"; "counter"; "histogram"]%string).
  { repeat constructor; simpl; intuition discriminate. }
  split.
  - apply (proj1 (C5_instrument_columns
             (Examples.withUpqlParse
                [Examples.selector (ast.Name "" "duration")]
                Examples.identityEnv)
             (Examples.metric "http.requests" "histogram") "duration"
             (metrics.baseQuery
                (Examples.withUpqlParse
                   [Examples.selector (ast.Name "" "duration")]
                   Examples.identityEnv)
                (metrics.viewNameOf
                   (Examples.metric "http.requests" "histogram"))
                (Examples.metric "http.requests" "histogram"))
             Hnd eq_refl eq_refl eq_refl)).
    reflexivity.
  - apply (proj2 (proj2 (proj2 (C5_instrument_columns
             (Examples.withUpqlParse
                [Examples.selector (ast.Name "" "duration")]
                Examples.identityEnv)
             (Examples.metric "http.requests" "bogus") "duration"
             (metrics.baseQuery
                (Examples.withUpqlParse
                   [Examples.selector (ast.Name "" "duration")]
                   Examples.identityEnv)
                (metrics.viewNameOf (Examples.metric "http.requests" "bogus"))
                (Examples.metric "http.requests" "bogus"))
             Hnd eq_refl eq_refl eq_refl)))).
    simpl. intuition discriminate.
Defined.

(** ** The token lexer *)

Lemma length_substring (str : string) (n m : nat) :
  (n + m <= String.length str)%nat ->
  String.length (String.substring n m str) = m.
Proof.
  revert n m. induction str as [|c str IH]; intros n m H; simpl in H.
  - assert (n = O) by lia. assert (m = O) by lia. subst. reflexivity.
  - destruct n as [|n]; simpl.
    + destruct m as [|m]; [reflexivity|]. simpl. f_equal. apply IH. lia.
    + apply IH. lia.
Qed.

Lemma len_slice (str : string) (lo hi : Z) :
  0 <= lo <= hi -> hi <= len str -> len (slice str lo hi) = hi - lo.
Proof.
  unfold len, slice. intros H1 H2. rewrite length_substring; lia.
Qed.

(** *** The scanning loops of the cursor *)

Lemma Valid_iff (lx : bunlex.Lexer) :
  bunlex.Valid lx = true <-> bunlex.i lx < len (bunlex.s lx).
Proof. unfold bunlex.Valid. apply Z.ltb_lt. Qed.

Lemma digits_spec (fuel : nat) (lx : bunlex.Lexer) :
  bunlex.s (bunlex.digits fuel lx) = bunlex.s lx
  /\ bunlex.i lx <= bunlex.i (bunlex.digits fuel lx)
  /\ (bunlex.i lx <= len (bunlex.s lx) ->
      bunlex.i (bunlex.digits fuel lx) <= len (bunlex.s lx)).
Proof.
  revert lx. induction fuel as [|fuel IH]; intros lx; cbn.
  - repeat split; lia.
  - destruct (bunlex.Valid lx) eqn:V; cbn; [|repeat split; lia].
    destruct (bunlex.IsDigit (bunlex.PeekByte lx)); [|repeat split; lia].
    apply Valid_iff in V.
    destruct (IH (bunlex.Advance lx)) as (Hs & Hi & Hle). cbn in *.
    repeat split; [exact Hs | lia | intros _; apply Hle; lia].
Qed.

Lemma digits_progress (fuel : nat) (lx : bunlex.Lexer) :
  bunlex.Valid lx = true ->
  bunlex.IsDigit (bunlex.PeekByte lx) = true ->
  fuel <> O ->
  bunlex.i lx < bunlex.i (bunlex.digits fuel lx).
Proof.
  intros V D F. destruct fuel as [|fuel]; [congruence|]. cbn.
  rewrite V, D. cbn.
  pose proof (proj1 (proj2 (digits_spec fuel (bunlex.Advance lx)))) as H.
  cbn in H. lia.
Qed.

(** With the bytes left to read as fuel the loop stops where the source
    loop does: at the end of the input or before a byte that is not a
    digit. *)
Lemma digits_stops (fuel : nat) (lx : bunlex.Lexer) :
  (bunlex.remaining lx <= fuel)%nat ->
  bunlex.Valid (bunlex.digits fuel lx) = false
  \/ bunlex.IsDigit (bunlex.PeekByte (bunlex.digits fuel lx)) = false.
Proof.
  revert lx. induction fuel as [|fuel IH]; intros lx R; cbn.
  - left. unfold bunlex.Valid. apply Z.ltb_ge.
    unfold bunlex.remaining in R. lia.
  - destruct (bunlex.Valid lx) eqn:V; cbn; [|now left].
    destruct (bunlex.IsDigit (bunlex.PeekByte lx)) eqn:D; [|now right].
    apply IH. unfold bunlex.remaining in *. cbn. lia.
Qed.

Lemma Number_spec (lx : bunlex.Lexer) (text : string) (lx' : bunlex.Lexer) :
  bunlex.Number lx = (text, lx') ->
  bunlex.s lx' = bunlex.s lx
  /\ text = slice (bunlex.s lx) (bunlex.i lx) (bunlex.i lx')
  /\ bunlex.i lx <= bunlex.i lx'
  /\ (bunlex.i lx <= len (bunlex.s lx) ->
      bunlex.i lx' <= len (bunlex.s lx))
  /\ (bunlex.Valid lx = true ->
      bunlex.IsDigit (bunlex.PeekByte lx) = true ->
      bunlex.i lx < bunlex.i lx').
Proof.
  unfold bunlex.Number. intros [= <- <-].
  set (l1 := bunlex.digits (bunlex.remaining lx) lx).
  destruct (digits_spec (bunlex.remaining lx) lx) as (S1 & I1 & L1).
  fold l1 in S1, I1, L1.
  assert (P1 : bunlex.Valid lx = true ->
               bunlex.IsDigit (bunlex.PeekByte lx) = true ->
               bunlex.i lx < bunlex.i l1).
  { intros V D. apply digits_progress; try assumption.
    apply Valid_iff in V. unfold bunlex.remaining. lia. }
  destruct (bunlex.Valid l1 && (bunlex.PeekByte l1 =? ".")%char)%bool eqn:E.
  - apply andb_true_iff in E. destruct E as [V _]. apply Valid_iff in V.
    destruct (digits_spec (bunlex.remaining (bunlex.Advance l1))
                (bunlex.Advance l1)) as (S2 & I2 & L2).
    cbn in S2, I2, L2.
    set (l2 := bunlex.digits _ (bunlex.Advance l1)) in *.
    rewrite S2, S1. repeat split; try lia.
    intros H. rewrite S1 in *. apply L2. lia.
  - rewrite S1. repeat split; try lia; assumption.
Qed.

Lemma unquoted_spec (fuel : nat) (quote : ascii) (escaped : bool)
    (acc : string) (lx : bunlex.Lexer) (r : result string)
    (lx' : bunlex.Lexer) :
  bunlex.unquoted fuel quote escaped acc lx = (r, lx') ->
  bunlex.s lx' = bunlex.s lx
  /\ bunlex.i lx <= bunlex.i lx'
  /\ (bunlex.i lx <= len (bunlex.s lx) -> bunlex.i lx' <= len (bunlex.s lx)).
Proof.
  revert escaped acc lx.
  induction fuel as [|fuel IH]; intros escaped acc lx; cbn.
  - intros [= <- <-]. repeat split; lia.
  - destruct (bunlex.Valid lx) eqn:V; cbn.
    2:{ intros [= <- <-]. repeat split; lia. }
    apply Valid_iff in V.
    assert (Step : forall e a,
      bunlex.unquoted fuel quote e a (bunlex.Advance lx) = (r, lx') ->
      bunlex.s lx' = bunlex.s lx
      /\ bunlex.i lx <= bunlex.i lx'
      /\ (bunlex.i lx <= len (bunlex.s lx) ->
          bunlex.i lx' <= len (bunlex.s lx))).
    { intros e a H. destruct (IH _ _ _ H) as (Hs & Hi & Hl). cbn in *.
      repeat split; [exact Hs | lia | intros _; apply Hl; lia]. }
    destruct escaped; [apply Step|].
    destruct (_ =? "092")%char; [apply Step|].
    destruct (_ =? quote)%char; [|apply Step].
    intros [= <- <-]. cbn. repeat split; lia.
Qed.

Lemma identBytes_spec (fuel : nat) (lx : bunlex.Lexer) :
  bunlex.s (ast.identBytes fuel lx) = bunlex.s lx
  /\ bunlex.i lx <= bunlex.i (ast.identBytes fuel lx)
  /\ (bunlex.i lx <= len (bunlex.s lx) ->
      bunlex.i (ast.identBytes fuel lx) <= len (bunlex.s lx)).
Proof.
  revert lx. induction fuel as [|fuel IH]; intros lx; cbn.
  - repeat split; lia.
  - destruct (bunlex.Valid lx) eqn:V; [|repeat split; lia].
    destruct (ast.isIdentChar (bunlex.PeekByte lx)); [|repeat split; lia].
    apply Valid_iff in V.
    destruct (IH (bunlex.Advance lx)) as (Hs & Hi & Hle). cbn in *.
    repeat split; [exact Hs | lia | intros _; apply Hle; lia].
Qed.

Lemma identBytes_stops (fuel : nat) (lx : bunlex.Lexer) :
  (bunlex.remaining lx <= fuel)%nat ->
  bunlex.Valid (ast.identBytes fuel lx) = false
  \/ ast.isIdentChar (bunlex.PeekByte (ast.identBytes fuel lx)) = false.
Proof.
  revert lx. induction fuel as [|fuel IH]; intros lx R; cbn.
  - left. unfold bunlex.Valid. apply Z.ltb_ge.
    unfold bunlex.remaining in R. lia.
  - destruct (bunlex.Valid lx) eqn:V; [|now left].
    destruct (ast.isIdentChar (bunlex.PeekByte lx)) eqn:D; [|now right].
    apply IH. unfold bunlex.remaining in *. cbn. lia.
Qed.

(** The bytes left to read are fuel enough for [readToken]: more fuel
    changes nothing, so the depth bound of the model is never what stops a
    read. *)
Lemma readTokenFrom_fuel (n m : nat) (l : ast.lexer) :
  (bunlex.remaining (ast.lex l) <= n)%nat ->
  (bunlex.remaining (ast.lex l) <= m)%nat ->
  ast.readTokenFrom n l = ast.readTokenFrom m l.
Proof.
  revert m l. induction n as [|n IH]; intros m l Hn Hm.
  - assert (V : bunlex.Valid (ast.lex l) = false).
    { unfold bunlex.Valid. apply Z.ltb_ge.
      unfold bunlex.remaining in Hn. lia. }
    destruct m as [|m]; cbn [ast.readTokenFrom]; [reflexivity|].
    now rewrite V.
  - cbn [ast.readTokenFrom].
    destruct (bunlex.Valid (ast.lex l)) eqn:V; cbn [negb].
    2:{ destruct m as [|m]; cbn [ast.readTokenFrom]; [reflexivity|].
        now rewrite V. }
    pose proof (proj1 (Valid_iff _) V) as Hlt.
    destruct m as [|m]; [unfold bunlex.remaining in Hm; lia|].
    cbn [ast.readTokenFrom]. rewrite V. cbn [negb].
    unfold bunlex.NextByte. cbv beta iota zeta.
    repeat match goal with
           | |- context [if ?b then _ else _] => destruct b
           end; try reflexivity.
    apply IH; unfold bunlex.remaining in *; cbn; lia.
Qed.

(** *** What one read does to the cache *)

(** A read leaves the cursor of the stream alone; it returns the
    end-of-input token or an error without touching the cache, or else
    appends the token it returns. *)
Lemma readTokenFrom_cache (fuel : nat) (l : ast.lexer) (r : result ast.Token)
    (l' : ast.lexer) :
  ast.readTokenFrom fuel l = (r, l') ->
  ast.pos l' = ast.pos l
  /\ match r with
     | Ok tok =>
         (tok = ast.eofToken /\ ast.tokens l' = ast.tokens l)
         \/ (ast.ID tok <> ast.EOF_TOKEN
             /\ ast.tokens l' = (ast.tokens l ++ [tok])%list)
     | Err _ => ast.tokens l' = ast.tokens l
     end.
Proof.
  revert l. induction fuel as [|fuel IH]; intros l; cbn [ast.readTokenFrom].
  - intros [= <- <-]. auto.
  - destruct (negb (bunlex.Valid (ast.lex l))).
    { intros [= <- <-]. auto. }
    unfold bunlex.NextByte, ast.quotedValue, ast.ident, ast.charToken,
      ast.number, ast.token.
    repeat match goal with
           | |- context [if ?c then _ else _] => destruct c
           end;
      try (intros H; apply IH in H; exact H);
      repeat match goal with
             | |- context [bunlex.ReadUnquoted ?q ?x] =>
                 destruct (bunlex.ReadUnquoted q x) as [[?|?] ?]
             | |- context [bunlex.Number ?x] =>
                 destruct (bunlex.Number x) as [? ?]
             end;
      intros [= <- <-]; cbn; split; try reflexivity;
      try (right; split; [discriminate | reflexivity]).
Qed.

Lemma PeekToken_cache (l : ast.lexer) (r : result ast.Token)
    (l' : ast.lexer) :
  ast.PeekToken l = (r, l') ->
  ast.pos l' = ast.pos l
  /\ match r with
     | Ok tok =>
         (ast.pos l < Z.of_nat (List.length (ast.tokens l))
          /\ ast.tokens l' = ast.tokens l)
         \/ (tok = ast.eofToken /\ ast.tokens l' = ast.tokens l)
         \/ (ast.ID tok <> ast.EOF_TOKEN
             /\ ast.tokens l' = (ast.tokens l ++ [tok])%list)
     | Err _ => ast.tokens l' = ast.tokens l
     end.
Proof.
  unfold ast.PeekToken.
  destruct (ast.pos l <? Z.of_nat (List.length (ast.tokens l))) eqn:C.
  - apply Z.ltb_lt in C.
    assert (forall r0, (r0, l) = (r, l') ->
              ast.pos l' = ast.pos l
              /\ match r with
                 | Ok tok =>
                     (ast.pos l < Z.of_nat (List.length (ast.tokens l))
                      /\ ast.tokens l' = ast.tokens l)
                     \/ (tok = ast.eofToken /\ ast.tokens l' = ast.tokens l)
                     \/ (ast.ID tok <> ast.EOF_TOKEN
                         /\ ast.tokens l' = (ast.tokens l ++ [tok])%list)
                 | Err _ => ast.tokens l' = ast.tokens l
                 end) as K.
    { intros r0 [= <- <-]. split; [reflexivity|]. destruct r0; auto. }
    destruct (ast.pos l <? 0); [apply K|].
    destruct (nth_error _ _); apply K.
  - unfold ast.readToken. intros H.
    apply readTokenFrom_cache in H. destruct H as [Hp Hr].
    split; [exact Hp|]. destruct r as [tok|err]; [|exact Hr].
    right. exact Hr.
Qed.

Lemma NextToken_cache (l : ast.lexer) (r : result ast.Token)
    (l' : ast.lexer) :
  ast.NextToken l = (r, l') ->
  match r with
  | Ok tok =>
      ast.pos l' = ast.pos l + 1
      /\ ((ast.pos l < Z.of_nat (List.length (ast.tokens l))
           /\ ast.tokens l' = ast.tokens l)
          \/ (tok = ast.eofToken /\ ast.tokens l' = ast.tokens l)
          \/ (ast.ID tok <> ast.EOF_TOKEN
              /\ ast.tokens l' = (ast.tokens l ++ [tok])%list))
  | Err _ => ast.pos l' = ast.pos l /\ ast.tokens l' = ast.tokens l
  end.
Proof.
  unfold ast.NextToken.
  destruct (ast.PeekToken l) as [[tok|err] l1] eqn:P;
    apply PeekToken_cache in P; destruct P as [Hp Hr];
    intros [= <- <-]; cbn; [|now split].
  split; [now rewrite Hp | exact Hr].
Qed.

(** *** Sequences of operations *)

Lemma step_grows (o : TokenStream.op) (ss ss' : TokenStream.session) :
  TokenStream.step o ss = Some ss' ->
  exists added,
    ast.tokens (TokenStream.stream ss')
    = (ast.tokens (TokenStream.stream ss) ++ added)%list.
Proof.
  destruct o as [| | |p]; cbn.
  - intros [= <-]. cbn.
    destruct (ast.PeekToken (TokenStream.stream ss)) as [r l'] eqn:P.
    apply PeekToken_cache in P. destruct P as [_ Hr]. cbn.
    destruct r as [tok|err].
    + destruct Hr as [[_ ->]|[[_ ->]|[_ ->]]];
        [exists [] | exists [] | exists [tok]];
        now rewrite ?app_nil_r.
    + rewrite Hr. exists []. now rewrite app_nil_r.
  - destruct (ast.NextToken (TokenStream.stream ss)) as [r l'] eqn:N.
    apply NextToken_cache in N. intros [= <-]. cbn.
    destruct r as [tok|err].
    + destruct N as [_ [[_ ->]|[[_ ->]|[_ ->]]]];
        [exists [] | exists [] | exists [tok]];
        now rewrite ?app_nil_r.
    + destruct N as [_ ->]. exists []. now rewrite app_nil_r.
  - intros [= <-]. cbn. exists []. now rewrite app_nil_r.
  - destruct (existsb _ _); [|discriminate].
    intros [= <-]. cbn. exists []. now rewrite app_nil_r.
Qed.

Lemma inBounds_mono (ss ss' : TokenStream.session) (p : Z) :
  TokenStream.cached ss + TokenStream.eofs ss
  <= TokenStream.cached ss' + TokenStream.eofs ss' ->
  TokenStream.inBounds ss p -> TokenStream.inBounds ss' p.
Proof. unfold TokenStream.inBounds. lia. Qed.

Lemma step_invariant (o : TokenStream.op) (ss ss' : TokenStream.session) :
  TokenStream.invariant ss ->
  TokenStream.step o ss = Some ss' ->
  TokenStream.invariant ss'.
Proof.
  intros (Hpos & Hobs & Heof).
  assert (Keep : forall ss1,
    TokenStream.observed ss1 = TokenStream.observed ss ->
    TokenStream.cached ss + TokenStream.eofs ss
    <= TokenStream.cached ss1 + TokenStream.eofs ss1 ->
    0 <= TokenStream.eofs ss1 ->
    TokenStream.inBounds ss1 (ast.pos (TokenStream.stream ss1)) ->
    TokenStream.invariant ss1).
  { intros ss1 Ho Hm He Hp. split; [exact Hp|]. split; [|exact He].
    rewrite Ho. eapply Forall_impl; [|exact Hobs].
    intros p. now apply inBounds_mono. }
  unfold TokenStream.inBounds, TokenStream.cached in *.
  destruct o as [| | |p]; cbn.
  - intros [= <-].
    destruct (ast.PeekToken (TokenStream.stream ss)) as [r l'] eqn:P.
    apply PeekToken_cache in P. destruct P as [Hp Hr].
    apply Keep; cbn; try reflexivity; try assumption;
      unfold TokenStream.inBounds, TokenStream.cached; cbn; rewrite ?Hp;
      (destruct r as [tok|err];
       [destruct Hr as [[_ ->]|[[_ ->]|[_ ->]]] | rewrite Hr]);
      rewrite ?length_app; cbn; lia.
  - destruct (ast.NextToken (TokenStream.stream ss)) as [r l'] eqn:N.
    apply NextToken_cache in N. intros [= <-].
    destruct r as [tok|err].
    + destruct N as [Hp [[Hc Ht]|[[-> Ht]|[Hid Ht]]]].
      * apply Keep; cbn; try reflexivity;
          unfold TokenStream.inBounds, TokenStream.cached; cbn;
          rewrite ?Hp, ?Ht; destruct (ast.ID tok); lia.
      * apply Keep; cbn; try reflexivity;
          unfold TokenStream.inBounds, TokenStream.cached; cbn;
          rewrite ?Hp, ?Ht; lia.
      * apply Keep; cbn; try reflexivity;
          unfold TokenStream.inBounds, TokenStream.cached; cbn;
          rewrite ?Hp, ?Ht, ?length_app; cbn;
          destruct (ast.ID tok); lia.
    + destruct N as [Hp Ht].
      apply Keep; cbn; try reflexivity;
        unfold TokenStream.inBounds, TokenStream.cached; cbn;
        rewrite ?Hp, ?Ht; lia.
  - intros [= <-]. split; [exact Hpos|]. split; [|exact Heof].
    cbn. constructor; [exact Hpos | exact Hobs].
  - destruct (existsb (Z.eqb p) (TokenStream.observed ss)) eqn:E;
      [|discriminate].
    intros [= <-]. apply existsb_exists in E. destruct E as (p' & Hin & Hp').
    apply Z.eqb_eq in Hp'. subst p'.
    apply Keep; cbn; try reflexivity; try lia.
    exact (proj1 (Forall_forall _ _) Hobs p Hin).
Qed.

Lemma run_invariant (ops : list TokenStream.op)
    (ss ss' : TokenStream.session) :
  TokenStream.invariant ss ->
  TokenStream.run ops ss = Some ss' ->
  TokenStream.invariant ss'.
Proof.
  revert ss. induction ops as [|o ops IH]; intros ss Hinv; cbn.
  - now intros [= <-].
  - destruct (TokenStream.step o ss) as [ss1|] eqn:S; [|discriminate].
    apply IH. now apply (step_invariant o ss).
Qed.

Lemma start_invariant (src : string) (ignore : bool) :
  TokenStream.invariant (TokenStream.start src ignore).
Proof.
  unfold TokenStream.invariant, TokenStream.inBounds, TokenStream.cached.
  destruct ignore; cbn; repeat split; try lia; constructor.
Qed.

(** C3 (as amended).  After every sequence of [PeekToken], [NextToken],
    [Pos] and [ResetPos] to a position that [Pos] has returned, on any
    source, the position is at most the number of cached tokens plus the
    number of [NextToken] calls that returned the end-of-input token (that
    token is not cached, yet [NextToken] steps over it); so
    [pos <= len(tokens)] holds as long as no [NextToken] has returned the
    end of input.  No operation removes a cached token: the cache after an
    operation is the cache before it, extended. *)
Theorem C3_stream_invariant (src : string) (ignore : bool)
    (ops : list TokenStream.op) (ss : TokenStream.session) :
  TokenStream.run ops (TokenStream.start src ignore) = Some ss ->
  0 <= ast.pos (TokenStream.stream ss)
       <= TokenStream.cached ss + TokenStream.eofs ss
  /\ (TokenStream.eofs ss = 0 ->
      ast.pos (TokenStream.stream ss) <= TokenStream.cached ss)
  /\ (forall (o : TokenStream.op) (ss' : TokenStream.session),
        TokenStream.step o ss = Some ss' ->
        exists added,
          ast.tokens (TokenStream.stream ss')
          = (ast.tokens (TokenStream.stream ss) ++ added)%list).
Proof.
  intros Hrun.
  pose proof (run_invariant ops _ ss (start_invariant src ignore) Hrun)
    as (Hpos & _ & _).
  unfold TokenStream.inBounds in Hpos.
  split; [exact Hpos|]. split; [intros E; rewrite E in Hpos; lia|].
  intros o ss'. apply step_grows.
Qed.

Lemma C3_stream_invariant_witness :
  let ops :=
    [TokenStream.OpPos; TokenStream.OpNextToken; TokenStream.OpPeekToken;
     TokenStream.OpResetPos 0; TokenStream.OpNextToken;
     TokenStream.OpNextToken; TokenStream.OpNextToken] in
  exists ss,
    TokenStream.run ops (TokenStream.start "a + 1" true) = Some ss
    /\ 0 <= ast.pos (TokenStream.stream ss)
            <= TokenStream.cached ss + TokenStream.eofs ss.
Proof.
  cbv zeta. eexists. split; [vm_compute; reflexivity|].
  apply (C3_stream_invariant "a + 1" true
           [TokenStream.OpPos; TokenStream.OpNextToken;
            TokenStream.OpPeekToken; TokenStream.OpResetPos 0;
            TokenStream.OpNextToken; TokenStream.OpNextToken;
            TokenStream.OpNextToken]).
  vm_compute. reflexivity.
Defined.

(** C3 as stated fails: on the empty source [NextToken] returns the
    end-of-input token, which is not cached, and still steps the position,
    leaving [pos = 1] with [len(tokens) = 0]. *)
Lemma C3_stream_invariant_counterexample :
  exists ss,
    TokenStream.run [TokenStream.OpNextToken] (TokenStream.start "" false)
    = Some ss
    /\ ast.pos (TokenStream.stream ss) = 1
    /\ TokenStream.cached ss = 0
    /\ ~ ast.pos (TokenStream.stream ss) <= TokenStream.cached ss.
Proof.
  eexists. split; [vm_compute; reflexivity|].
  split; [reflexivity|]. split; [reflexivity|].
  unfold TokenStream.cached. cbn. lia.
Qed.

(** *** Where a token starts *)

Section Leaves.

(** The lexer [l1] just after [readToken] consumed the first byte [c] of
    a token, at offset [first]. *)
Variable l1 : ast.lexer.
Variable first : Z.
Hypothesis same_source : bunlex.s (ast.lex l1) = ast.s l1.
Hypothesis cursor : bunlex.i (ast.lex l1) = first + 1.
Hypothesis first_in : 0 <= first < len (ast.s l1).

Lemma quotedValue_lexed (c : ascii) (tok : ast.Token) (l' : ast.lexer) :
  byteAt (ast.s l1) first = c ->
  c = "'"%char \/ c = "034"%char ->
  ast.quotedValue c l1 = (Ok tok, l') ->
  appended l1 first tok l'.
Proof.
  intros Hc Hq. unfold ast.quotedValue, bunlex.ReadUnquoted.
  destruct (bunlex.unquoted _ c false "" (ast.lex l1)) as [[str|err] lx]
    eqn:U; [|discriminate].
  apply unquoted_spec in U. destruct U as (Us & Ui & Ul).
  unfold ast.token. intros [= <- <-].
  unfold appended, lexedAt, wellFormed, bunlex.Pos. cbn.
  rewrite Us, same_source in *. rewrite Hc.
  repeat split; try lia; try assumption.
Qed.

Lemma charToken_lexed (tok : ast.Token) (l' : ast.lexer) :
  ast.charToken ast.BYTE_TOKEN l1 = (tok, l') ->
  appended l1 first tok l'.
Proof.
  unfold ast.charToken, ast.token, bunlex.Pos. intros [= <- <-].
  unfold appended, lexedAt, wellFormed. cbn. rewrite cursor, same_source.
  replace (first + 1 - 1) with first by lia.
  rewrite (len_slice (ast.s l1) first (first + 1)) by lia.
  replace (first + (first + 1 - first)) with (first + 1) by lia.
  repeat split; lia.
Qed.

Lemma ident_lexed (tok : ast.Token) (l' : ast.lexer) :
  ast.ident (bunlex.Pos (ast.lex l1) - 1) l1 = (Ok tok, l') ->
  appended l1 first tok l'.
Proof.
  unfold ast.ident, ast.token, bunlex.Pos. cbn.
  destruct (identBytes_spec (bunlex.remaining (ast.lex l1)) (ast.lex l1))
    as (Is & Ii & Il).
  set (lx := ast.identBytes _ _) in *.
  intros [= <- <-].
  unfold appended, lexedAt, wellFormed. cbn. rewrite cursor in *.
  rewrite Is, same_source in *.
  replace (first + 1 - 1) with first by lia.
  fold (slice (ast.s l1) first (bunlex.i lx)).
  rewrite (len_slice (ast.s l1) first (bunlex.i lx)) by lia.
  replace (first + (bunlex.i lx - first)) with (bunlex.i lx) by lia.
  repeat split; lia.
Qed.

Lemma number_lexed (tok : ast.Token) (l' : ast.lexer) :
  bunlex.IsDigit (byteAt (ast.s l1) first) = true ->
  ast.number (ast.setLex l1 (bunlex.Rewind (ast.lex l1))) = (tok, l') ->
  appended l1 first tok l'.
Proof.
  intros Hd. unfold ast.number. cbn [ast.lex ast.setLex].
  destruct (bunlex.Number (bunlex.Rewind (ast.lex l1))) as [text lx] eqn:N.
  apply Number_spec in N. cbn [bunlex.Rewind bunlex.s bunlex.i] in N.
  rewrite cursor, same_source in N.
  replace (first + 1 - 1) with first in N by lia.
  destruct N as (Ns & Nt & Ni & Nl & Np).
  assert (Hlt : first < bunlex.i lx).
  { apply Np.
    - apply Valid_iff. cbn. rewrite cursor, same_source. lia.
    - unfold bunlex.PeekByte, bunlex.Valid. cbn.
      rewrite cursor, same_source.
      replace (first + 1 - 1) with first by lia.
      destruct (Z.ltb_spec first (len (ast.s l1))); [exact Hd | lia]. }
  unfold ast.token, bunlex.Pos. intros [= <- <-].
  unfold appended, lexedAt, wellFormed. cbn.
  assert (Hlen : len text = bunlex.i lx - first).
  { rewrite Nt. apply len_slice; lia. }
  rewrite Hlen.
  replace (first + (bunlex.i lx - first)) with (bunlex.i lx) by lia.
  repeat split; try lia; assumption.
Qed.

End Leaves.

(** A read that returns a token other than the end of input skipped
    whitespace bytes (only when told to ignore them) up to some offset
    [first], lexed the token from there and appended it to the cache. *)
Lemma readTokenFrom_lexed (fuel : nat) (l : ast.lexer) (tok : ast.Token)
    (l' : ast.lexer) :
  wellFormed l ->
  ast.readTokenFrom fuel l = (Ok tok, l') ->
  ast.ID tok <> ast.EOF_TOKEN ->
  exists first,
    bunlex.i (ast.lex l) <= first < len (ast.s l)
    /\ (forall k, bunlex.i (ast.lex l) <= k < first ->
          ast.ignoreSpaces l = true
          /\ bunlex.IsWhitespace (byteAt (ast.s l) k) = true)
    /\ lexedAt (ast.s l) first tok (bunlex.i (ast.lex l'))
    /\ ast.tokens l' = (ast.tokens l ++ [tok])%list
    /\ wellFormed l'
    /\ ast.s l' = ast.s l.
Proof.
  revert l. induction fuel as [|fuel IH]; intros l [Hs Hi] H Hid;
    cbn [ast.readTokenFrom] in H.
  - injection H as <- <-. now contradiction Hid.
  - destruct (bunlex.Valid (ast.lex l)) eqn:V; cbn [negb] in H.
    2:{ injection H as <- <-. now contradiction Hid. }
    apply Valid_iff in V. rewrite Hs in V.
    unfold bunlex.NextByte in H.
    assert (Hc : bunlex.PeekByte (ast.lex l)
                 = byteAt (ast.s l) (bunlex.i (ast.lex l))).
    { unfold bunlex.PeekByte, bunlex.Valid. rewrite Hs.
      now destruct (Z.ltb_spec (bunlex.i (ast.lex l)) (len (ast.s l)));
        [|lia]. }
    set (c := bunlex.PeekByte (ast.lex l)) in *.
    set (l1 := ast.setLex l (bunlex.Advance (ast.lex l))) in *.
    set (first := bunlex.i (ast.lex l)) in *.
    assert (S1 : bunlex.s (ast.lex l1) = ast.s l1) by exact Hs.
    assert (C1 : bunlex.i (ast.lex l1) = first + 1) by reflexivity.
    assert (F1 : 0 <= first < len (ast.s l1)) by (cbn; lia).
    assert (Leaf : forall tok l',
      appended l1 first tok l' ->
      exists f,
        first <= f < len (ast.s l)
        /\ (forall k, first <= k < f ->
              ast.ignoreSpaces l = true
              /\ bunlex.IsWhitespace (byteAt (ast.s l) k) = true)
        /\ lexedAt (ast.s l) f tok (bunlex.i (ast.lex l'))
        /\ ast.tokens l' = (ast.tokens l ++ [tok])%list
        /\ wellFormed l'
        /\ ast.s l' = ast.s l).
    { intros t l2 (A & B & C & D). exists first.
      split; [lia|]. split; [intros k Hk; lia|].
      exact (conj A (conj B (conj C D))). }
    cbv beta iota zeta in H.
    destruct ((c =? "'")%char || (c =? "034")%char)%bool eqn:Q.
    { apply Leaf. apply (quotedValue_lexed l1 first S1 C1 F1 c); auto.
      apply orb_true_iff in Q. destruct Q as [Q|Q];
        apply Ascii.eqb_eq in Q; auto. }
    destruct ((c =? "(")%char || (c =? ")")%char || (c =? ",")%char)%bool.
    { destruct (ast.charToken ast.BYTE_TOKEN l1) as [t l2] eqn:T.
      injection H as <- <-. apply Leaf.
      now apply (charToken_lexed l1 first S1 C1 F1). }
    destruct (c =? "_")%char.
    { apply Leaf. now apply (ident_lexed l1 first S1 C1 F1). }
    destruct (c =? "$")%char.
    { apply Leaf. now apply (ident_lexed l1 first S1 C1 F1). }
    destruct (ast.ignoreSpaces l1 && bunlex.IsWhitespace c)%bool eqn:W.
    { apply andb_true_iff in W. destruct W as [Wi Ww].
      destruct (IH l1) as (f & Hf & Hsk & Hlex & Ht & Hw & Hsrc);
        [split; [exact S1 | cbn; lia] | exact H | exact Hid |].
      exists f. rewrite C1 in Hf. cbn [ast.s l1 ast.setLex] in *.
      split; [lia|].
      split; [|exact (conj Hlex (conj Ht (conj Hw Hsrc)))].
      intros k Hk. destruct (Z.eq_dec k first) as [->|Hne].
      - split; [exact Wi | now rewrite <- Hc].
      - apply Hsk. rewrite C1. lia. }
    destruct (bunlex.IsDigit c) eqn:D.
    { destruct (ast.number _) as [t l2] eqn:T.
      injection H as <- <-. apply Leaf.
      apply (number_lexed l1 first S1 C1 F1); [|exact T].
      change (ast.s l1) with (ast.s l). rewrite <- Hc. exact D. }
    destruct (bunlex.IsAlpha c).
    { apply Leaf. now apply (ident_lexed l1 first S1 C1 F1). }
    destruct (ast.charToken ast.BYTE_TOKEN l1) as [t l2] eqn:T.
    injection H as <- <-. apply Leaf.
    now apply (charToken_lexed l1 first S1 C1 F1).
Qed.

(** Whatever a read returns, the lexer stays well formed on the same
    source. *)
Lemma readTokenFrom_wellFormed (fuel : nat) (l : ast.lexer)
    (r : result ast.Token) (l' : ast.lexer) :
  wellFormed l ->
  ast.readTokenFrom fuel l = (r, l') ->
  wellFormed l' /\ ast.s l' = ast.s l.
Proof.
  revert l. induction fuel as [|fuel IH]; intros l [Hs Hi];
    cbn [ast.readTokenFrom].
  - intros [= <- <-]. now repeat split.
  - destruct (bunlex.Valid (ast.lex l)) eqn:V; cbn [negb].
    2:{ intros [= <- <-]. now repeat split. }
    apply Valid_iff in V. rewrite Hs in V.
    unfold bunlex.NextByte. cbv beta iota zeta.
    set (c := bunlex.PeekByte (ast.lex l)).
    set (l1 := ast.setLex l (bunlex.Advance (ast.lex l))).
    assert (W1 : wellFormed l1) by (split; [exact Hs | cbn; lia]).
    assert (Quoted : ast.quotedValue c l1 = (r, l') ->
                     wellFormed l' /\ ast.s l' = ast.s l).
    { unfold ast.quotedValue, bunlex.ReadUnquoted.
      destruct (bunlex.unquoted _ c false "" (ast.lex l1)) as [[str|err] lx]
        eqn:U; apply unquoted_spec in U; destruct U as (Us & Ui & Ul);
        cbn in Us, Ui, Ul; rewrite Hs in *;
        unfold ast.token; intros [= <- <-]; unfold wellFormed; cbn;
        rewrite Us; repeat split; try lia; assumption. }
    assert (Char : forall id,
      (let (tok, l2) := ast.charToken id l1 in (Ok tok, l2)) = (r, l') ->
      wellFormed l' /\ ast.s l' = ast.s l).
    { intros id. unfold ast.charToken, ast.token. intros [= <- <-].
      unfold wellFormed. cbn. repeat split; try lia; assumption. }
    assert (Ident : forall start,
      ast.ident start l1 = (r, l') -> wellFormed l' /\ ast.s l' = ast.s l).
    { intros start. unfold ast.ident, ast.token. cbn.
      destruct (identBytes_spec
                  (bunlex.remaining (bunlex.Advance (ast.lex l)))
                  (bunlex.Advance (ast.lex l))) as (Is & Ii & Il).
      cbn in Is, Ii, Il. rewrite Hs in *.
      intros [= <- <-]. unfold wellFormed. cbn. rewrite Is.
      repeat split; try lia; assumption. }
    assert (Num :
      (let (tok, l2) := ast.number (ast.setLex l1 (bunlex.Rewind (ast.lex l1)))
       in (Ok tok, l2)) = (r, l') ->
      wellFormed l' /\ ast.s l' = ast.s l).
    { unfold ast.number. cbn [ast.lex ast.setLex l1].
      destruct (bunlex.Number _) as [text lx] eqn:N.
      apply Number_spec in N. cbn in N. rewrite Hs in N.
      destruct N as (Ns & _ & Ni & Nl & _).
      unfold ast.token. intros [= <- <-]. unfold wellFormed. cbn.
      rewrite Ns. repeat split; try lia; assumption. }
    repeat match goal with
           | |- context [if ?b then _ else _] => destruct b
           end;
      try assumption; try apply Char; try apply Ident.
    intros H. destruct (IH l1 W1 H) as [Hw Hsrc]. now split.
Qed.

Lemma lexedAt_start (src : string) (first : Z) (tok : ast.Token)
    (after : Z) :
  lexedAt src first tok after ->
  (ast.ID tok = ast.NUMBER_TOKEN ->
   ast.Start tok = first + len (ast.Text tok)
   /\ ast.Text tok = slice src first (ast.Start tok)
   /\ after = ast.Start tok)
  /\ (ast.ID tok <> ast.NUMBER_TOKEN -> ast.Start tok = first).
Proof.
  unfold lexedAt. destruct (ast.ID tok); intros H; split; intros E;
    try discriminate; try contradiction; try (now destruct H).
  destruct H as (H1 & H2 & H3 & _). rewrite H1. now repeat split.
Qed.

Lemma PeekToken_produced (src : string) (l : ast.lexer)
    (r : result ast.Token) (l' : ast.lexer) :
  wellFormed l -> ast.s l = src ->
  Forall (producedFrom src) (ast.tokens l) ->
  ast.PeekToken l = (r, l') ->
  wellFormed l' /\ ast.s l' = src
  /\ Forall (producedFrom src) (ast.tokens l').
Proof.
  intros Hw Hs Hall. unfold ast.PeekToken.
  assert (K : forall r0, (r0, l) = (r, l') ->
            wellFormed l' /\ ast.s l' = src
            /\ Forall (producedFrom src) (ast.tokens l')).
  { now intros r0 [= <- <-]. }
  destruct (ast.pos l <? _).
  { destruct (ast.pos l <? 0); [apply K|].
    destruct (nth_error _ _); apply K. }
  unfold ast.readToken. intros H.
  destruct (readTokenFrom_wellFormed _ _ _ _ Hw H) as [Hw' Hs'].
  split; [exact Hw'|]. split; [congruence|].
  pose proof (readTokenFrom_cache _ _ _ _ H) as [_ Hr].
  destruct r as [tok|err]; [|now rewrite Hr].
  destruct Hr as [[_ ->]|[Hid Ht]]; [exact Hall|].
  rewrite Ht. apply Forall_app. split; [exact Hall|].
  constructor; [|constructor].
  destruct (readTokenFrom_lexed _ _ _ _ Hw H Hid)
    as (first & Hf & _ & Hlex & _).
  destruct Hw as [_ Hi]. exists first, (bunlex.i (ast.lex l')).
  rewrite <- Hs. split; [lia | exact Hlex].
Qed.

Lemma step_produced (src : string) (o : TokenStream.op)
    (ss ss' : TokenStream.session) :
  wellFormed (TokenStream.stream ss) ->
  ast.s (TokenStream.stream ss) = src ->
  Forall (producedFrom src) (ast.tokens (TokenStream.stream ss)) ->
  TokenStream.step o ss = Some ss' ->
  wellFormed (TokenStream.stream ss')
  /\ ast.s (TokenStream.stream ss') = src
  /\ Forall (producedFrom src) (ast.tokens (TokenStream.stream ss')).
Proof.
  intros Hw Hs Hall. destruct o as [| | |p]; cbn.
  - intros [= <-]. cbn.
    destruct (ast.PeekToken (TokenStream.stream ss)) as [r l'] eqn:P.
    exact (PeekToken_produced src _ _ _ Hw Hs Hall P).
  - unfold ast.NextToken.
    destruct (ast.PeekToken (TokenStream.stream ss)) as [r l'] eqn:P.
    pose proof (PeekToken_produced src _ _ _ Hw Hs Hall P) as K.
    destruct r; intros [= <-]; exact K.
  - now intros [= <-].
  - destruct (existsb _ _); [|discriminate]. now intros [= <-].
Qed.

Lemma run_produced (src : string) (ops : list TokenStream.op)
    (ss ss' : TokenStream.session) :
  wellFormed (TokenStream.stream ss) ->
  ast.s (TokenStream.stream ss) = src ->
  Forall (producedFrom src) (ast.tokens (TokenStream.stream ss)) ->
  TokenStream.run ops ss = Some ss' ->
  Forall (producedFrom src) (ast.tokens (TokenStream.stream ss')).
Proof.
  revert ss. induction ops as [|o ops IH]; intros ss Hw Hs Hall; cbn.
  - now intros [= <-].
  - destruct (TokenStream.step o ss) as [ss1|] eqn:S; [|discriminate].
    destruct (step_produced src o ss ss1 Hw Hs Hall S) as (A & B & C).
    now apply IH.
Qed.

(** C10.  A read that appends a token skipped whitespace (only when told
    to ignore it) up to the offset [first] of the token's first byte.  For a
    [Number] token [Start] is [first] plus the length of its text, the
    offset one past its last byte, which is where the cursor then stands;
    for an [Ident], [Byte] or [QuotedValue] token [Start] is [first].  This
    holds of every token in the cache after any sequence of operations on a
    stream. *)
Theorem C10_token_start :
  (forall (l : ast.lexer) (tok : ast.Token) (l' : ast.lexer),
      wellFormed l ->
      ast.readToken l = (Ok tok, l') ->
      ast.ID tok <> ast.EOF_TOKEN ->
      exists first,
        bunlex.i (ast.lex l) <= first < len (ast.s l)
        /\ (forall k, bunlex.i (ast.lex l) <= k < first ->
              ast.ignoreSpaces l = true
              /\ bunlex.IsWhitespace (byteAt (ast.s l) k) = true)
        /\ ast.tokens l' = (ast.tokens l ++ [tok])%list
        /\ lexedAt (ast.s l) first tok (bunlex.i (ast.lex l'))
        /\ (ast.ID tok = ast.NUMBER_TOKEN ->
            ast.Start tok = first + len (ast.Text tok)
            /\ ast.Text tok = slice (ast.s l) first (ast.Start tok)
            /\ bunlex.i (ast.lex l') = ast.Start tok)
        /\ (ast.ID tok <> ast.NUMBER_TOKEN -> ast.Start tok = first))
  /\ (forall (src : string) (ignore : bool) (ops : list TokenStream.op)
        (ss : TokenStream.session),
      TokenStream.run ops (TokenStream.start src ignore) = Some ss ->
      Forall (producedFrom src) (ast.tokens (TokenStream.stream ss))).
Proof.
  split.
  - intros l tok l' Hw H Hid. unfold ast.readToken in H.
    destruct (readTokenFrom_lexed _ _ _ _ Hw H Hid)
      as (first & Hf & Hsk & Hlex & Ht & _ & _).
    exists first. destruct (lexedAt_start _ _ _ _ Hlex) as [Hn Ho].
    exact (conj Hf (conj Hsk (conj Ht (conj Hlex (conj Hn Ho))))).
  - intros src ignore ops ss.
    apply run_produced.
    + unfold wellFormed, len. destruct ignore; cbn; repeat split; lia.
    + now destruct ignore.
    + destruct ignore; constructor.
Qed.

Lemma C10_token_start_witness :
  let l := ast.IgnoreSpaces (ast.newLexer "  3.14 + x") in
  exists tok l' first,
    ast.readToken l = (Ok tok, l')
    /\ tok = {| ast.ID := ast.NUMBER_TOKEN; ast.Text := "3.14";
                ast.Start := 6 |}
    /\ first = 2
    /\ lexedAt (ast.s l) first tok (bunlex.i (ast.lex l'))
    /\ ast.Start tok = first + len (ast.Text tok).
Proof.
  cbv zeta.
  destruct (proj1 C10_token_start
              (ast.IgnoreSpaces (ast.newLexer "  3.14 + x"))
              {| ast.ID := ast.NUMBER_TOKEN; ast.Text := "3.14";
                 ast.Start := 6 |}
              (snd (ast.readToken
                      (ast.IgnoreSpaces (ast.newLexer "  3.14 + x")))))
    as (first & Hf & Hsk & Ht & Hlex & Hn & Ho).
  - unfold wellFormed. cbn. repeat split; lia.
  - reflexivity.
  - discriminate.
  - destruct (Hn eq_refl) as (Hstart & _ & _).
    cbn in Hstart. assert (first = 2) by (cbn in Hstart; lia). subst first.
    eexists _, _, 2. repeat split; try reflexivity; assumption.
Defined.

(** * Further properties *)

(** ** The expression compiler, as a whole *)

(** X1.  The expression compiler succeeds exactly on the expressions without
    an unsupported node, and then extends the buffer by the text of the
    expression; otherwise it fails with the unsupported-expression error
    naming the first unsupported node from left to right, whatever comes
    after it. *)
Theorem X1_expr_compiles_or_first_unsupported (env : Env) (e : ast.Expr)
    (b : string) :
  metrics.appendSpanMetricExpr env b e =
  match firstUnsupported e with
  | Some goType => Err (ErrUnsupportedSpanMetricExpr goType)
  | None => Ok (b ++ exprText env e)%string
  end.
Proof.
  revert b.
  induction e as [f n|t|e IH|l IHl op r IHr|ty]; intros b; cbn.
  - reflexivity.
  - reflexivity.
  - rewrite IH. destruct (firstUnsupported e); [reflexivity|].
    now rewrite !append_assoc.
  - rewrite IHl. destruct (firstUnsupported l); [reflexivity|].
    rewrite IHr. destruct (firstUnsupported r); [reflexivity|].
    now rewrite !append_assoc.
  - reflexivity.
Qed.

(** ** Attributes and annotations *)

Lemma attrsFrom_later (env : Env) (attrs : list string) (b : string)
    (i : nat) :
  metrics.attrsFrom env b (S i) attrs
  = (b ++ String.concat ""
            (map (fun attr => ", " ++ CHAttrExpr env attr) attrs))%string.
Proof.
  revert b i. induction attrs as [|attr rest IH]; intros b i.
  - cbn. now rewrite append_nil_r.
  - cbn [metrics.attrsFrom map]. rewrite IH.
    unfold tracing.AppendCHAttrExpr. cbn [Nat.ltb Nat.leb].
    destruct rest as [|a2 rest]; cbn;
      rewrite ?append_nil_r, ?append_assoc; reflexivity.
Qed.

Lemma concat_separated (sep : string) (f : string -> string)
    (x : string) (rest : list string) :
  String.concat sep (map f (x :: rest))
  = (f x ++ String.concat "" (map (fun y => sep ++ f y) rest))%string.
Proof.
  revert x. induction rest as [|y rest IH]; intros x.
  - cbn. now rewrite append_nil_r.
  - change (String.concat sep (map f (x :: y :: rest)))
      with (f x ++ sep ++ String.concat sep (map f (y :: rest)))%string.
    rewrite IH. cbn [map].
    destruct rest as [|z rest]; cbn;
      rewrite ?append_nil_r, ?append_assoc; reflexivity.
Qed.

Lemma attrs_concat (env : Env) (attrs : list string) :
  metrics.compileSpanMetricAttrs env attrs
  = String.concat ", " (map (CHAttrExpr env) attrs).
Proof.
  unfold metrics.compileSpanMetricAttrs.
  destruct attrs as [|attr rest]; [reflexivity|].
  rewrite concat_separated. cbn [metrics.attrsFrom Nat.ltb Nat.leb].
  now rewrite attrsFrom_later.
Qed.

Lemma concat_app (sep : string) (l1 l2 : list string) :
  l1 <> [] -> l2 <> [] ->
  String.concat sep (l1 ++ l2)
  = (String.concat sep l1 ++ sep ++ String.concat sep l2)%string.
Proof.
  intros H1 H2. induction l1 as [|x l1 IH]; [congruence|].
  destruct l1 as [|y l1].
  - destruct l2 as [|z l2]; [congruence | reflexivity].
  - change (String.concat sep ((x :: y :: l1) ++ l2))
      with (x ++ sep ++ String.concat sep ((y :: l1) ++ l2))%string.
    rewrite IH by discriminate.
    change (String.concat sep (x :: y :: l1))
      with (x ++ sep ++ String.concat sep (y :: l1))%string.
    now rewrite !append_assoc.
Qed.

(** X2.  The attribute list is the attribute expressions in the order of
    the attributes, separated by [", "], with no separator before the first
    or after the last; no attribute gives the empty fragment, and the list
    of two non-empty lists put together is their two fragments with one
    [", "] between them. *)
Theorem X2_attrs_joined (env : Env) :
  (forall attrs : list string,
      metrics.compileSpanMetricAttrs env attrs
      = String.concat ", " (map (CHAttrExpr env) attrs))
  /\ metrics.compileSpanMetricAttrs env [] = ""%string
  /\ (forall l1 l2 : list string,
      l1 <> [] -> l2 <> [] ->
      metrics.compileSpanMetricAttrs env (l1 ++ l2)
      = (metrics.compileSpanMetricAttrs env l1 ++ ", "
         ++ metrics.compileSpanMetricAttrs env l2)%string).
Proof.
  split; [exact (attrs_concat env)|]. split; [reflexivity|].
  intros l1 l2 H1 H2. rewrite !attrs_concat, map_app.
  apply concat_app.
  - destruct l1; [congruence | discriminate].
  - destruct l2; [congruence | discriminate].
Qed.

Lemma X2_attrs_joined_witness :
  metrics.compileSpanMetricAttrs Examples.identityEnv
    (["service"; "host"] ++ ["http.method"])
  = (metrics.compileSpanMetricAttrs Examples.identityEnv ["service"; "host"]
     ++ ", "
     ++ metrics.compileSpanMetricAttrs Examples.identityEnv ["http.method"])%string.
Proof.
  apply (proj2 (proj2 (X2_attrs_joined Examples.identityEnv))
           ["service"; "host"]%string ["http.method"]%string);
    discriminate.
Defined.

Lemma annotationsFrom_later (env : Env) (attrs : list string) (b : string)
    (i : nat) :
  metrics.annotationsFrom env b (S i) attrs
  = (b ++ String.concat ""
            (map (fun attr => ", " ++ annotationText env attr) attrs))%string.
Proof.
  revert b i. induction attrs as [|attr rest IH]; intros b i.
  - cbn. now rewrite append_nil_r.
  - cbn [metrics.annotationsFrom map]. rewrite IH.
    unfold tracing.AppendCHAttrExpr, chschema.AppendString, annotationText.
    cbn [Nat.ltb Nat.leb].
    destruct rest as [|a2 rest]; cbn;
      rewrite ?append_nil_r, ?append_assoc; cbn;
      rewrite ?append_assoc; reflexivity.
Qed.

Lemma annotations_concat (env : Env) (attrs : list string) :
  metrics.compileSpanMetricAnnotations env attrs
  = String.concat ", " (map (annotationText env) attrs).
Proof.
  unfold metrics.compileSpanMetricAnnotations.
  destruct attrs as [|attr rest]; [reflexivity|].
  rewrite concat_separated. cbn [metrics.annotationsFrom Nat.ltb Nat.leb].
  rewrite annotationsFrom_later.
  unfold tracing.AppendCHAttrExpr, chschema.AppendString, annotationText.
  rewrite !append_assoc. reflexivity.
Qed.

(** X3.  The annotations fragment is, for each annotation in order, its
    quoted key, [", toString(any("], its attribute expression and ["))"],
    the entries separated by [", "]; no annotation gives the empty
    fragment, and the fragment of two non-empty lists put together is their
    two fragments with one [", "] between them. *)
Theorem X3_annotations_joined (env : Env) :
  (forall attrs : list string,
      metrics.compileSpanMetricAnnotations env attrs
      = String.concat ", " (map (annotationText env) attrs))
  /\ metrics.compileSpanMetricAnnotations env [] = ""%string
  /\ (forall l1 l2 : list string,
      l1 <> [] -> l2 <> [] ->
      metrics.compileSpanMetricAnnotations env (l1 ++ l2)
      = (metrics.compileSpanMetricAnnotations env l1 ++ ", "
         ++ metrics.compileSpanMetricAnnotations env l2)%string).
Proof.
  split; [exact (annotations_concat env)|]. split; [reflexivity|].
  intros l1 l2 H1 H2. rewrite !annotations_concat, map_app.
  apply concat_app.
  - destruct l1; [congruence | discriminate].
  - destruct l2; [congruence | discriminate].
Qed.

Lemma X3_annotations_joined_witness :
  metrics.compileSpanMetricAnnotations Examples.identityEnv
    (["region"] ++ ["zone"])
  = "'region', toString(any(region)), 'zone', toString(any(zone))"%string.
Proof.
  rewrite (proj2 (proj2 (X3_annotations_joined Examples.identityEnv))
             ["region"]%string ["zone"]%string); [reflexivity| |];
    discriminate.
Defined.

(** ** The outcome of the filter compiler *)

Lemma whereConds_outcome (env : Env) (w : string)
    (conds : list tracingupql.Cond) (b : string) :
  if aggSurvivor env conds
  then metrics.whereConds env w b conds = Err (ErrCantFilterByAggColumns w)
  else exists out, metrics.whereConds env w b conds = Ok out.
Proof.
  unfold aggSurvivor. revert b.
  induction conds as [|cond rest IH]; intros b; cbn.
  - now exists b.
  - destruct (CompileCond env cond metrics.spanMetricMinutes) as [bb|];
      [|apply IH].
    cbn. destruct (IsAggColumn env (tracingupql.Left cond)); cbn;
      [reflexivity | apply IH].
Qed.

(** X4.  The filter compiler has three outcomes.  It fails with the
    can't-parse error exactly when the parser does not return one part
    that is a [Where]; given such a part it fails with the
    aggregate-in-filter error exactly when a condition with a non-nil
    fragment is on an aggregate column, and succeeds otherwise.  Both
    errors quote the normalized filter text. *)
Theorem X4_where_outcomes (env : Env) (w : string) :
  match parsedWhere env w with
  | None =>
      metrics.compileSpanMetricWhere env w
      = Err (ErrCantParseMetricWhere (whereText w))
  | Some wh =>
      if aggSurvivor env (tracingupql.Conds wh)
      then metrics.compileSpanMetricWhere env w
           = Err (ErrCantFilterByAggColumns (whereText w))
      else exists fragment,
             metrics.compileSpanMetricWhere env w = Ok fragment
  end.
Proof.
  rewrite compileSpanMetricWhere_unfold. unfold parsedWhere.
  destruct (tracingupqlParse env (whereText w)) as [|part [|p2 ps]];
    try reflexivity.
  destruct (tracingupql.AST part) as [wh|goType]; [|reflexivity].
  apply whereConds_outcome.
Qed.

(** X5.  Conditions whose compiled fragment is nil have no effect on the
    filter: the loop gives the same result on the list without them, and a
    list of such conditions only leaves the buffer as it was, so that a
    filter made of them compiles to the empty fragment. *)
Theorem X5_nil_conditions_dropped (env : Env) (w b : string)
    (conds : list tracingupql.Cond) :
  metrics.whereConds env w b conds
  = metrics.whereConds env w b (filter (survives env) conds)
  /\ (filter (survives env) conds = [] ->
      metrics.whereConds env w b conds = Ok b).
Proof.
  assert (H : forall b0,
    metrics.whereConds env w b0 conds
    = metrics.whereConds env w b0 (filter (survives env) conds)).
  { induction conds as [|cond rest IH]; intros b0; [reflexivity|].
    cbn [filter]. unfold survives at 1.
    destruct (CompileCond env cond metrics.spanMetricMinutes) as [bb|] eqn:E.
    - cbn [metrics.whereConds]. rewrite E.
      destruct (IsAggColumn env (tracingupql.Left cond)); [reflexivity|].
      apply IH.
    - cbn [metrics.whereConds]. rewrite E. apply IH. }
  split; [apply H|]. intros E. now rewrite H, E.
Qed.

Lemma X5_nil_conditions_dropped_witness :
  let env := Examples.withAgg "count" Examples.identityEnv in
  metrics.whereConds env "where a exists AND count exists" ""
    [Examples.cond "a" "exists" "" " AND" false;
     Examples.cond "count" "exists" "" " AND" true]
  = Ok ""%string.
Proof.
  cbv zeta.
  apply (proj2 (X5_nil_conditions_dropped
                  (Examples.withAgg "count" Examples.identityEnv)
                  "where a exists AND count exists" ""
                  [Examples.cond "a" "exists" "" " AND" false;
                   Examples.cond "count" "exists" "" " AND" true])).
  reflexivity.
Defined.

(** ** What [createMatView] hands to the store *)

Lemma withWhere_frame (env : Env) (metric : bunconf.SpanMetric)
    (q q' : ch.CreateViewQuery) :
  metrics.withWhere env metric q = Ok q' ->
  sameFrame q q' /\ ch.Columns q' = ch.Columns q.
Proof.
  unfold metrics.withWhere, sameFrame.
  destruct (negb _); [|intros [= <-]; now repeat split].
  destruct (metrics.compileSpanMetricWhere env _); [|discriminate].
  destruct (negb _); intros [= <-]; now repeat split.
Qed.

Lemma instrumentColumns_frame (env : Env) (instrument valueExpr : string)
    (q q' : ch.CreateViewQuery) :
  metrics.instrumentColumns env instrument valueExpr q = Some q' ->
  sameFrame q q'
  /\ ch.Wheres q' = ch.Wheres q
  /\ exists cols, cols <> []
                  /\ ch.Columns q' = (ch.Columns q ++ cols)%list.
Proof.
  unfold metrics.instrumentColumns, sameFrame.
  repeat (destruct (_ =? _)%string;
          [intros [= <-]; cbn; repeat split;
           rewrite <- ?app_assoc; eexists; split; [|reflexivity];
           discriminate|]).
  discriminate.
Qed.

Lemma base_with_attrs_annotations (env : Env) (metric : bunconf.SpanMetric) :
  let q :=
    metrics.withAnnotations env metric
      (metrics.withAttrs env metric
         (metrics.baseQuery env (metrics.viewNameOf metric) metric)) in
  ch.IsMaterialized q = true
  /\ ch.ViewName q = metrics.viewNameOf metric
  /\ ch.Cluster q = CHSchemaCluster env
  /\ ch.To q = "measure_minutes"%string
  /\ ch.Tables q = ["spans_index AS s"%string]
  /\ ch.Group q = groupEntries env metric
  /\ ch.Wheres q = []
  /\ ch.Columns q
     = (baseColumns metric ++ attrColumns env metric
        ++ annotationColumns env metric)%list.
Proof.
  unfold metrics.withAnnotations, metrics.withAttrs, groupEntries,
    attrColumns, annotationColumns.
  rewrite attrs_concat, annotations_concat.
  destruct (bunconf.Attrs metric) as [|a attrs];
    destruct (bunconf.Annotations metric) as [|n anns];
    cbn -[String.concat]; repeat split.
Qed.

(** X6.  [createMatView] first drops the view of the metric, before it
    validates anything: the drop is its first call to the store in every
    run.  It makes at most one more call, the creation of the view, and
    then returns what the store answers to it; when it makes no second
    call it returns an error.  So a metric whose value, filter or
    instrument is rejected has had its existing view dropped and none
    created. *)
Theorem X6_drop_before_validation (env : Env) (metric : bunconf.SpanMetric) :
  let drop := metrics.dropViewStmt env (metrics.viewNameOf metric) in
  (fst (metrics.createMatView env metric) = [drop]
   /\ snd (metrics.createMatView env metric) <> None)
  \/ (exists q,
        fst (metrics.createMatView env metric) = [drop; ch.CreateViewStmt q]
        /\ snd (metrics.createMatView env metric)
           = Exec env (ch.CreateViewStmt q)
        /\ Exec env drop = None
        /\ (exists valueExpr,
              metrics.compileSpanMetricValue env (bunconf.Value metric)
              = Ok valueExpr)
        /\ In (bunconf.Instrument metric)
             [GaugeInstrument env; AdditiveInstrument env;
              CounterInstrument env; HistogramInstrument env]).
Proof.
  cbv zeta. unfold metrics.createMatView.
  destruct (Exec env (metrics.dropViewStmt env (metrics.viewNameOf metric)))
    as [err|]; [left; split; [reflexivity | discriminate]|].
  destruct (metrics.compileSpanMetricValue env (bunconf.Value metric))
    as [valueExpr|err]; [|left; split; [reflexivity | discriminate]].
  destruct (metrics.withWhere env metric _) as [q1|err];
    [|left; split; [reflexivity | discriminate]].
  destruct (metrics.instrumentColumns env _ valueExpr q1) as [q2|] eqn:I;
    [|left; split; [reflexivity | discriminate]].
  right. exists q2. cbn [fst snd]. repeat split; [now exists valueExpr|].
  revert I. unfold metrics.instrumentColumns. cbn [In].
  destruct (String.eqb_spec (bunconf.Instrument metric)
              (GaugeInstrument env)) as [E|_]; [intros _; auto|].
  destruct (String.eqb_spec (bunconf.Instrument metric)
              (AdditiveInstrument env)) as [E|_]; [intros _; auto|].
  destruct (String.eqb_spec (bunconf.Instrument metric)
              (CounterInstrument env)) as [E|_]; [intros _; auto|].
  destruct (String.eqb_spec (bunconf.Instrument metric)
              (HistogramInstrument env)) as [E|_]; [intros _; auto 6|].
  discriminate.
Qed.

(** X7.  The view that a successful [createMatView] creates is
    materialized, on the configured cluster, into [measure_minutes], from
    [spans_index AS s]; it is grouped by project and minute, and also by
    the joined attribute list when the metric has attributes; its columns
    are the project, metric, time and instrument columns, then the
    attribute hash, keys and values when the metric has attributes, then
    the annotations map when it has annotations, then the columns of the
    instrument. *)
Theorem X7_view_shape (env : Env) (metric : bunconf.SpanMetric) :
  snd (metrics.createMatView env metric) = None ->
  exists q valueColumns,
    In (ch.CreateViewStmt q) (fst (metrics.createMatView env metric))
    /\ ch.IsMaterialized q = true
    /\ ch.Cluster q = CHSchemaCluster env
    /\ ch.To q = "measure_minutes"%string
    /\ ch.Tables q = ["spans_index AS s"%string]
    /\ ch.Group q = groupEntries env metric
    /\ valueColumns <> []
    /\ ch.Columns q
       = (baseColumns metric ++ attrColumns env metric
          ++ annotationColumns env metric ++ valueColumns)%list.
Proof.
  unfold metrics.createMatView.
  destruct (Exec env _); [discriminate|].
  destruct (metrics.compileSpanMetricValue env _) as [valueExpr|];
    [|discriminate].
  destruct (metrics.withWhere env metric _) as [q1|] eqn:W; [|discriminate].
  destruct (metrics.instrumentColumns env _ valueExpr q1) as [q2|] eqn:I;
    [|discriminate].
  cbn [fst snd]. intros _.
  destruct (withWhere_frame _ _ _ _ W)
    as ((W1 & W2 & W3 & W4 & W5 & W6) & WC).
  destruct (instrumentColumns_frame _ _ _ _ _ I)
    as ((I1 & I2 & I3 & I4 & I5 & I6) & _ & cols & Hne & IC).
  destruct (base_with_attrs_annotations env metric)
    as (B1 & B2 & B3 & B4 & B5 & B6 & B7 & B8).
  exists q2, cols. split; [right; left; reflexivity|].
  repeat split; try congruence.
  rewrite IC, WC, B8. now rewrite <- !app_assoc.
Qed.

Lemma X7_view_shape_witness :
  let env :=
    Examples.withUpqlParse [Examples.selector (ast.Name "" "duration")]
      Examples.identityEnv in
  let metric :=
    {| bunconf.Name := "http.requests"; bunconf.Description := "";
       bunconf.Unit := ""; bunconf.Instrument := "counter";
       bunconf.Value := "duration";
       bunconf.Attrs := ["service"; "host"]%string;
       bunconf.Annotations := ["region"]%string;
       bunconf.Where := "" |} in
  exists q valueColumns,
    In (ch.CreateViewStmt q) (fst (metrics.createMatView env metric))
    /\ ch.IsMaterialized q = true
    /\ ch.Cluster q = CHSchemaCluster env
    /\ ch.To q = "measure_minutes"%string
    /\ ch.Tables q = ["spans_index AS s"%string]
    /\ ch.Group q = groupEntries env metric
    /\ valueColumns <> []
    /\ ch.Columns q
       = (baseColumns metric ++ attrColumns env metric
          ++ annotationColumns env metric ++ valueColumns)%list.
Proof.
  cbv zeta. apply X7_view_shape. reflexivity.
Defined.

(** X8.  A successful [createMatView] gives the view no filter when the
    metric has no filter text and when its filter compiles to the empty
    fragment, and otherwise the one filter its text compiles to. *)
Theorem X8_view_filter (env : Env) (metric : bunconf.SpanMetric) :
  snd (metrics.createMatView env metric) = None ->
  exists q,
    In (ch.CreateViewStmt q) (fst (metrics.createMatView env metric))
    /\ ((bunconf.Where metric = ""%string /\ ch.Wheres q = [])
        \/ (bunconf.Where metric <> ""%string
            /\ exists fragment,
                 metrics.compileSpanMetricWhere env (bunconf.Where metric)
                 = Ok fragment
                 /\ ((fragment = ""%string /\ ch.Wheres q = [])
                     \/ (fragment <> ""%string
                         /\ ch.Wheres q = [fragment])))).
Proof.
  unfold metrics.createMatView.
  destruct (Exec env _); [discriminate|].
  destruct (metrics.compileSpanMetricValue env _) as [valueExpr|];
    [|discriminate].
  destruct (metrics.withWhere env metric _) as [q1|] eqn:W; [|discriminate].
  destruct (metrics.instrumentColumns env _ valueExpr q1) as [q2|] eqn:I;
    [|discriminate].
  cbn [fst snd]. intros _. exists q2. split; [right; left; reflexivity|].
  destruct (instrumentColumns_frame _ _ _ _ _ I) as (_ & IW & _).
  destruct (base_with_attrs_annotations env metric)
    as (_ & _ & _ & _ & _ & _ & B7 & _).
  rewrite IW. revert W. unfold metrics.withWhere.
  destruct (String.eqb_spec (bunconf.Where metric) "") as [E|N]; cbn [negb].
  - intros [= <-]. left. now split.
  - destruct (metrics.compileSpanMetricWhere env (bunconf.Where metric))
      as [fragment|]; [|discriminate].
    right. split; [exact N|]. exists fragment. split; [reflexivity|].
    revert W. destruct (String.eqb_spec fragment "") as [E|N2]; cbn [negb];
      intros [= <-].
    + left. now split.
    + right. split; [exact N2|]. unfold ch.Where. cbn [ch.Wheres].
      now rewrite B7.
Qed.

Lemma X8_view_filter_witness :
  let env :=
    Examples.withConds [Examples.cond "a" "exists" "" " AND" false]
      (Examples.withAgg "count"
         (Examples.withUpqlParse [Examples.selector (ast.Name "" "duration")]
            Examples.identityEnv)) in
  let metric :=
    {| bunconf.Name := "http.requests"; bunconf.Description := "";
       bunconf.Unit := ""; bunconf.Instrument := "gauge";
       bunconf.Value := "duration"; bunconf.Attrs := [];
       bunconf.Annotations := []; bunconf.Where := "a exists" |} in
  exists q,
    In (ch.CreateViewStmt q) (fst (metrics.createMatView env metric))
    /\ ((bunconf.Where metric = ""%string /\ ch.Wheres q = [])
        \/ (bunconf.Where metric <> ""%string
            /\ exists fragment,
                 metrics.compileSpanMetricWhere env (bunconf.Where metric)
                 = Ok fragment
                 /\ ((fragment = ""%string /\ ch.Wheres q = [])
                     \/ (fragment <> ""%string
                         /\ ch.Wheres q = [fragment])))).
Proof.
  cbv zeta. apply X8_view_filter. reflexivity.
Defined.

(** ** The callers of [createMatView] *)

Section Callers.

Variable UpsertMetric : spanmetrics.Metric -> option error.
Variable env : Env.
Variable conf : spanmetrics.Config.

Lemma upsertProjects_all (metric : bunconf.SpanMetric)
    (projects : list spanmetrics.Project) :
  Forall (upsertOk UpsertMetric metric) projects ->
  spanmetrics.upsertProjects UpsertMetric projects metric
  = (map (upsertCall metric) projects, None).
Proof.
  induction projects as [|p rest IH]; intros H; [reflexivity|].
  inversion H as [|p' rest' Hp Hrest]; subst.
  cbn [spanmetrics.upsertProjects]. fold (metricFor metric p).
  unfold upsertOk in Hp. rewrite Hp, (IH Hrest). reflexivity.
Qed.

Lemma upsertProjects_stops (metric : bunconf.SpanMetric)
    (before : list spanmetrics.Project) (p : spanmetrics.Project)
    (after : list spanmetrics.Project) (err : error) :
  Forall (upsertOk UpsertMetric metric) before ->
  UpsertMetric (metricFor metric p) = Some err ->
  spanmetrics.upsertProjects UpsertMetric (before ++ p :: after) metric
  = (map (upsertCall metric) (before ++ [p]), Some err).
Proof.
  intros Hb Hp. induction before as [|p0 before IH].
  - cbn [app spanmetrics.upsertProjects]. fold (metricFor metric p).
    now rewrite Hp.
  - inversion Hb as [|p' rest' H0 Hrest]; subst.
    cbn [app spanmetrics.upsertProjects]. fold (metricFor metric p0).
    unfold upsertOk in H0. rewrite H0, (IH Hrest). reflexivity.
Qed.

Lemma upsertProjects_ok (metric : bunconf.SpanMetric)
    (projects : list spanmetrics.Project) :
  snd (spanmetrics.upsertProjects UpsertMetric projects metric) = None ->
  Forall (upsertOk UpsertMetric metric) projects.
Proof.
  induction projects as [|p rest IH]; [constructor|].
  cbn [spanmetrics.upsertProjects]. fold (metricFor metric p).
  destruct (UpsertMetric (metricFor metric p)) eqn:E; [discriminate|].
  destruct (spanmetrics.upsertProjects UpsertMetric rest metric) as [c r].
  cbn [snd] in *. intros H. constructor; [exact E | now apply IH].
Qed.

(** X9.  [createSpanMetricMeta] upserts the metadata of the metric for the
    projects of the configuration in their order and stops at the first
    upsert that fails, returning its error: the projects after it are not
    upserted, those before it stay upserted.  It succeeds exactly when
    every upsert does, and has then made one per project. *)
Theorem X9_meta_upserts_in_order (metric : bunconf.SpanMetric) :
  (snd (spanmetrics.createSpanMetricMeta UpsertMetric conf metric) = None
   <-> Forall (fun project => UpsertMetric (metricFor metric project) = None)
         (spanmetrics.Projects conf))
  /\ (snd (spanmetrics.createSpanMetricMeta UpsertMetric conf metric) = None ->
      fst (spanmetrics.createSpanMetricMeta UpsertMetric conf metric)
      = map (fun project => spanmetrics.UpsertCall (metricFor metric project))
          (spanmetrics.Projects conf))
  /\ (forall before p after err,
        spanmetrics.Projects conf = (before ++ p :: after)%list ->
        Forall (fun project => UpsertMetric (metricFor metric project) = None)
          before ->
        UpsertMetric (metricFor metric p) = Some err ->
        spanmetrics.createSpanMetricMeta UpsertMetric conf metric
        = (map (fun project =>
                  spanmetrics.UpsertCall (metricFor metric project))
             (before ++ [p]),
           Some err)).
Proof.
  unfold spanmetrics.createSpanMetricMeta. split; [|split].
  - split; [apply upsertProjects_ok|].
    intros H. now rewrite (upsertProjects_all metric _ H).
  - intros H. apply upsertProjects_ok in H.
    now rewrite (upsertProjects_all metric _ H).
  - intros before p after err E Hb Hp. rewrite E.
    now apply upsertProjects_stops.
Qed.

(** X10.  [createSpanMetric] calls nothing when the instrument is empty.
    It hands a statement to the store only after the metadata of every
    project was upserted successfully: its calls are then those upserts
    followed by the statements of [createMatView].  It succeeds exactly
    when the instrument is not empty, every upsert succeeds and
    [createMatView] succeeds. *)
Theorem X10_upserts_before_view (metric : bunconf.SpanMetric) :
  let run := spanmetrics.createSpanMetric UpsertMetric env conf metric in
  (bunconf.Instrument metric = ""%string ->
   run = ([], Some spanmetrics.ErrMetricInstrumentEmpty))
  /\ (forall stmt,
        In (spanmetrics.StmtCall stmt) (fst run) ->
        bunconf.Instrument metric <> ""%string
        /\ Forall (fun project =>
                     UpsertMetric (metricFor metric project) = None)
             (spanmetrics.Projects conf)
        /\ fst run
           = (map (fun project =>
                     spanmetrics.UpsertCall (metricFor metric project))
                (spanmetrics.Projects conf)
              ++ map spanmetrics.StmtCall
                   (fst (metrics.createMatView env metric)))%list)
  /\ (snd run = None
      <-> bunconf.Instrument metric <> ""%string
          /\ Forall (fun project =>
                       UpsertMetric (metricFor metric project) = None)
               (spanmetrics.Projects conf)
          /\ snd (metrics.createMatView env metric) = None).
Proof.
  cbv zeta. unfold spanmetrics.createSpanMetric,
    spanmetrics.createSpanMetricMeta.
  destruct (String.eqb_spec (bunconf.Instrument metric) "") as [E|N].
  { split; [reflexivity|]. split.
    - intros stmt [].
    - split; [discriminate | now intros [H _]]. }
  split; [congruence|].
  destruct (spanmetrics.upsertProjects UpsertMetric
              (spanmetrics.Projects conf) metric) as [calls [err|]] eqn:U.
  - assert (Hcalls : forall stmt, ~ In (spanmetrics.StmtCall stmt) calls).
    { clear N. revert calls U.
      induction (spanmetrics.Projects conf) as [|p rest IH];
        intros calls U stmt; cbn [spanmetrics.upsertProjects] in U.
      - discriminate.
      - destruct (UpsertMetric _).
        + injection U as <- _. intros [H|[]]. discriminate.
        + destruct (spanmetrics.upsertProjects UpsertMetric rest metric)
            as [c r]. injection U as <- ->. intros [H|H]; [discriminate|].
          exact (IH c eq_refl stmt H). }
    split.
    + intros stmt H. exfalso. exact (Hcalls stmt H).
    + split; [discriminate|]. intros (_ & Hall & _).
      rewrite (upsertProjects_all metric _ Hall) in U. discriminate.
  - assert (Hall : Forall (upsertOk UpsertMetric metric) (spanmetrics.Projects conf)).
    { apply upsertProjects_ok. now rewrite U. }
    rewrite (upsertProjects_all metric _ Hall) in U. injection U as <-.
    destruct (metrics.createMatView env metric) as [stmts [err|]]; cbn [fst snd].
    + split; [now intros stmt _|].
      split; [discriminate | now intros (_ & _ & H)].
    + split; [now intros stmt _|]. now split.
Qed.

Lemma initMetrics_step (metric : bunconf.SpanMetric)
    (rest : list bunconf.SpanMetric) :
  spanmetrics.initMetrics UpsertMetric env conf (metric :: rest) =
  match initOne UpsertMetric env conf metric with
  | (calls, Some err) => (calls, Some err)
  | (calls, None) =>
      let (calls', res) := spanmetrics.initMetrics UpsertMetric env conf rest in
      ((calls ++ calls')%list, res)
  end.
Proof.
  cbn [spanmetrics.initMetrics]. unfold initOne.
  destruct (bunconf.Name metric =? "")%string; [reflexivity|].
  destruct (spanmetrics.createSpanMetric UpsertMetric env conf metric)
    as [calls [err|]]; reflexivity.
Qed.

Lemma initMetrics_all (ms : list bunconf.SpanMetric) :
  Forall (initOk UpsertMetric env conf) ms ->
  spanmetrics.initMetrics UpsertMetric env conf ms
  = (flat_map (fun m => fst (initOne UpsertMetric env conf m)) ms, None).
Proof.
  induction ms as [|m rest IH]; intros H; [reflexivity|].
  inversion H as [|m' rest' Hm Hrest]; subst.
  rewrite initMetrics_step, (IH Hrest). unfold initOk in Hm.
  destruct (initOne UpsertMetric env conf m) as [calls res] eqn:E.
  cbn [snd] in Hm. subst res. cbn [flat_map]. now rewrite E.
Qed.

Lemma initMetrics_stops (before : list bunconf.SpanMetric)
    (m : bunconf.SpanMetric) (after : list bunconf.SpanMetric)
    (err : spanmetrics.initError) :
  Forall (initOk UpsertMetric env conf) before ->
  snd (initOne UpsertMetric env conf m) = Some err ->
  spanmetrics.initMetrics UpsertMetric env conf (before ++ m :: after)
  = ((flat_map (fun m => fst (initOne UpsertMetric env conf m)) before
      ++ fst (initOne UpsertMetric env conf m))%list,
     Some err).
Proof.
  intros Hb Hm. induction before as [|m0 before IH].
  - cbn [app flat_map]. rewrite initMetrics_step.
    destruct (initOne UpsertMetric env conf m) as [calls res].
    cbn [fst snd] in *. now subst res.
  - inversion Hb as [|m' rest' H0 Hrest]; subst.
    cbn [app]. rewrite initMetrics_step, (IH Hrest). unfold initOk in H0.
    destruct (initOne UpsertMetric env conf m0) as [calls res] eqn:E.
    cbn [snd] in H0. subst res. cbn [flat_map]. rewrite E. cbn [fst].
    now rewrite app_assoc.
Qed.

Lemma initMetrics_ok (ms : list bunconf.SpanMetric) :
  snd (spanmetrics.initMetrics UpsertMetric env conf ms) = None ->
  Forall (initOk UpsertMetric env conf) ms.
Proof.
  induction ms as [|m rest IH]; [constructor|].
  rewrite initMetrics_step. unfold initOk at 1.
  destruct (initOne UpsertMetric env conf m) as [calls [err|]] eqn:E;
    [discriminate|].
  destruct (spanmetrics.initMetrics UpsertMetric env conf rest) as [c r].
  cbn [snd] in *. intros H. constructor; [now rewrite E | now apply IH].
Qed.

(** X11.  [initSpanMetrics] handles the metrics of the configuration in
    their order and stops at the first one that fails, returning its error:
    a metric with an empty name fails without any call to the store, and
    any other metric fails when [createSpanMetric] does, its error wrapped
    with the metric name.  The metrics after the failing one are not
    handled, and what was done for the earlier ones stays done.  It
    succeeds exactly when every metric does, and its calls are then those
    of the metrics in order. *)
Theorem X11_init_stops_at_first_failure :
  let one := initOne UpsertMetric env conf in
  (forall metric,
      bunconf.Name metric = ""%string ->
      one metric = ([], Some spanmetrics.ErrMetricNameEmpty))
  /\ (forall metric,
        bunconf.Name metric <> ""%string ->
        fst (one metric)
        = fst (spanmetrics.createSpanMetric UpsertMetric env conf metric)
        /\ snd (one metric)
           = option_map
               (spanmetrics.ErrCreateSpanMetricFailed (bunconf.Name metric))
               (snd (spanmetrics.createSpanMetric UpsertMetric env conf
                       metric)))
  /\ (snd (spanmetrics.initSpanMetrics UpsertMetric env conf) = None
      <-> Forall (fun metric => snd (one metric) = None)
            (spanmetrics.MetricsFromSpans conf))
  /\ (snd (spanmetrics.initSpanMetrics UpsertMetric env conf) = None ->
      fst (spanmetrics.initSpanMetrics UpsertMetric env conf)
      = flat_map (fun metric => fst (one metric))
          (spanmetrics.MetricsFromSpans conf))
  /\ (forall before metric after err,
        spanmetrics.MetricsFromSpans conf = (before ++ metric :: after)%list ->
        Forall (fun m => snd (one m) = None) before ->
        snd (one metric) = Some err ->
        spanmetrics.initSpanMetrics UpsertMetric env conf
        = ((flat_map (fun m => fst (one m)) before ++ fst (one metric))%list,
           Some err)).
Proof.
  cbv zeta. unfold spanmetrics.initSpanMetrics.
  split; [|split; [|split; [|split]]].
  - intros metric E. unfold initOne. now rewrite E.
  - intros metric N. unfold initOne.
    destruct (String.eqb_spec (bunconf.Name metric) ""); [congruence|].
    destruct (spanmetrics.createSpanMetric UpsertMetric env conf metric)
      as [calls [err|]]; now split.
  - split; [apply initMetrics_ok|].
    intros H. now rewrite (initMetrics_all _ H).
  - intros H. apply initMetrics_ok in H. now rewrite (initMetrics_all _ H).
  - intros before metric after err E Hb Hm. rewrite E.
    now apply initMetrics_stops.
Qed.

End Callers.

Lemma X9_meta_upserts_in_order_witness :
  let upsert (m : spanmetrics.Metric) :=
    if spanmetrics.ProjectID m =? 2
    then Some (ErrCollaborator "read-only project") else None in
  let conf :=
    {| spanmetrics.MetricsFromSpans := [];
       spanmetrics.Projects :=
         [{| spanmetrics.ID := 1 |}; {| spanmetrics.ID := 2 |};
          {| spanmetrics.ID := 3 |}] |} in
  let metric := Examples.metric "http.requests" "counter" in
  spanmetrics.createSpanMetricMeta upsert conf metric
  = ([spanmetrics.UpsertCall (metricFor metric {| spanmetrics.ID := 1 |});
      spanmetrics.UpsertCall (metricFor metric {| spanmetrics.ID := 2 |})],
     Some (ErrCollaborator "read-only project")).
Proof.
  cbv zeta.
  apply (proj2 (proj2 (X9_meta_upserts_in_order
           (fun m => if spanmetrics.ProjectID m =? 2
                     then Some (ErrCollaborator "read-only project")
                     else None)
           {| spanmetrics.MetricsFromSpans := [];
              spanmetrics.Projects :=
                [{| spanmetrics.ID := 1 |}; {| spanmetrics.ID := 2 |};
                 {| spanmetrics.ID := 3 |}] |}
           (Examples.metric "http.requests" "counter")))
           [{| spanmetrics.ID := 1 |}] {| spanmetrics.ID := 2 |}
           [{| spanmetrics.ID := 3 |}]
           (ErrCollaborator "read-only project")).
  - reflexivity.
  - repeat constructor.
  - reflexivity.
Defined.

Lemma X10_upserts_before_view_witness :
  let upsert (m : spanmetrics.Metric) : option error := None in
  let env :=
    Examples.withUpqlParse [Examples.selector (ast.Name "" "duration")]
      Examples.identityEnv in
  let conf :=
    {| spanmetrics.MetricsFromSpans := [];
       spanmetrics.Projects :=
         [{| spanmetrics.ID := 1 |}; {| spanmetrics.ID := 2 |}] |} in
  let metric := Examples.metric "http.requests" "bogus" in
  fst (spanmetrics.createSpanMetric upsert env conf metric)
  = (map (fun project => spanmetrics.UpsertCall (metricFor metric project))
       (spanmetrics.Projects conf)
     ++ map spanmetrics.StmtCall (fst (metrics.createMatView env metric)))%list.
Proof.
  cbv zeta.
  apply (proj1 (proj2 (X10_upserts_before_view
           (fun _ => None)
           (Examples.withUpqlParse
              [Examples.selector (ast.Name "" "duration")]
              Examples.identityEnv)
           {| spanmetrics.MetricsFromSpans := [];
              spanmetrics.Projects :=
                [{| spanmetrics.ID := 1 |}; {| spanmetrics.ID := 2 |}] |}
           (Examples.metric "http.requests" "bogus")))
           (metrics.dropViewStmt
              (Examples.withUpqlParse
                 [Examples.selector (ast.Name "" "duration")]
                 Examples.identityEnv)
              "metrics_http_requests_mv")).
  vm_compute. right. right. left. reflexivity.
Defined.

Lemma X11_init_stops_at_first_failure_witness :
  let upsert (m : spanmetrics.Metric) : option error := None in
  let env :=
    Examples.withUpqlParse [Examples.selector (ast.Name "" "duration")]
      Examples.identityEnv in
  let first := Examples.metric "http.requests" "counter" in
  let unnamed := Examples.metric "" "counter" in
  let last := Examples.metric "db.queries" "gauge" in
  let conf :=
    {| spanmetrics.MetricsFromSpans := [first; unnamed; last];
       spanmetrics.Projects := [{| spanmetrics.ID := 1 |}] |} in
  spanmetrics.initSpanMetrics upsert env conf
  = ((flat_map (fun m => fst (initOne upsert env conf m)) [first]
      ++ fst (initOne upsert env conf unnamed))%list,
     Some spanmetrics.ErrMetricNameEmpty).
Proof.
  cbv zeta.
  apply (proj2 (proj2 (proj2 (proj2 (X11_init_stops_at_first_failure
           (fun _ => None)
           (Examples.withUpqlParse
              [Examples.selector (ast.Name "" "duration")]
              Examples.identityEnv)
           {| spanmetrics.MetricsFromSpans :=
                [Examples.metric "http.requests" "counter";
                 Examples.metric "" "counter";
                 Examples.metric "db.queries" "gauge"];
              spanmetrics.Projects := [{| spanmetrics.ID := 1 |}] |}))))
           [Examples.metric "http.requests" "counter"]
           (Examples.metric "" "counter")
           [Examples.metric "db.queries" "gauge"]
           spanmetrics.ErrMetricNameEmpty).
  - reflexivity.
  - repeat constructor.
  - reflexivity.
Defined.

(** ** The token stream: end of input, peeking and replay *)

Lemma readTokenFrom_invalid (fuel : nat) (l : ast.lexer) :
  bunlex.Valid (ast.lex l) = false ->
  ast.readTokenFrom fuel l = (Ok ast.eofToken, l).
Proof.
  intros V. destruct fuel as [|fuel]; cbn [ast.readTokenFrom];
    [reflexivity | now rewrite V].
Qed.

(** A read that returns the end of input stopped at the end of the source,
    having met only whitespace that it was told to ignore. *)
Lemma readTokenFrom_eof (fuel : nat) (l : ast.lexer) (tok : ast.Token)
    (l' : ast.lexer) :
  wellFormed l ->
  (bunlex.remaining (ast.lex l) <= fuel)%nat ->
  ast.readTokenFrom fuel l = (Ok tok, l') ->
  ast.ID tok = ast.EOF_TOKEN ->
  tok = ast.eofToken
  /\ ast.tokens l' = ast.tokens l
  /\ bunlex.Valid (ast.lex l') = false
  /\ (forall k, bunlex.i (ast.lex l) <= k < len (ast.s l) ->
        ast.ignoreSpaces l = true
        /\ bunlex.IsWhitespace (byteAt (ast.s l) k) = true).
Proof.
  revert l. induction fuel as [|fuel IH]; intros l [Hs Hi] Hfuel;
    cbn [ast.readTokenFrom].
  - intros [= <- <-] _.
    assert (V : bunlex.Valid (ast.lex l) = false).
    { unfold bunlex.Valid. apply Z.ltb_ge.
      unfold bunlex.remaining in Hfuel. lia. }
    repeat split; try assumption;
      unfold bunlex.Valid in V; apply Z.ltb_ge in V; rewrite Hs in V; lia.
  - destruct (bunlex.Valid (ast.lex l)) eqn:V; cbn [negb].
    2:{ intros [= <- <-] _.
        repeat split; try assumption;
          unfold bunlex.Valid in V; apply Z.ltb_ge in V; rewrite Hs in V;
          lia. }
    pose proof (proj1 (Valid_iff _) V) as Hlt. rewrite Hs in Hlt.
    assert (Hc : bunlex.PeekByte (ast.lex l)
                 = byteAt (ast.s l) (bunlex.i (ast.lex l))).
    { unfold bunlex.PeekByte. now rewrite V, Hs. }
    unfold bunlex.NextByte. cbv beta iota zeta.
    set (c := bunlex.PeekByte (ast.lex l)) in *.
    set (l1 := ast.setLex l (bunlex.Advance (ast.lex l))).
    unfold ast.quotedValue, ast.ident, ast.charToken, ast.number, ast.token.
    destruct ((c =? "'")%char || (c =? "034")%char)%bool.
    { destruct (bunlex.ReadUnquoted c (ast.lex l1)) as [[?|?] ?];
        intros [= <- <-]; discriminate. }
    destruct ((c =? "(")%char || (c =? ")")%char || (c =? ",")%char)%bool.
    { intros [= <- <-]; discriminate. }
    destruct (c =? "_")%char; [intros [= <- <-]; discriminate|].
    destruct (c =? "$")%char; [intros [= <- <-]; discriminate|].
    destruct (ast.ignoreSpaces l1 && bunlex.IsWhitespace c)%bool eqn:W.
    { intros H Hid. apply andb_true_iff in W. destruct W as [Wi Ww].
      destruct (IH l1) as (E1 & E2 & E3 & E4); try assumption.
      - split; [exact Hs | cbn; lia].
      - unfold bunlex.remaining in *. cbn. lia.
      - split; [exact E1|]. split; [exact E2|]. split; [exact E3|].
        intros k Hk.
        destruct (Z.eq_dec k (bunlex.i (ast.lex l))) as [->|Hne].
        + split; [exact Wi | now rewrite <- Hc].
        + apply (E4 k). cbn. lia. }
    destruct (bunlex.IsDigit c).
    { destruct (bunlex.Number _) as [? ?]. intros [= <- <-]; discriminate. }
    destruct (bunlex.IsAlpha c); intros [= <- <-]; discriminate.
Qed.

Lemma ResetPos_same (l : ast.lexer) : ast.ResetPos (ast.pos l) l = l.
Proof. now destruct l. Qed.

Lemma nth_error_last (A : Type) (xs : list A) (x : A) (p : Z) :
  p = Z.of_nat (List.length xs) ->
  nth_error (xs ++ [x]) (Z.to_nat p) = Some x.
Proof.
  intros ->. rewrite Nat2Z.id, nth_error_app2 by lia.
  now rewrite Nat.sub_diag.
Qed.

Lemma PeekToken_again (l : ast.lexer) (tok : ast.Token)
    (l' : ast.lexer) :
  wellFormed l ->
  0 <= ast.pos l <= Z.of_nat (List.length (ast.tokens l)) ->
  ast.PeekToken l = (Ok tok, l') ->
  ast.PeekToken l' = (Ok tok, l') /\ ast.pos l' = ast.pos l.
Proof.
  intros Hw Hpos H.
  pose proof (PeekToken_cache _ _ _ H) as [Hp Hr]. split; [|exact Hp].
  unfold ast.PeekToken in H.
  destruct (ast.pos l <? Z.of_nat (List.length (ast.tokens l))) eqn:C.
  - assert (l' = l) as ->.
    { destruct (ast.pos l <? 0); [discriminate|].
      destruct (nth_error _ _); now inversion H. }
    unfold ast.PeekToken. rewrite C. exact H.
  - apply Z.ltb_ge in C. unfold ast.readToken in H.
    destruct Hr as [[Hlt _]|[[-> Ht]|[Hid Ht]]]; [lia| |].
    + destruct (readTokenFrom_eof _ _ _ _ Hw (Nat.le_refl _) H eq_refl)
        as (_ & _ & V & _).
      unfold ast.PeekToken. rewrite Hp, Ht.
      destruct (Z.ltb_spec (ast.pos l)
                  (Z.of_nat (List.length (ast.tokens l)))); [lia|].
      unfold ast.readToken. now apply readTokenFrom_invalid.
    + unfold ast.PeekToken. rewrite Hp, Ht, length_app. cbn [List.length].
      destruct (Z.ltb_spec (ast.pos l)
                  (Z.of_nat (List.length (ast.tokens l) + 1))); [|lia].
      destruct (Z.ltb_spec (ast.pos l) 0); [lia|].
      rewrite nth_error_last by lia. reflexivity.
Qed.

(** X12.  Peeking is idempotent: when [PeekToken] has returned a token,
    peeking again returns the same token and changes nothing, neither the
    position, nor the cache, nor the byte cursor; the token was lexed once
    and is replayed from the cache (the end of input is met again at the
    end of the source). *)
Theorem X12_peek_idempotent (l : ast.lexer) (tok : ast.Token)
    (l' : ast.lexer) :
  wellFormed l ->
  0 <= ast.pos l <= Z.of_nat (List.length (ast.tokens l)) ->
  ast.PeekToken l = (Ok tok, l') ->
  ast.PeekToken l' = (Ok tok, l')
  /\ ast.pos l' = ast.pos l
  /\ snd (ast.PeekToken l') = l'.
Proof.
  intros Hw Hpos H.
  destruct (PeekToken_again l tok l' Hw Hpos H) as [H1 H2].
  split; [exact H1|]. split; [exact H2|]. now rewrite H1.
Qed.

Lemma X12_peek_idempotent_witness :
  let l := ast.IgnoreSpaces (ast.newLexer "p50(duration)") in
  ast.PeekToken (snd (ast.PeekToken l)) = ast.PeekToken l.
Proof.
  cbv zeta.
  destruct (X12_peek_idempotent
              (ast.IgnoreSpaces (ast.newLexer "p50(duration)"))
              {| ast.ID := ast.IDENT_TOKEN; ast.Text := "p50";
                 ast.Start := 0 |}
              (snd (ast.PeekToken
                      (ast.IgnoreSpaces (ast.newLexer "p50(duration)")))))
    as (H & _ & _).
  - unfold wellFormed. vm_compute. repeat split; discriminate.
  - vm_compute. split; discriminate.
  - vm_compute. reflexivity.
  - rewrite H. vm_compute. reflexivity.
Defined.



Lemma atEnd_next (l : ast.lexer) :
  atEnd l ->
  ast.PeekToken l = (Ok ast.eofToken, l)
  /\ ast.NextToken l = (Ok ast.eofToken, ast.ResetPos (ast.pos l + 1) l)
  /\ atEnd (ast.ResetPos (ast.pos l + 1) l).
Proof.
  intros [V Hp].
  assert (P : ast.PeekToken l = (Ok ast.eofToken, l)).
  { unfold ast.PeekToken.
    destruct (Z.ltb_spec (ast.pos l)
                (Z.of_nat (List.length (ast.tokens l)))); [lia|].
    unfold ast.readToken. now apply readTokenFrom_invalid. }
  split; [exact P|]. split.
  - unfold ast.NextToken. now rewrite P.
  - split; [exact V | cbn; lia].
Qed.

Lemma nextTokens_atEnd (n : nat) (l : ast.lexer) :
  atEnd l ->
  fst (nextTokens n l) = repeat (Ok ast.eofToken) n
  /\ ast.tokens (snd (nextTokens n l)) = ast.tokens l
  /\ ast.lex (snd (nextTokens n l)) = ast.lex l
  /\ ast.pos (snd (nextTokens n l)) = ast.pos l + Z.of_nat n.
Proof.
  revert l. induction n as [|n IH]; intros l H.
  - cbn. repeat split. lia.
  - cbn [nextTokens]. destruct (atEnd_next l H) as (_ & N & H').
    rewrite N. destruct (IH _ H') as (A & B & C & D).
    destruct (nextTokens n (ast.ResetPos (ast.pos l + 1) l)) as [rs l2].
    cbn [fst snd] in *. rewrite A, B, C, D. cbn. repeat split. lia.
Qed.

(** X14.  The end of input is met again and again: once [NextToken] has
    returned the end-of-input token, every further [NextToken] and
    [PeekToken] returns it too, without an error, and none of them changes
    the cache or the byte cursor; only the position keeps growing, by one
    for each [NextToken]. *)
Theorem X14_end_of_input_repeats (l : ast.lexer) (tok : ast.Token)
    (l1 : ast.lexer) (n : nat) :
  wellFormed l ->
  0 <= ast.pos l ->
  Forall (fun t => ast.ID t <> ast.EOF_TOKEN) (ast.tokens l) ->
  ast.NextToken l = (Ok tok, l1) ->
  ast.ID tok = ast.EOF_TOKEN ->
  ast.PeekToken l1 = (Ok ast.eofToken, l1)
  /\ fst (nextTokens n l1) = repeat (Ok ast.eofToken) n
  /\ ast.tokens (snd (nextTokens n l1)) = ast.tokens l
  /\ ast.lex (snd (nextTokens n l1)) = ast.lex l1
  /\ ast.pos (snd (nextTokens n l1)) = ast.pos l + 1 + Z.of_nat n.
Proof.
  intros Hw Hpos Hcache H Hid. unfold ast.NextToken in H.
  destruct (ast.PeekToken l) as [[t|e] l'] eqn:P; [|discriminate].
  injection H as -> <-.
  pose proof (PeekToken_cache _ _ _ P) as [Hp Hr].
  assert (E : atEnd (ast.ResetPos (ast.pos l' + 1) l')
              /\ ast.tokens l' = ast.tokens l).
  { unfold ast.PeekToken in P.
    destruct (ast.pos l <? Z.of_nat (List.length (ast.tokens l))) eqn:C.
    - exfalso. destruct (ast.pos l <? 0); [discriminate|].
      destruct (nth_error (ast.tokens l) (Z.to_nat (ast.pos l))) as [t|] eqn:N;
        [|discriminate].
      injection P as -> _. apply nth_error_In in N.
      exact (proj1 (Forall_forall _ _) Hcache _ N Hid).
    - apply Z.ltb_ge in C. unfold ast.readToken in P.
      destruct (readTokenFrom_eof _ _ _ _ Hw (Nat.le_refl _) P Hid)
        as (_ & Ht & V & _).
      split; [|exact Ht]. split; [exact V|]. cbn. rewrite Ht. lia. }
  destruct E as [E Ht].
  destruct (atEnd_next _ E) as (P1 & _ & _).
  destruct (nextTokens_atEnd n _ E) as (A & B & C & D).
  split; [exact P1|]. split; [exact A|]. split; [now rewrite B|].
  split; [exact C|]. rewrite D. cbn. lia.
Qed.

Lemma X14_end_of_input_repeats_witness :
  let l := ast.ResetPos 1 (snd (ast.NextToken (ast.newLexer "x"))) in
  fst (nextTokens 3 (snd (ast.NextToken l)))
  = [Ok ast.eofToken; Ok ast.eofToken; Ok ast.eofToken].
Proof.
  cbv zeta.
  apply (X14_end_of_input_repeats
           (ast.ResetPos 1 (snd (ast.NextToken (ast.newLexer "x"))))
           ast.eofToken
           (snd (ast.NextToken
                   (ast.ResetPos 1 (snd (ast.NextToken (ast.newLexer "x"))))))
           3).
  - unfold wellFormed. vm_compute. repeat split; discriminate.
  - vm_compute. discriminate.
  - vm_compute. repeat constructor. discriminate.
  - vm_compute. reflexivity.
  - reflexivity.
Defined.

(** ** What a read consumes *)

(** A read never moves the byte cursor backwards. *)
Lemma readTokenFrom_forward (fuel : nat) (l : ast.lexer)
    (r : result ast.Token) (l' : ast.lexer) :
  wellFormed l ->
  ast.readTokenFrom fuel l = (r, l') ->
  bunlex.i (ast.lex l) <= bunlex.i (ast.lex l').
Proof.
  revert l. induction fuel as [|fuel IH]; intros l [Hs Hi];
    cbn [ast.readTokenFrom].
  - intros [= <- <-]. lia.
  - destruct (bunlex.Valid (ast.lex l)) eqn:V; cbn [negb].
    2:{ intros [= <- <-]. lia. }
    apply Valid_iff in V. rewrite Hs in V.
    unfold bunlex.NextByte. cbv beta iota zeta.
    set (c := bunlex.PeekByte (ast.lex l)).
    set (l1 := ast.setLex l (bunlex.Advance (ast.lex l))).
    assert (W1 : wellFormed l1) by (split; [exact Hs | cbn; lia]).
    assert (Quoted : ast.quotedValue c l1 = (r, l') ->
                     bunlex.i (ast.lex l) <= bunlex.i (ast.lex l')).
    { unfold ast.quotedValue, bunlex.ReadUnquoted.
      destruct (bunlex.unquoted _ c false "" (ast.lex l1)) as [[str|err] lx]
        eqn:U; apply unquoted_spec in U; destruct U as (Us & Ui & Ul);
        cbn in Ui; unfold ast.token; intros [= <- <-]; cbn; lia. }
    assert (Char : forall id,
      (let (tok, l2) := ast.charToken id l1 in (Ok tok, l2)) = (r, l') ->
      bunlex.i (ast.lex l) <= bunlex.i (ast.lex l')).
    { intros id. unfold ast.charToken, ast.token. intros [= <- <-].
      cbn. lia. }
    assert (Ident : forall start,
      ast.ident start l1 = (r, l') ->
      bunlex.i (ast.lex l) <= bunlex.i (ast.lex l')).
    { intros start. unfold ast.ident, ast.token. cbn.
      destruct (identBytes_spec
                  (bunlex.remaining (bunlex.Advance (ast.lex l)))
                  (bunlex.Advance (ast.lex l))) as (Is & Ii & Il).
      cbn in Ii. intros [= <- <-]. cbn. lia. }
    assert (Num :
      (let (tok, l2) := ast.number (ast.setLex l1 (bunlex.Rewind (ast.lex l1)))
       in (Ok tok, l2)) = (r, l') ->
      bunlex.i (ast.lex l) <= bunlex.i (ast.lex l')).
    { unfold ast.number. cbn [ast.lex ast.setLex l1].
      destruct (bunlex.Number _) as [text lx] eqn:N.
      apply Number_spec in N. cbn in N.
      destruct N as (_ & _ & Ni & _ & _).
      unfold ast.token. intros [= <- <-]. cbn. lia. }
    repeat match goal with
           | |- context [if ?b then _ else _] => destruct b
           end;
      try assumption; try apply Char; try apply Ident.
    intros H. pose proof (IH l1 W1 H) as K. cbn in K. lia.
Qed.

Lemma whitespace_is_skipped (c : ascii) :
  bunlex.IsWhitespace c = true ->
  ((c =? "'")%char || (c =? "034")%char)%bool = false
  /\ ((c =? "(")%char || (c =? ")")%char || (c =? ",")%char)%bool = false
  /\ (c =? "_")%char = false
  /\ (c =? "$")%char = false.
Proof.
  unfold bunlex.IsWhitespace. intros H.
  repeat (apply orb_true_iff in H; destruct H as [H|H]);
    apply Ascii.eqb_eq in H; subst c; repeat split.
Qed.

(** With only ignored whitespace left, a read returns the end of input. *)
Lemma readTokenFrom_blank (fuel : nat) (l : ast.lexer) :
  wellFormed l ->
  (forall k, bunlex.i (ast.lex l) <= k < len (ast.s l) ->
     ast.ignoreSpaces l = true
     /\ bunlex.IsWhitespace (byteAt (ast.s l) k) = true) ->
  fst (ast.readTokenFrom fuel l) = Ok ast.eofToken.
Proof.
  revert l. induction fuel as [|fuel IH]; intros l [Hs Hi] Hblank;
    cbn [ast.readTokenFrom]; [reflexivity|].
  destruct (bunlex.Valid (ast.lex l)) eqn:V; cbn [negb]; [|reflexivity].
  pose proof (proj1 (Valid_iff _) V) as Hlt. rewrite Hs in Hlt.
  destruct (Hblank (bunlex.i (ast.lex l))) as [Hign Hws]; [lia|].
  assert (Hc : bunlex.PeekByte (ast.lex l)
               = byteAt (ast.s l) (bunlex.i (ast.lex l))).
  { unfold bunlex.PeekByte. now rewrite V, Hs. }
  unfold bunlex.NextByte. cbv beta iota zeta. rewrite Hc.
  destruct (whitespace_is_skipped _ Hws) as (A & B & C & D).
  rewrite A, B, C, D. cbn [ast.ignoreSpaces ast.setLex].
  rewrite Hign, Hws. cbn [andb].
  apply IH.
  - split; [exact Hs | cbn; lia].
  - intros k Hk. cbn in Hk. apply Hblank. lia.
Qed.

(** X15.  A read never moves the byte cursor backwards and keeps it within
    the source.  When it returns a token it has consumed at least one
    byte.  It returns the end of input exactly when nothing is left to read
    but whitespace that it was told to ignore, and it then leaves the
    cursor at the end of the source; so it never reports the end of input
    with other bytes left unread. *)
Theorem X15_read_consumes (l : ast.lexer) (r : result ast.Token)
    (l' : ast.lexer) :
  wellFormed l ->
  ast.readToken l = (r, l') ->
  bunlex.i (ast.lex l) <= bunlex.i (ast.lex l') <= len (ast.s l)
  /\ (forall tok,
        r = Ok tok -> ast.ID tok <> ast.EOF_TOKEN ->
        bunlex.i (ast.lex l) < bunlex.i (ast.lex l'))
  /\ ((exists tok, r = Ok tok /\ ast.ID tok = ast.EOF_TOKEN)
      <-> (forall k, bunlex.i (ast.lex l) <= k < len (ast.s l) ->
             ast.ignoreSpaces l = true
             /\ bunlex.IsWhitespace (byteAt (ast.s l) k) = true))
  /\ (forall tok,
        r = Ok tok -> ast.ID tok = ast.EOF_TOKEN ->
        bunlex.i (ast.lex l') = len (ast.s l)).
Proof.
  intros Hw H. unfold ast.readToken in H.
  pose proof (readTokenFrom_forward _ _ _ _ Hw H) as Hfwd.
  destruct (readTokenFrom_wellFormed _ _ _ _ Hw H) as [[Hs' Hi'] Hsrc].
  rewrite Hsrc in Hi'.
  assert (Hend : forall tok,
    r = Ok tok -> ast.ID tok = ast.EOF_TOKEN ->
    bunlex.i (ast.lex l') = len (ast.s l)
    /\ (forall k, bunlex.i (ast.lex l) <= k < len (ast.s l) ->
          ast.ignoreSpaces l = true
          /\ bunlex.IsWhitespace (byteAt (ast.s l) k) = true)).
  { intros tok -> Hid.
    destruct (readTokenFrom_eof _ _ _ _ Hw (Nat.le_refl _) H Hid)
      as (_ & _ & V & Hblank).
    split; [|exact Hblank].
    unfold bunlex.Valid in V. apply Z.ltb_ge in V.
    rewrite Hs', Hsrc in V. lia. }
  split; [lia|]. split; [|split].
  - intros tok -> Hid.
    destruct (readTokenFrom_lexed _ _ _ _ Hw H Hid)
      as (first & Hf & _ & Hlex & _).
    unfold lexedAt in Hlex.
    destruct (ast.ID tok); try contradiction;
      destruct Hlex as (? & ? & ?); lia.
  - split.
    + intros (tok & Hr & Hid). exact (proj2 (Hend tok Hr Hid)).
    + intros Hblank.
      pose proof (readTokenFrom_blank (bunlex.remaining (ast.lex l)) l
                    Hw Hblank) as K.
      rewrite H in K. cbn in K. exists ast.eofToken. now split.
  - intros tok Hr Hid. exact (proj1 (Hend tok Hr Hid)).
Qed.

Lemma X15_read_consumes_witness :
  let l := ast.IgnoreSpaces (ast.newLexer "  ") in
  exists tok,
    fst (ast.readToken l) = Ok tok /\ ast.ID tok = ast.EOF_TOKEN.
Proof.
  cbv zeta.
  destruct (proj2 (proj1 (proj2 (proj2 (X15_read_consumes
              (ast.IgnoreSpaces (ast.newLexer "  "))
              (fst (ast.readToken (ast.IgnoreSpaces (ast.newLexer "  "))))
              (snd (ast.readToken (ast.IgnoreSpaces (ast.newLexer "  "))))
              (conj eq_refl (conj (Z.le_refl 0) (Zle_0_nat 2)))
              (surjective_pairing _))))))
    as (tok & Hr & Hid).
  - intros k Hk. split; [reflexivity|].
    assert (k = 0 \/ k = 1) as [-> | ->]
      by (cbn in Hk; unfold len in Hk; cbn in Hk; lia);
      reflexivity.
  - exists tok. split; assumption.
Defined.

(** ** Identifier tokens *)

Lemma PeekByte_valid (lx : bunlex.Lexer) :
  bunlex.Valid lx = true ->
  bunlex.PeekByte lx = byteAt (bunlex.s lx) (bunlex.i lx).
Proof. intros V. unfold bunlex.PeekByte. now rewrite V. Qed.

Lemma identBytes_all (fuel : nat) (lx : bunlex.Lexer) (k : Z) :
  bunlex.i lx <= k < bunlex.i (ast.identBytes fuel lx) ->
  ast.isIdentChar (byteAt (bunlex.s lx) k) = true.
Proof.
  revert lx. induction fuel as [|fuel IH]; intros lx; cbn [ast.identBytes].
  - lia.
  - destruct (bunlex.Valid lx) eqn:V; [|lia].
    destruct (ast.isIdentChar (bunlex.PeekByte lx)) eqn:D; [|lia].
    intros Hk. destruct (Z.eq_dec k (bunlex.i lx)) as [->|Hne].
    + now rewrite <- PeekByte_valid.
    + apply (IH (bunlex.Advance lx)). cbn. lia.
Qed.

Lemma identBytes_maximal (lx : bunlex.Lexer) :
  bunlex.i lx <= len (bunlex.s lx) ->
  let lx' := ast.identBytes (bunlex.remaining lx) lx in
  bunlex.i lx' = len (bunlex.s lx)
  \/ ast.isIdentChar (byteAt (bunlex.s lx) (bunlex.i lx')) = false.
Proof.
  intros Hi lx'.
  destruct (identBytes_spec (bunlex.remaining lx) lx) as (Hs & Hge & Hle).
  fold lx' in Hs, Hge, Hle.
  destruct (identBytes_stops (bunlex.remaining lx) lx (Nat.le_refl _))
    as [V|D]; fold lx' in V || fold lx' in D.
  - left. unfold bunlex.Valid in V. apply Z.ltb_ge in V. rewrite Hs in V.
    specialize (Hle Hi). lia.
  - destruct (bunlex.Valid lx') eqn:V.
    + right. rewrite (PeekByte_valid _ V), Hs in D. exact D.
    + left. unfold bunlex.Valid in V. apply Z.ltb_ge in V. rewrite Hs in V.
      specialize (Hle Hi). lia.
Qed.

(** The shape of an identifier lexed from [first]: its bytes after the
    first are identifier bytes, and it ends at the end of the source or
    before a byte that is not one. *)
Lemma ident_shape (l1 : ast.lexer) (first : Z) (tok : ast.Token)
    (l' : ast.lexer) :
  bunlex.s (ast.lex l1) = ast.s l1 ->
  bunlex.i (ast.lex l1) = first + 1 ->
  0 <= first < len (ast.s l1) ->
  ast.ident (bunlex.Pos (ast.lex l1) - 1) l1 = (Ok tok, l') ->
  ast.ID tok = ast.IDENT_TOKEN
  /\ ast.Start tok = first
  /\ (forall k, first < k < bunlex.i (ast.lex l') ->
        ast.isIdentChar (byteAt (ast.s l1) k) = true)
  /\ (bunlex.i (ast.lex l') = len (ast.s l1)
      \/ ast.isIdentChar (byteAt (ast.s l1) (bunlex.i (ast.lex l'))) = false).
Proof.
  intros Hs Hc Hf. unfold ast.ident, ast.token, bunlex.Pos.
  cbn [ast.lex ast.setLex ast.s].
  intros [= <- <-]. cbn [ast.ID ast.Start ast.lex].
  split; [reflexivity|]. split; [lia|]. split.
  - intros k Hk. rewrite <- Hs.
    apply (identBytes_all (bunlex.remaining (ast.lex l1)) (ast.lex l1) k).
    lia.
  - rewrite <- Hs. apply identBytes_maximal. rewrite Hs. lia.
Qed.

Lemma readTokenFrom_ident (fuel : nat) (l : ast.lexer) (tok : ast.Token)
    (l' : ast.lexer) :
  wellFormed l ->
  ast.readTokenFrom fuel l = (Ok tok, l') ->
  ast.ID tok = ast.IDENT_TOKEN ->
  identStart (byteAt (ast.s l) (ast.Start tok)) = true
  /\ (forall k, ast.Start tok < k < bunlex.i (ast.lex l') ->
        ast.isIdentChar (byteAt (ast.s l) k) = true)
  /\ (bunlex.i (ast.lex l') = len (ast.s l)
      \/ ast.isIdentChar (byteAt (ast.s l) (bunlex.i (ast.lex l'))) = false).
Proof.
  revert l. induction fuel as [|fuel IH]; intros l [Hs Hi];
    cbn [ast.readTokenFrom].
  - intros [= <- <-]. discriminate.
  - destruct (bunlex.Valid (ast.lex l)) eqn:V; cbn [negb].
    2:{ intros [= <- <-]. discriminate. }
    pose proof (proj1 (Valid_iff _) V) as Hlt. rewrite Hs in Hlt.
    assert (Hc : bunlex.PeekByte (ast.lex l)
                 = byteAt (ast.s l) (bunlex.i (ast.lex l))).
    { now rewrite (PeekByte_valid _ V), Hs. }
    unfold bunlex.NextByte. cbv beta iota zeta.
    set (c := bunlex.PeekByte (ast.lex l)) in *.
    set (l1 := ast.setLex l (bunlex.Advance (ast.lex l))).
    assert (Leaf : identStart c = true ->
      ast.ident (bunlex.Pos (ast.lex l1) - 1) l1 = (Ok tok, l') ->
      ast.ID tok = ast.IDENT_TOKEN ->
      identStart (byteAt (ast.s l) (ast.Start tok)) = true
      /\ (forall k, ast.Start tok < k < bunlex.i (ast.lex l') ->
            ast.isIdentChar (byteAt (ast.s l) k) = true)
      /\ (bunlex.i (ast.lex l') = len (ast.s l)
          \/ ast.isIdentChar (byteAt (ast.s l) (bunlex.i (ast.lex l')))
             = false)).
    { intros Hstart H _.
      destruct (ident_shape l1 (bunlex.i (ast.lex l)) tok l' Hs eq_refl
                  (conj (proj1 Hi) Hlt) H) as (_ & E & A & B).
      rewrite E, <- Hc. exact (conj Hstart (conj A B)). }
    unfold identStart in Leaf.
    destruct ((c =? "'")%char || (c =? "034")%char)%bool.
    { unfold ast.quotedValue, ast.token.
      destruct (bunlex.ReadUnquoted c (ast.lex l1)) as [[?|?] ?];
        intros [= <- <-]; discriminate. }
    destruct ((c =? "(")%char || (c =? ")")%char || (c =? ",")%char)%bool.
    { unfold ast.charToken, ast.token. intros [= <- <-]; discriminate. }
    destruct (c =? "_")%char eqn:U.
    { apply Leaf. now rewrite orb_true_r. }
    destruct (c =? "$")%char eqn:D.
    { apply Leaf. now rewrite orb_true_r. }
    destruct (ast.ignoreSpaces l1 && bunlex.IsWhitespace c)%bool.
    { intros H Hid. apply (IH l1); try assumption.
      split; [exact Hs | cbn; lia]. }
    destruct (bunlex.IsDigit c).
    { unfold ast.number, ast.token.
      destruct (bunlex.Number _) as [? ?]. intros [= <- <-]; discriminate. }
    destruct (bunlex.IsAlpha c) eqn:A.
    { apply Leaf. reflexivity. }
    unfold ast.charToken, ast.token. intros [= <- <-]; discriminate.
Qed.

(** X16.  An identifier token is a longest match.  Its first byte is a
    letter, ['_'] or ['$']; every byte after it is a letter, a digit, ['_']
    or ['.']; and it ends at the end of the source or just before a byte
    that is none of these.  Its text is those bytes of the source, from its
    [Start] on. *)
Theorem X16_ident_longest_match (l : ast.lexer) (tok : ast.Token)
    (l' : ast.lexer) :
  wellFormed l ->
  ast.readToken l = (Ok tok, l') ->
  ast.ID tok = ast.IDENT_TOKEN ->
  let stop := ast.Start tok + len (ast.Text tok) in
  identStart (byteAt (ast.s l) (ast.Start tok)) = true
  /\ (forall k, ast.Start tok < k < stop ->
        ast.isIdentChar (byteAt (ast.s l) k) = true)
  /\ (stop = len (ast.s l)
      \/ ast.isIdentChar (byteAt (ast.s l) stop) = false)
  /\ ast.Text tok = slice (ast.s l) (ast.Start tok) stop
  /\ bunlex.i (ast.lex l') = stop.
Proof.
  intros Hw H Hid stop. unfold ast.readToken in H.
  destruct (readTokenFrom_ident _ _ _ _ Hw H Hid) as (A & B & C).
  assert (Hne : ast.ID tok <> ast.EOF_TOKEN) by (rewrite Hid; discriminate).
  destruct (readTokenFrom_lexed _ _ _ _ Hw H Hne)
    as (first & _ & _ & Hlex & _).
  unfold lexedAt in Hlex. rewrite Hid in Hlex.
  destruct Hlex as (E1 & E2 & E3 & _).
  assert (Hstop : bunlex.i (ast.lex l') = stop).
  { unfold stop. rewrite E1. exact E3. }
  rewrite Hstop in B, C.
  split; [exact A|]. split; [exact B|]. split; [exact C|].
  split; [|exact Hstop]. unfold stop. rewrite E1. exact E2.
Qed.

Lemma X16_ident_longest_match_witness :
  let l := ast.IgnoreSpaces (ast.newLexer " http.status_code>=500") in
  exists tok,
    fst (ast.readToken l) = Ok tok
    /\ ast.Text tok = "http.status_code"%string
    /\ ast.isIdentChar
         (byteAt (ast.s l) (ast.Start tok + len (ast.Text tok))) = false.
Proof.
  cbv zeta.
  exists {| ast.ID := ast.IDENT_TOKEN; ast.Text := "http.status_code";
            ast.Start := 1 |}.
  split; [vm_compute; reflexivity|]. split; [reflexivity|].
  destruct (X16_ident_longest_match
              (ast.IgnoreSpaces (ast.newLexer " http.status_code>=500"))
              {| ast.ID := ast.IDENT_TOKEN; ast.Text := "http.status_code";
                 ast.Start := 1 |}
              (snd (ast.readToken
                      (ast.IgnoreSpaces
                         (ast.newLexer " http.status_code>=500")))))
    as (_ & _ & [E|E] & _).
  - unfold wellFormed. vm_compute. repeat split; discriminate.
  - vm_compute. reflexivity.
  - reflexivity.
  - vm_compute in E. discriminate E.
  - exact E.
Defined.

(** ** The order of the cached tokens *)

Lemma lexedAt_bounds (src : string) (first : Z) (tok : ast.Token)
    (after : Z) :
  lexedAt src first tok after -> first <= ast.Start tok <= after.
Proof.
  unfold lexedAt. destruct (ast.ID tok); try contradiction;
    intros (A & B & C); try (destruct C as (C & D)); lia.
Qed.

Lemma StronglySorted_snoc (xs : list Z) (x : Z) :
  StronglySorted Z.le xs ->
  Forall (fun y => y <= x) xs ->
  StronglySorted Z.le (xs ++ [x]).
Proof.
  induction xs as [|y xs IH]; intros Hs Hall; cbn.
  - repeat constructor.
  - inversion Hs as [|y' xs' Hs' Hy]; subst.
    inversion Hall as [|y' xs' Hyx Hall']; subst.
    constructor; [now apply IH|].
    apply Forall_app. split; [exact Hy | now repeat constructor].
Qed.

Lemma PeekToken_sorted (l : ast.lexer) (r : result ast.Token)
    (l' : ast.lexer) :
  wellFormed l ->
  StronglySorted Z.le (map ast.Start (ast.tokens l)) ->
  Forall (fun t => 0 <= ast.Start t <= bunlex.i (ast.lex l)) (ast.tokens l) ->
  ast.PeekToken l = (r, l') ->
  wellFormed l'
  /\ ast.s l' = ast.s l
  /\ StronglySorted Z.le (map ast.Start (ast.tokens l'))
  /\ Forall (fun t => 0 <= ast.Start t <= bunlex.i (ast.lex l'))
       (ast.tokens l').
Proof.
  intros Hw Hsorted Hall. unfold ast.PeekToken.
  assert (K : forall r0, (r0, l) = (r, l') ->
    wellFormed l' /\ ast.s l' = ast.s l
    /\ StronglySorted Z.le (map ast.Start (ast.tokens l'))
    /\ Forall (fun t => 0 <= ast.Start t <= bunlex.i (ast.lex l'))
         (ast.tokens l')).
  { now intros r0 [= <- <-]. }
  destruct (ast.pos l <? _).
  { destruct (ast.pos l <? 0); [apply K|].
    destruct (nth_error _ _); apply K. }
  unfold ast.readToken. intros H.
  destruct (readTokenFrom_wellFormed _ _ _ _ Hw H) as [Hw' Hs'].
  pose proof (readTokenFrom_forward _ _ _ _ Hw H) as Hfwd.
  assert (Hall' : Forall (fun t => 0 <= ast.Start t <= bunlex.i (ast.lex l'))
                    (ast.tokens l)).
  { eapply Forall_impl; [|exact Hall]. cbn. intros t Ht. lia. }
  split; [exact Hw'|]. split; [exact Hs'|].
  pose proof (readTokenFrom_cache _ _ _ _ H) as [_ Hr].
  destruct r as [tok|err]; [|rewrite Hr; now split].
  destruct Hr as [[_ ->]|[Hid Ht]]; [now split|].
  destruct (readTokenFrom_lexed _ _ _ _ Hw H Hid)
    as (first & Hf & _ & Hlex & _).
  apply lexedAt_bounds in Hlex. destruct Hw as [_ Hi].
  rewrite Ht, map_app. split.
  - apply StronglySorted_snoc; [exact Hsorted|].
    apply Forall_map. eapply Forall_impl; [|exact Hall].
    cbn. intros t Hb. lia.
  - apply Forall_app. split; [exact Hall'|].
    constructor; [lia | constructor].
Qed.

Lemma run_sorted (ops : list TokenStream.op)
    (ss ss' : TokenStream.session) :
  wellFormed (TokenStream.stream ss) ->
  StronglySorted Z.le (map ast.Start (ast.tokens (TokenStream.stream ss))) ->
  Forall (fun t => 0 <= ast.Start t
                   <= bunlex.i (ast.lex (TokenStream.stream ss)))
    (ast.tokens (TokenStream.stream ss)) ->
  TokenStream.run ops ss = Some ss' ->
  ast.s (TokenStream.stream ss') = ast.s (TokenStream.stream ss)
  /\ wellFormed (TokenStream.stream ss')
  /\ StronglySorted Z.le (map ast.Start (ast.tokens (TokenStream.stream ss')))
  /\ Forall (fun t => 0 <= ast.Start t
                      <= bunlex.i (ast.lex (TokenStream.stream ss')))
       (ast.tokens (TokenStream.stream ss')).
Proof.
  revert ss. induction ops as [|o ops IH]; intros ss Hw Hs Hall; cbn.
  - intros [= <-]. exact (conj eq_refl (conj Hw (conj Hs Hall))).
  - destruct (TokenStream.step o ss) as [ss1|] eqn:S; [|discriminate].
    assert (K : ast.s (TokenStream.stream ss1) = ast.s (TokenStream.stream ss)
                /\ wellFormed (TokenStream.stream ss1)
                /\ StronglySorted Z.le
                     (map ast.Start (ast.tokens (TokenStream.stream ss1)))
                /\ Forall (fun t => 0 <= ast.Start t
                             <= bunlex.i (ast.lex (TokenStream.stream ss1)))
                     (ast.tokens (TokenStream.stream ss1))).
    { destruct o as [| | |p]; cbn in S.
      - injection S as <-. cbn.
        destruct (ast.PeekToken (TokenStream.stream ss)) as [r l'] eqn:P.
        destruct (PeekToken_sorted _ _ _ Hw Hs Hall P) as (A & B & C & D).
        exact (conj B (conj A (conj C D))).
      - unfold ast.NextToken in S.
        destruct (ast.PeekToken (TokenStream.stream ss)) as [r l'] eqn:P.
        destruct (PeekToken_sorted _ _ _ Hw Hs Hall P) as (A & B & C & D).
        destruct r; injection S as <-;
          exact (conj B (conj A (conj C D))).
      - injection S as <-. exact (conj eq_refl (conj Hw (conj Hs Hall))).
      - destruct (existsb _ _); [|discriminate].
        injection S as <-. exact (conj eq_refl (conj Hw (conj Hs Hall))). }
    destruct K as (A & B & C & D). intros R.
    destruct (IH ss1 B C D R) as (A' & B' & C' & D').
    split; [congruence | exact (conj B' (conj C' D'))].
Qed.

(** X17.  The cache is in source order: after any sequence of operations
    on a stream, the [Start] offsets of the cached tokens never decrease
    from one token to the next, and each lies within the source.  They can
    be equal: a number's [Start] is the offset after it, which is also the
    [Start] of a token that follows it directly. *)
Theorem X17_cache_in_source_order (src : string) (ignore : bool)
    (ops : list TokenStream.op) (ss : TokenStream.session) :
  TokenStream.run ops (TokenStream.start src ignore) = Some ss ->
  StronglySorted Z.le (map ast.Start (ast.tokens (TokenStream.stream ss)))
  /\ Forall (fun t => 0 <= ast.Start t <= len src)
       (ast.tokens (TokenStream.stream ss)).
Proof.
  intros R.
  assert (W : wellFormed (TokenStream.stream (TokenStream.start src ignore))).
  { unfold wellFormed, len. destruct ignore; cbn; repeat split; lia. }
  assert (S0 : ast.s (TokenStream.stream (TokenStream.start src ignore))
               = src) by now destruct ignore.
  destruct (run_sorted ops _ ss W) as (A & (B1 & B2) & C & D);
    [destruct ignore; constructor | destruct ignore; constructor | exact R |].
  split; [exact C|]. eapply Forall_impl; [|exact D].
  cbn. intros t Ht. rewrite A, S0 in B2. lia.
Qed.

Lemma X17_cache_in_source_order_witness :
  let ops := [TokenStream.OpNextToken; TokenStream.OpNextToken] in
  exists ss,
    TokenStream.run ops (TokenStream.start "12(" false) = Some ss
    /\ map ast.Start (ast.tokens (TokenStream.stream ss)) = [2; 2]
    /\ StronglySorted Z.le
         (map ast.Start (ast.tokens (TokenStream.stream ss))).
Proof.
  cbv zeta. eexists. split; [vm_compute; reflexivity|].
  split; [reflexivity|].
  apply (X17_cache_in_source_order "12(" false
           [TokenStream.OpNextToken; TokenStream.OpNextToken]).
  vm_compute. reflexivity.
Defined.

(** ** [isIdent] and the identifier tokens *)

Lemma isIdent_cons (c : ascii) (str : string) :
  ast.isIdent (String c str) = (ast.isIdentChar c && ast.isIdent str)%bool.
Proof. reflexivity. Qed.

Lemma isIdent_append (a b : string) :
  ast.isIdent (a ++ b) = (ast.isIdent a && ast.isIdent b)%bool.
Proof.
  induction a as [|c a IH]; [reflexivity|].
  cbn [String.append]. rewrite !isIdent_cons, IH. now rewrite andb_assoc.
Qed.

Lemma byteAt_cons (c : ascii) (str : string) (k : nat) :
  byteAt (String c str) (Z.of_nat (S k)) = byteAt str (Z.of_nat k).
Proof.
  unfold byteAt.
  destruct (Z.ltb_spec (Z.of_nat (S k)) 0); [lia|].
  destruct (Z.ltb_spec (Z.of_nat k) 0); [lia|].
  now rewrite !Nat2Z.id.
Qed.

Lemma isIdent_substring (str : string) (n m : nat) :
  (forall k, (n <= k < n + m)%nat ->
     ast.isIdentChar (byteAt str (Z.of_nat k)) = true) ->
  ast.isIdent (String.substring n m str) = true.
Proof.
  revert n m. induction str as [|c str IH]; intros n m H.
  - now destruct n, m.
  - destruct n as [|n].
    + destruct m as [|m]; [reflexivity|].
      cbn [String.substring]. rewrite isIdent_cons.
      assert (Hc : ast.isIdentChar c = true) by (apply (H O); lia).
      rewrite Hc. cbn [andb]. apply IH.
      intros k Hk. rewrite <- byteAt_cons with (c := c). apply H. lia.
    + cbn [String.substring]. apply IH.
      intros k Hk. rewrite <- byteAt_cons with (c := c). apply H. lia.
Qed.

Lemma substring_head (str : string) (n m : nat) :
  (n < String.length str)%nat ->
  String.substring n (S m) str
  = String (byteAt str (Z.of_nat n)) (String.substring (S n) m str).
Proof.
  revert n. induction str as [|c str IH]; intros n H; cbn in H; [lia|].
  destruct n as [|n].
  - reflexivity.
  - cbn [String.substring]. rewrite byteAt_cons.
    rewrite IH by lia. reflexivity.
Qed.

Lemma slice_head (str : string) (lo hi : Z) :
  0 <= lo < hi -> lo < len str ->
  slice str lo hi = String (byteAt str lo) (slice str (lo + 1) hi).
Proof.
  intros H1 H2. unfold slice, len in *.
  replace (Z.to_nat (hi - lo)) with (S (Z.to_nat (hi - (lo + 1)))) by lia.
  rewrite substring_head by lia.
  rewrite Z2Nat.id by lia. f_equal. f_equal. lia.
Qed.

Lemma isIdent_slice (str : string) (lo hi : Z) :
  0 <= lo ->
  (forall k, lo <= k < hi -> ast.isIdentChar (byteAt str k) = true) ->
  ast.isIdent (slice str lo hi) = true.
Proof.
  intros H0 H. unfold slice. apply isIdent_substring.
  intros k Hk. apply H. lia.
Qed.

Lemma identStart_cases (c : ascii) :
  identStart c = true ->
  ast.isIdentChar c = negb (c =? "$")%char.
Proof.
  unfold identStart, ast.isIdentChar, bunlex.IsAlnum.
  destruct (Ascii.eqb_spec c "$") as [->|N]; [reflexivity|].
  rewrite orb_false_r. cbn [negb].
  destruct (bunlex.IsAlpha c); [reflexivity|].
  cbn [orb]. intros ->. now rewrite orb_true_r.
Qed.

(** X18.  [isIdent] accepts the strings made of letters, digits, ['_'] and
    ['.'] only: it accepts the empty string, and a concatenation exactly
    when it accepts both parts.  It accepts the text of every identifier
    token that the lexer returns, except those that begin with ['$'], all
    of which it rejects. *)
Theorem X18_isIdent_on_tokens :
  ast.isIdent "" = true
  /\ (forall a b : string,
        ast.isIdent (a ++ b) = (ast.isIdent a && ast.isIdent b)%bool)
  /\ (forall (l : ast.lexer) (tok : ast.Token) (l' : ast.lexer),
        wellFormed l ->
        ast.readToken l = (Ok tok, l') ->
        ast.ID tok = ast.IDENT_TOKEN ->
        ast.isIdent (ast.Text tok)
        = negb (byteAt (ast.s l) (ast.Start tok) =? "$")%char).
Proof.
  split; [reflexivity|]. split; [exact isIdent_append|].
  intros l tok l' Hw H Hid. unfold ast.readToken in H.
  destruct (readTokenFrom_ident _ _ _ _ Hw H Hid) as (A & B & _).
  assert (Hne : ast.ID tok <> ast.EOF_TOKEN) by (rewrite Hid; discriminate).
  destruct (readTokenFrom_lexed _ _ _ _ Hw H Hne)
    as (first & Hf & _ & Hlex & _).
  unfold lexedAt in Hlex. rewrite Hid in Hlex.
  destruct Hlex as (E1 & E2 & E3 & E4).
  destruct Hw as [_ Hi].
  rewrite E1 in *. remember (len (ast.Text tok)) as n eqn:En.
  rewrite E2.
  rewrite slice_head by lia. rewrite isIdent_cons.
  rewrite (identStart_cases _ A).
  rewrite isIdent_slice; [now rewrite andb_true_r | lia |].
  intros k Hk. apply B. lia.
Qed.

Lemma X18_isIdent_on_tokens_witness :
  let l := ast.newLexer "$duration" in
  ast.isIdent (ast.Text {| ast.ID := ast.IDENT_TOKEN; ast.Text := "$duration";
                          ast.Start := 0 |})
  = negb (byteAt (ast.s l) 0 =? "$")%char.
Proof.
  cbv zeta.
  apply (proj2 (proj2 X18_isIdent_on_tokens)
           (ast.newLexer "$duration")
           {| ast.ID := ast.IDENT_TOKEN; ast.Text := "$duration";
              ast.Start := 0 |}
           (snd (ast.readToken (ast.newLexer "$duration")))).
  - unfold wellFormed. vm_compute. repeat split; discriminate.
  - vm_compute. reflexivity.
  - reflexivity.
Defined.

(** ** Reading without [IgnoreSpaces], and failing reads *)

Lemma whitespace_is_plain (c : ascii) :
  bunlex.IsWhitespace c = true ->
  isQuote c = false /\ bunlex.IsDigit c = false /\ identStart c = false.
Proof.
  unfold bunlex.IsWhitespace. intros H.
  repeat (apply orb_true_iff in H; destruct H as [H|H]);
    apply Ascii.eqb_eq in H; subst c; repeat split.
Qed.

(** X19.  A lexer that was not told to ignore spaces skips nothing: the
    token it returns begins at the byte cursor, and a whitespace byte at
    the cursor comes back as a one-byte [Byte] token.  It returns the end
    of input only with the cursor at the end of the source. *)
Theorem X19_nothing_skipped_without_ignore (l : ast.lexer) (tok : ast.Token)
    (l' : ast.lexer) :
  wellFormed l ->
  ast.ignoreSpaces l = false ->
  ast.readToken l = (Ok tok, l') ->
  (ast.ID tok = ast.EOF_TOKEN -> bunlex.i (ast.lex l) = len (ast.s l))
  /\ (ast.ID tok <> ast.EOF_TOKEN ->
      lexedAt (ast.s l) (bunlex.i (ast.lex l)) tok (bunlex.i (ast.lex l'))
      /\ (bunlex.IsWhitespace (byteAt (ast.s l) (bunlex.i (ast.lex l))) = true ->
          ast.ID tok = ast.BYTE_TOKEN
          /\ ast.Start tok = bunlex.i (ast.lex l)
          /\ ast.Text tok
             = slice (ast.s l) (bunlex.i (ast.lex l))
                 (bunlex.i (ast.lex l) + 1))).
Proof.
  intros Hw Hign H. unfold ast.readToken in H. split.
  - intros Hid.
    destruct (readTokenFrom_eof _ _ _ _ Hw (Nat.le_refl _) H Hid)
      as (_ & _ & _ & Hblank).
    destruct Hw as [_ Hi].
    destruct (Z.eq_dec (bunlex.i (ast.lex l)) (len (ast.s l))) as [E|N];
      [exact E|].
    destruct (Hblank (bunlex.i (ast.lex l))) as [K _]; [lia | congruence].
  - intros Hid.
    destruct (readTokenFrom_lexed _ _ _ _ Hw H Hid)
      as (first & Hf & Hsk & Hlex & _).
    assert (E : first = bunlex.i (ast.lex l)).
    { destruct (Z.eq_dec first (bunlex.i (ast.lex l))) as [E|N]; [exact E|].
      destruct (Hsk (bunlex.i (ast.lex l))) as [K _]; [lia | congruence]. }
    subst first. split; [exact Hlex|].
    intros Hws. destruct (whitespace_is_plain _ Hws) as (Q & D & S).
    pose proof Hlex as Hlex0. unfold lexedAt in Hlex.
    destruct (ast.ID tok) eqn:I; try contradiction.
    + destruct Hlex as (A & B & _ & C). rewrite C in B.
      split; [reflexivity|]. split; [exact A | exact B].
    + exfalso.
      destruct (readTokenFrom_ident _ _ _ _ Hw H I) as (A & _).
      destruct Hlex as (E1 & _). rewrite E1 in A. congruence.
    + exfalso. destruct Hlex as (_ & [A|A] & _);
        unfold isQuote in Q; rewrite A in Q; discriminate.
    + exfalso. destruct Hlex as (_ & _ & _ & _ & A). congruence.
Qed.

Lemma X19_nothing_skipped_without_ignore_witness :
  let l := snd (ast.NextToken (ast.newLexer "where x")) in
  ast.ID {| ast.ID := ast.BYTE_TOKEN; ast.Text := " "; ast.Start := 5 |}
  = ast.BYTE_TOKEN
  /\ ast.Start {| ast.ID := ast.BYTE_TOKEN; ast.Text := " ";
                  ast.Start := 5 |}
     = bunlex.i (ast.lex l)
  /\ ast.Text {| ast.ID := ast.BYTE_TOKEN; ast.Text := " "; ast.Start := 5 |}
     = slice (ast.s l) (bunlex.i (ast.lex l)) (bunlex.i (ast.lex l) + 1).
Proof.
  cbv zeta.
  apply (proj2 (X19_nothing_skipped_without_ignore
                  (snd (ast.NextToken (ast.newLexer "where x")))
                  {| ast.ID := ast.BYTE_TOKEN; ast.Text := " ";
                     ast.Start := 5 |}
                  (snd (ast.readToken
                          (snd (ast.NextToken (ast.newLexer "where x")))))
                  ltac:(unfold wellFormed; vm_compute;
                        repeat split; discriminate)
                  eq_refl
                  ltac:(vm_compute; reflexivity))).
  - discriminate.
  - reflexivity.
Defined.

(** A read fails only on a quoted value: the failing token begins with a
    quote, after whitespace skipped on request, and the cache is left as it
    was. *)
Lemma readTokenFrom_error (fuel : nat) (l : ast.lexer) (e : error)
    (l' : ast.lexer) :
  wellFormed l ->
  ast.readTokenFrom fuel l = (Err e, l') ->
  ast.tokens l' = ast.tokens l
  /\ exists first,
       bunlex.i (ast.lex l) <= first < len (ast.s l)
       /\ isQuote (byteAt (ast.s l) first) = true
       /\ (forall k, bunlex.i (ast.lex l) <= k < first ->
             ast.ignoreSpaces l = true
             /\ bunlex.IsWhitespace (byteAt (ast.s l) k) = true)
       /\ fst (bunlex.ReadUnquoted (byteAt (ast.s l) first)
                 {| bunlex.s := ast.s l; bunlex.i := first + 1 |})
          = Err e.
Proof.
  revert l. induction fuel as [|fuel IH]; intros l [Hs Hi];
    cbn [ast.readTokenFrom].
  - discriminate.
  - destruct (bunlex.Valid (ast.lex l)) eqn:V; cbn [negb]; [|discriminate].
    pose proof (proj1 (Valid_iff _) V) as Hlt. rewrite Hs in Hlt.
    assert (Hc : bunlex.PeekByte (ast.lex l)
                 = byteAt (ast.s l) (bunlex.i (ast.lex l))).
    { now rewrite (PeekByte_valid _ V), Hs. }
    unfold bunlex.NextByte. cbv beta iota zeta.
    set (c := bunlex.PeekByte (ast.lex l)) in *.
    set (l1 := ast.setLex l (bunlex.Advance (ast.lex l))).
    unfold ast.ident, ast.charToken, ast.number, ast.token.
    destruct ((c =? "'")%char || (c =? "034")%char)%bool eqn:Q.
    { unfold ast.quotedValue, ast.token.
      destruct (bunlex.ReadUnquoted c (ast.lex l1)) as [[str|err] lx] eqn:U;
        [discriminate|].
      intros [= <- <-]. split; [reflexivity|].
      exists (bunlex.i (ast.lex l)). split; [lia|].
      split; [unfold isQuote; now rewrite <- Hc|].
      split; [intros k Hk; lia|].
      rewrite <- Hc. cbn [l1 ast.lex ast.setLex] in U.
      unfold bunlex.Advance in U. rewrite Hs in U. now rewrite U. }
    destruct ((c =? "(")%char || (c =? ")")%char || (c =? ",")%char)%bool;
      [discriminate|].
    destruct (c =? "_")%char; [discriminate|].
    destruct (c =? "$")%char; [discriminate|].
    destruct (ast.ignoreSpaces l1 && bunlex.IsWhitespace c)%bool eqn:W.
    { intros H. apply andb_true_iff in W. destruct W as [Wi Ww].
      destruct (IH l1) as (Ht & first & Hf & Hq & Hsk & Hr);
        [split; [exact Hs | cbn; lia] | exact H |].
      split; [exact Ht|]. exists first. cbn in Hf.
      split; [lia|]. split; [exact Hq|]. split; [|exact Hr].
      intros k Hk. destruct (Z.eq_dec k (bunlex.i (ast.lex l))) as [->|Hne].
      - split; [exact Wi | now rewrite <- Hc].
      - apply Hsk. cbn. lia. }
    destruct (bunlex.IsDigit c).
    { destruct (bunlex.Number _) as [? ?]. discriminate. }
    destruct (bunlex.IsAlpha c); discriminate.
Qed.

(** X20.  A [NextToken] that fails at a position that is not negative has
    changed neither the position nor the cache, so the stream can still be
    used and reset.  The failure comes from a quoted value and from nothing
    else: the byte where the failing token begins, after the whitespace
    skipped on request, is a quote, and the error is the one the reader of
    quoted values gave for it. *)
Theorem X20_failing_read (l : ast.lexer) (e : error) (l' : ast.lexer) :
  wellFormed l ->
  0 <= ast.pos l ->
  ast.NextToken l = (Err e, l') ->
  ast.pos l' = ast.pos l
  /\ ast.tokens l' = ast.tokens l
  /\ exists first,
       bunlex.i (ast.lex l) <= first < len (ast.s l)
       /\ isQuote (byteAt (ast.s l) first) = true
       /\ (forall k, bunlex.i (ast.lex l) <= k < first ->
             ast.ignoreSpaces l = true
             /\ bunlex.IsWhitespace (byteAt (ast.s l) k) = true)
       /\ fst (bunlex.ReadUnquoted (byteAt (ast.s l) first)
                 {| bunlex.s := ast.s l; bunlex.i := first + 1 |})
          = Err e.
Proof.
  intros Hw Hpos H.
  pose proof (NextToken_cache _ _ _ H) as [Hp Ht]. cbn in Hp, Ht.
  split; [exact Hp|]. split; [exact Ht|].
  unfold ast.NextToken in H.
  destruct (ast.PeekToken l) as [[t|e0] l0] eqn:P; [discriminate|].
  injection H as -> ->. unfold ast.PeekToken in P.
  destruct (ast.pos l <? Z.of_nat (List.length (ast.tokens l))) eqn:C.
  - exfalso. apply Z.ltb_lt in C.
    destruct (Z.ltb_spec (ast.pos l) 0); [lia|].
    destruct (nth_error (ast.tokens l) (Z.to_nat (ast.pos l))) eqn:N;
      [discriminate|].
    apply nth_error_None in N. lia.
  - unfold ast.readToken in P.
    exact (proj2 (readTokenFrom_error _ _ _ _ Hw P)).
Qed.

Lemma X20_failing_read_witness :
  let l := ast.IgnoreSpaces (ast.newLexer " 'abc") in
  ast.pos (snd (ast.NextToken l)) = ast.pos l
  /\ ast.tokens (snd (ast.NextToken l)) = ast.tokens l.
Proof.
  cbv zeta.
  destruct (X20_failing_read
              (ast.IgnoreSpaces (ast.newLexer " 'abc"))
              (ErrCollaborator "unterminated literal")
              (snd (ast.NextToken (ast.IgnoreSpaces (ast.newLexer " 'abc")))))
    as (A & B & _).
  - unfold wellFormed. vm_compute. repeat split; discriminate.
  - vm_compute. discriminate.
  - vm_compute. reflexivity.
  - split; assumption.
Defined.

(** ** View names *)

Lemma length_mapBytes (f : ascii -> ascii) (str : string) :
  String.length (mapBytes f str) = String.length str.
Proof. induction str as [|c str IH]; cbn; [reflexivity | now rewrite IH]. Qed.

Lemma hasByte_append (c : ascii) (a b : string) :
  hasByte c (a ++ b) = (hasByte c a || hasByte c b)%bool.
Proof.
  induction a as [|d a IH]; [reflexivity|].
  cbn. rewrite IH. now rewrite orb_assoc.
Qed.

Lemma hasByte_dot_mapBytes (str : string) :
  hasByte "." (mapBytes dotToUnderscore str) = false.
Proof.
  induction str as [|c str IH]; [reflexivity|].
  cbn [mapBytes hasByte]. rewrite IH, orb_false_r.
  unfold dotToUnderscore. destruct (Ascii.eqb_spec c "."); [reflexivity|].
  now apply Ascii.eqb_neq.
Qed.

Lemma viewNameOf_text (metric : bunconf.SpanMetric) :
  metrics.viewNameOf metric
  = ("metrics_" ++ mapBytes dotToUnderscore (bunconf.Name metric)
     ++ "_mv")%string.
Proof.
  unfold metrics.viewNameOf. rewrite ReplaceAll_dot. now rewrite append_assoc.
Qed.

(** X21.  Two metrics get the same view exactly when their names are equal
    once every ['.'] is read as ['_']: the view name keeps every other byte
    of the metric name in place, so that names which differ only there,
    such as ["a.b"] and ["a_b"], share one view and each drops the view of
    the other.  A view name contains no ['.'] and is eleven bytes longer
    than the metric name. *)
Theorem X21_view_name_collisions :
  (forall m1 m2 : bunconf.SpanMetric,
      metrics.viewNameOf m1 = metrics.viewNameOf m2
      <-> mapBytes dotToUnderscore (bunconf.Name m1)
          = mapBytes dotToUnderscore (bunconf.Name m2))
  /\ (forall m : bunconf.SpanMetric,
        hasByte "." (metrics.viewNameOf m) = false)
  /\ (forall m : bunconf.SpanMetric,
        len (metrics.viewNameOf m) = len (bunconf.Name m) + 11)
  /\ (forall (env : Env) (m1 m2 : bunconf.SpanMetric),
        metrics.viewNameOf m1 = metrics.viewNameOf m2 ->
        exists rest,
          fst (metrics.createMatView env m2)
          = metrics.dropViewStmt env (metrics.viewNameOf m1) :: rest).
Proof.
  split; [|split; [|split]].
  - intros m1 m2. rewrite !viewNameOf_text. split.
    + intros H. apply append_inv_head in H.
      apply (append_same_length _ _ _ _ H).
      apply (f_equal String.length) in H.
      rewrite !length_append in H. cbn in H. lia.
    + now intros ->.
  - intros m. rewrite viewNameOf_text, !hasByte_append.
    now rewrite hasByte_dot_mapBytes.
  - intros m. rewrite viewNameOf_text. unfold len.
    rewrite !length_append, length_mapBytes. cbn. lia.
  - intros env m1 m2 E. rewrite E. unfold metrics.createMatView.
    destruct (Exec env _); [now eexists|].
    destruct (metrics.compileSpanMetricValue env _); [|now eexists].
    destruct (metrics.withWhere env m2 _); [|now eexists].
    destruct (metrics.instrumentColumns env _ _ _); now eexists.
Qed.

Lemma X21_view_name_collisions_witness :
  metrics.viewNameOf (Examples.metric "a.b" "counter")
  = metrics.viewNameOf (Examples.metric "a_b" "gauge").
Proof.
  apply (proj2 (proj1 X21_view_name_collisions
                  (Examples.metric "a.b" "counter")
                  (Examples.metric "a_b" "gauge"))).
  reflexivity.
Defined.
